(** * AI Study Buddy: parsing of model replies, diagram text and CSV export

    A shallow embedding of the pure string handling of [utils.py] and
    [app.py]: the flashcard and quiz parsers that read the model's reply, the
    builder of the summary diagram (Graphviz text), the CSV escaping and the
    scoring step of the quiz form.

    Python strings are sequences of Unicode code points; they are modelled as
    lists of code points ([N]).  Python integers are modelled as [Z]. *)

From Stdlib Require Import Ascii String DecimalString.
From Stdlib Require QArith.
From Stdlib Require Import List ZArith NArith Lia Bool.
Import ListNotations.

(** ** The part of Python's [str] and [re] behaviour the program relies on *)
Module Py.

Abbreviation char := N.
Definition str := list char.

(** A Rocq string literal (ASCII only) read as a Python string. *)
Definition lit (s : string) : str := map N_of_ascii (list_ascii_of_string s).
Arguments lit s%_string.

Definition str_eqb (a b : str) : bool :=
  if list_eq_dec N.eq_dec a b then true else false.

Definition nonempty (s : str) : bool :=
  match s with [] => false | _ :: _ => true end.

(** [str.isspace] on one code point (CPython's [_PyUnicode_IsWhitespace]). *)
Definition isspace (c : char) : bool :=
  (((9 <=? c) && (c <=? 13)) || ((28 <=? c) && (c <=? 32)) || (c =? 133)
   || (c =? 160) || (c =? 5760) || ((8192 <=? c) && (c <=? 8202))
   || (c =? 8232) || (c =? 8233) || (c =? 8239) || (c =? 8287)
   || (c =? 12288))%N.

(** The line boundaries of [str.splitlines]. *)
Definition is_linebreak (c : char) : bool :=
  (((10 <=? c) && (c <=? 13)) || ((28 <=? c) && (c <=? 30)) || (c =? 133)
   || (c =? 8232) || (c =? 8233))%N.

Fixpoint lstrip (s : str) : str :=
  match s with
  | [] => []
  | c :: s' => if isspace c then lstrip s' else s
  end.

Fixpoint rstrip (s : str) : str :=
  match s with
  | [] => []
  | c :: s' =>
      match rstrip s' with
      | [] => if isspace c then [] else [c]
      | r => c :: r
      end
  end.

(** [s.strip()] *)
Definition strip (s : str) : str := rstrip (lstrip s).

(** [s.startswith(p)] *)
Fixpoint startswith (p s : str) : bool :=
  match p, s with
  | [], _ => true
  | _ :: _, [] => false
  | a :: p', b :: s' => (a =? b)%N && startswith p' s'
  end.

(** [s.splitlines()]: a line ends at a line boundary (CR LF counts as one);
    no empty last line is produced after a final boundary. *)
Fixpoint splitlines (s : str) : list str :=
  match s with
  | [] => []
  | c :: s' =>
      if is_linebreak c then
        match s' with
        | d :: s'' =>
            if ((c =? 13) && (d =? 10))%N then [] :: splitlines s''
            else [] :: splitlines s'
        | [] => [[]]
        end
      else
        match splitlines s' with
        | [] => [[c]]
        | l :: ls => (c :: l) :: ls
        end
  end.

(** [s.split()]: the maximal runs of non-whitespace. *)
Fixpoint split_ws (s : str) : list str :=
  match s with
  | [] => []
  | c :: s' =>
      if isspace c then split_ws s'
      else
        match s' with
        | [] => [[c]]
        | d :: _ =>
            if isspace d then [c] :: split_ws s'
            else
              match split_ws s' with
              | [] => [[c]]
              | w :: ws => (c :: w) :: ws
              end
        end
  end.

(** [s.split(sep)] for a non-empty separator: occurrences are taken from the
    left and do not overlap.  [skip] counts the characters of a separator
    still to be passed over. *)
Fixpoint split_go (sep : str) (skip : nat) (s : str) : list str :=
  match s with
  | [] => [[]]
  | c :: s' =>
      match skip with
      | S k => split_go sep k s'
      | O =>
          if startswith sep s then [] :: split_go sep (length sep - 1) s'
          else
            match split_go sep 0 s' with
            | [] => [[c]]
            | p :: ps => (c :: p) :: ps
            end
      end
  end.

Definition split (sep s : str) : list str := split_go sep 0 s.

(** [s.replace(old, new)] for a non-empty [old]: occurrences are taken from
    the left and do not overlap. *)
Fixpoint replace_go (old new : str) (skip : nat) (s : str) : str :=
  match s with
  | [] => []
  | c :: s' =>
      match skip with
      | S k => replace_go old new k s'
      | O =>
          if startswith old s then new ++ replace_go old new (length old - 1) s'
          else c :: replace_go old new 0 s'
      end
  end.

Definition replace (old new s : str) : str := replace_go old new 0 s.

(** [sep.join(parts)] *)
Fixpoint join (sep : str) (parts : list str) : str :=
  match parts with
  | [] => []
  | [p] => p
  | p :: ps => p ++ sep ++ join sep ps
  end.

(** The slice [l[:n]]; a negative [n] counts from the end. *)
Definition take {A} (n : Z) (l : list A) : list A :=
  if (0 <=? n)%Z then firstn (Z.to_nat n) l
  else firstn (length l - Z.to_nat (- n)) l.

(** [len(l)] *)
Definition len {A} (l : list A) : Z := Z.of_nat (length l).

(** Truth value of an [Optional[str]]: [None] and the empty string are false. *)
Definition truthy (o : option str) : bool :=
  match o with
  | Some s => nonempty s
  | None => false
  end.

(** [str(i)] for a non-negative index. *)
Definition str_of_nat (i : nat) : str := lit (NilEmpty.string_of_uint (Nat.to_uint i)).

End Py.
Import Py.

(** ** [utils.py]: parsing the model's reply *)
Module Utils.

(** A flashcard, the dict [{"question": ..., "answer": ...}]. *)
Record Flashcard := mkFlashcard { fc_question : str; fc_answer : str }.

(** A quiz item, the dict [{"question": ..., "options": ..., "answer": ...}]. *)
Record QuizItem := mkQuizItem {
  qz_question : str;
  qz_options : list str;
  qz_answer : str
}.

(** The loop of [generate_flashcards] over the lines of the reply.  The state
    is [cards] and the pending [question]; the loop is left as soon as
    [len(cards) >= n] holds at the end of an iteration. *)
Fixpoint flashcards_loop (n : Z) (lines : list str)
    (cards : list Flashcard) (question : option str) : list Flashcard :=
  match lines with
  | [] => cards
  | raw_line :: rest =>
      let line := strip raw_line in
      let '(cards', question') :=
        if startswith (lit "Q:") line then
          (cards, Some (strip (skipn 2 line)))
        else if startswith (lit "A:") line && truthy question then
          match question with
          | Some q => (cards ++ [mkFlashcard q (strip (skipn 2 line))], None)
          | None => (cards, question)
          end
        else (cards, question) in
      if (len cards' >=? n)%Z then cards'
      else flashcards_loop n rest cards' question'
  end.

(** [generate_flashcards], from the reply [text] of the model on
    (lines 44 to 55); the prompt and the call of the model are outside. *)
Definition generate_flashcards (text : str) (n : Z) : list Flashcard :=
  take n (flashcards_loop n (splitlines text) [] None).

(** The body of the [Options:] branch of [generate_quiz]: the options of one
    stripped line that starts with [Options:]. *)
Definition parse_options (line : str) : list str :=
  let opts_text := strip (skipn (length (lit "Options:")) line) in
  let tokens :=
    split (lit "|")
      (replace (lit "D)") (lit "|D)")
        (replace (lit "C)") (lit "|C)")
          (replace (lit "B)") (lit "|B)")
            (replace (lit "A)") (lit "|A)") opts_text)))) in
  let tokens := filter nonempty tokens in
  map (fun t =>
         let t := strip t in
         if (2 <=? length t)%nat && (nth 1 t 0 =? 41)%N
         then strip (skipn 2 t)
         else t)
      tokens.

(** The loop of [generate_quiz]; the state is [quizzes], the pending
    [question] and the pending [options]. *)
Fixpoint quiz_loop (n : Z) (lines : list str) (quizzes : list QuizItem)
    (question : option str) (options : list str) : list QuizItem :=
  match lines with
  | [] => quizzes
  | raw_line :: rest =>
      let line := strip raw_line in
      let '(quizzes', question', options') :=
        if startswith (lit "Q:") line then
          (quizzes, Some (strip (skipn 2 line)), options)
        else if startswith (lit "Options:") line then
          (quizzes, question, parse_options line)
        else if startswith (lit "Answer:") line && truthy question then
          match question with
          | Some q =>
              (quizzes ++ [mkQuizItem q (firstn 4 options)
                             (strip (skipn (length (lit "Answer:")) line))],
               None, [])
          | None => (quizzes, question, options)
          end
        else (quizzes, question, options) in
      if (len quizzes' >=? n)%Z then quizzes'
      else quiz_loop n rest quizzes' question' options'
  end.

(** [generate_quiz], from the reply [text] of the model on (lines 66 to 88). *)
Definition generate_quiz (text : str) (n : Z) : list QuizItem :=
  take n (quiz_loop n (splitlines text) [] None []).

End Utils.
Import Utils.

(** ** [app.py]: diagram text, CSV export and scoring *)
Module App.

(** The double quote character. *)
Definition dq : str := [34%N].

(** The line feed character. *)
Definition nl : str := [10%N].

(** [enumerate(l)] *)
Definition enumerate {A} (l : list A) : list (nat * A) :=
  combine (seq 0 (length l)) l.

(** *** The three regular expressions of the diagram helpers *)

(** The first occurrence of [pat] in [s]: the text before it and the text
    after it. *)
Fixpoint find_sub (pat s : str) : option (str * str) :=
  if startswith pat s then Some ([], skipn (length pat) s)
  else
    match s with
    | [] => None
    | c :: s' =>
        match find_sub pat s' with
        | Some (before, after) => Some (c :: before, after)
        | None => None
        end
    end.

Fixpoint drop_until_gt (s : str) : str :=
  match s with
  | [] => []
  | c :: s' => if (c =? 62)%N then s else drop_until_gt s'
  end.

(** One match of [<p[^>]*>(.*?)</p>] (with [re.S]) at the start of [s]: the
    captured group and the text after the match.  The class [[^>]*] can only
    stop at the first [>], and the lazy group ends at the first [</p>]. *)
Definition match_paragraph (s : str) : option (str * str) :=
  if startswith (lit "<p") s then
    match drop_until_gt (skipn 2 s) with
    | [] => None
    | _ :: body => find_sub (lit "</p>") body
    end
  else None.

(** [re.findall(r"<p[^>]*>(.*?)</p>", s, flags=re.S)]: matches are searched
    from the left; after a match the search goes on behind it. *)
Fixpoint findall_paragraphs_go (skip : nat) (s : str) : list str :=
  match s with
  | [] => []
  | c :: s' =>
      match skip with
      | S k => findall_paragraphs_go k s'
      | O =>
          match match_paragraph s with
          | Some (group, after) =>
              group :: findall_paragraphs_go (length s' - length after) s'
          | None => findall_paragraphs_go 0 s'
          end
      end
  end.

Definition findall_paragraphs (s : str) : list str := findall_paragraphs_go 0 s.

(** One match of [<[^>]+>] at the start of [s]: the text after the match. *)
Definition match_tag (s : str) : option str :=
  match s with
  | c :: d :: s' =>
      if ((c =? 60) && negb (d =? 62))%N then
        match drop_until_gt s' with
        | [] => None
        | _ :: after => Some after
        end
      else None
  | _ => None
  end.

Fixpoint sub_tags_go (skip : nat) (s : str) : str :=
  match s with
  | [] => []
  | c :: s' =>
      match skip with
      | S k => sub_tags_go k s'
      | O =>
          match match_tag s with
          | Some after => sub_tags_go (length s' - length after) s'
          | None => c :: sub_tags_go 0 s'
          end
      end
  end.

(** [_strip_html]: every match of [<[^>]+>] in the text is deleted. *)
Definition _strip_html (text : str) : str := sub_tags_go 0 text.

(** [_split_paragraphs] *)
Definition _split_paragraphs (summary_html : str) : list str :=
  let paras := findall_paragraphs summary_html in
  let paras :=
    match paras with
    | [] => map strip (filter (fun p => nonempty (strip p))
                         (split (nl ++ nl) summary_html))
    | _ :: _ => paras
    end in
  map (fun p => strip (_strip_html p)) (firstn 3 paras).

Definition is_sentence_end (prev : option char) : bool :=
  match prev with
  | Some c => ((c =? 46) || (c =? 33) || (c =? 63))%N
  | None => false
  end.

Fixpoint run_of_s (s : str) : nat :=
  match s with
  | c :: s' => if (c =? 115)%N then S (run_of_s s') else 0
  | [] => 0
  end.

(** [re.split(r"(?<=[.!?])\\s+", s)].  The pattern is a raw string, so its
    [\\] is an escaped backslash: after the look-behind for one of [.!?] the
    expression matches the backslash character (code 92) followed by one or
    more letters [s] (code 115).  [prev] is the character before [s]. *)
Fixpoint split_sentences_go (prev : option char) (skip : nat) (s : str)
    : list str :=
  match s with
  | [] => [[]]
  | c :: s' =>
      match skip with
      | S k => split_sentences_go (Some c) k s'
      | O =>
          if is_sentence_end prev && (c =? 92)%N && (1 <=? run_of_s s')%nat
          then [] :: split_sentences_go (Some c) (run_of_s s') s'
          else
            match split_sentences_go (Some c) 0 s' with
            | [] => [[c]]
            | p :: ps => (c :: p) :: ps
            end
      end
  end.

(** [_sentences] *)
Definition _sentences (s : str) : list str :=
  map strip (filter (fun p => nonempty (strip p))
               (split_sentences_go None 0 (strip s))).

(** The ellipsis character U+2026. *)
Definition ellipsis : str := [8230%N].

(** [_shorten] *)
Definition _shorten (sentence : str) (max_words : Z) : str :=
  let words := split_ws sentence in
  join (lit " ") (take max_words words)
  ++ (if (len words >? max_words)%Z then ellipsis else []).

(** The loop of [_wrap_label]: the finished [lines] and the current [line]. *)
Fixpoint wrap_loop (max_len : Z) (words : list str) (lines : list str)
    (line : str) : list str * str :=
  match words with
  | [] => (lines, line)
  | w :: rest =>
      if (len line + len w + (if nonempty line then 1 else 0) <=? max_len)%Z
      then wrap_loop max_len rest lines (strip (line ++ lit " " ++ w))
      else wrap_loop max_len rest (lines ++ [line]) w
  end.

(** The list [lines] of [_wrap_label] just before it is joined. *)
Definition wrap_lines (text : str) (max_len : Z) : list str :=
  let '(lines, line) := wrap_loop max_len (split_ws text) [] [] in
  if nonempty line then lines ++ [line] else lines.

(** [_wrap_label]; the separator is the two characters backslash and [n],
    which Graphviz reads as a line break inside a label. *)
Definition _wrap_label (text : str) (max_len : Z) : str :=
  join [92%N; 110%N] (wrap_lines text max_len).

(** The bullet character U+2022 of the branch titles. *)
Definition bullet : str := [8226%N].

Definition heads : list str :=
  [ lit "Definition & Building Blocks";
    lit "Architecture " ++ bullet ++ lit " Security " ++ bullet ++ lit " Ops";
    lit "Use Cases " ++ bullet ++ lit " Benefits " ++ bullet ++ lit " Costs" ].

(** The node statement of the root (third f-string of [g]). *)
Definition root_node (topic : str) (wrap_len : Z) : str :=
  lit "root [label=" ++ dq ++ _wrap_label topic wrap_len ++ dq
  ++ lit ", shape=oval, fillcolor=" ++ dq ++ lit "#1f2937" ++ dq
  ++ lit ", fontsize=14, penwidth=2, color=" ++ dq ++ lit "#60a5fa" ++ dq
  ++ lit "];".

(** The node statement of branch [bid]. *)
Definition branch_node (wrap_len : Z) (bid head : str) : str :=
  bid ++ lit " [label=" ++ dq ++ _wrap_label head wrap_len ++ dq
  ++ lit ", fillcolor=" ++ dq ++ lit "#0b1320" ++ dq
  ++ lit ", fontsize=12, color=" ++ dq ++ lit "#93c5fd" ++ dq ++ lit "];".

(** The node statement of leaf [lid]. *)
Definition leaf_node (wrap_len : Z) (lid sent : str) : str :=
  lid ++ lit " [label=" ++ dq ++ _wrap_label (_shorten sent 12) wrap_len ++ dq
  ++ lit ", fillcolor=" ++ dq ++ lit "#0f172a" ++ dq
  ++ lit ", color=" ++ dq ++ lit "#334155" ++ dq ++ lit "];".

(** The two lines appended for leaf [j] of branch [i]. *)
Definition leaf_lines (wrap_len : Z) (i : nat) (bid : str) (j : nat)
    (sent : str) : list str :=
  let lid := lit "l" ++ str_of_nat i ++ lit "_" ++ str_of_nat j in
  [ leaf_node wrap_len lid sent; bid ++ lit " -> " ++ lid ++ lit ";" ].

(** The lines appended in one round of the loop over [heads]. *)
Definition branch_lines (paras : list str) (leaves_per_para wrap_len : Z)
    (i : nat) (head : str) : list str :=
  let bid := lit "b" ++ str_of_nat i in
  [ branch_node wrap_len bid head; lit "root -> " ++ bid ++ lit ";" ]
  ++ (if (i <? length paras)%nat then
        let sents := take leaves_per_para (_sentences (nth i paras [])) in
        flat_map (fun '(j, sent) => leaf_lines wrap_len i bid j sent)
                 (enumerate sents)
      else []).

(** The first four entries of [g]. *)
Definition graph_header (topic : str) (wrap_len : Z) (orientation : str)
    : list str :=
  [ lit "digraph G {";
    lit "graph [rankdir=" ++ orientation
    ++ lit ", splines=true, overlap=false, nodesep=0.4, ranksep=0.7, margin=0.1];";
    lit "node [shape=box, style=filled, fillcolor=" ++ dq ++ lit "#111827" ++ dq
    ++ lit ", color=" ++ dq ++ lit "#3b82f6" ++ dq
    ++ lit ", fontname=" ++ dq ++ lit "Helvetica" ++ dq
    ++ lit ", fontsize=11, fontcolor=" ++ dq ++ lit "#e5e7eb" ++ dq ++ lit "];";
    root_node topic wrap_len ].

(** The list [g] of [build_summary_dot] just before it is joined. *)
Definition build_summary_lines (topic summary_html : str)
    (leaves_per_para wrap_len : Z) (orientation : str) : list str :=
  let paras := _split_paragraphs summary_html in
  graph_header topic wrap_len orientation
  ++ flat_map (fun '(i, head) =>
                 branch_lines paras leaves_per_para wrap_len i head)
              (enumerate heads)
  ++ [ lit "}" ].

(** [build_summary_dot] *)
Definition build_summary_dot (topic summary_html : str)
    (leaves_per_para wrap_len : Z) (orientation : str) : str :=
  join nl (build_summary_lines topic summary_html leaves_per_para wrap_len
             orientation).

(** [csv_escape] *)
Definition csv_escape (text : str) : str :=
  strip (replace nl (lit " ") (replace dq (dq ++ dq) text)).

(** The flashcard export (the [show_csv] branch): header and one row a card. *)
Definition flashcard_row (c : Flashcard) : str :=
  dq ++ csv_escape (fc_question c) ++ dq ++ lit "," ++ dq
  ++ csv_escape (fc_answer c) ++ dq ++ nl.

Definition flashcards_csv (cards : list Flashcard) : str :=
  lit "Question,Answer" ++ nl ++ concat (map flashcard_row cards).

(** The first entry of the radio list, U+2014 on both sides. *)
Definition placeholder : str :=
  [8212%N] ++ lit " Select an answer " ++ [8212%N].

(** The entries of the radio of one item: [[placeholder] + options]. *)
Definition options_display (q : QuizItem) : list str :=
  placeholder :: qz_options q.

(** What the form stores in [ss.answers[qid]] for the radio [choice]. *)
Definition store_choice (choice : str) : option str :=
  if str_eqb choice placeholder then None else Some choice.

(** [user_ans == correct], with [user_ans] an [Optional[str]]. *)
Definition ans_eqb (user_ans : option str) (correct : str) : bool :=
  match user_ans with
  | Some a => str_eqb a correct
  | None => false
  end.

(** [result] of the scoring loop. *)
Definition result (user_ans : option str) (correct : str) : str :=
  if ans_eqb user_ans correct then lit "Correct" else lit "Wrong".

(** [user_ans or ''] *)
Definition or_empty (user_ans : option str) : str :=
  match user_ans with
  | Some a => a
  | None => []
  end.

(** The text written to the results file for one item (line 546): the row is
    formatted with doubled quotes around the last three fields and then every
    doubled quote of the whole row is replaced by a single one. *)
Definition quiz_row (q : QuizItem) (user_ans : option str) : str :=
  let correct := qz_answer q in
  let qtext_csv := csv_escape (qz_question q) in
  let user_csv := csv_escape (or_empty user_ans) in
  let corr_csv := csv_escape correct in
  replace (dq ++ dq) dq
    (dq ++ qtext_csv ++ dq ++ lit "," ++ dq ++ dq ++ user_csv ++ dq ++ dq
     ++ lit "," ++ dq ++ dq ++ corr_csv ++ dq ++ dq
     ++ lit "," ++ dq ++ dq ++ result user_ans correct ++ dq ++ dq ++ nl).

(** The scoring step after [submitted]: the score and the exported text.
    [answers i] is [ss.answers["quiz_i"]]. *)
Definition quiz_score (quiz : list QuizItem) (answers : nat -> option str) : Z :=
  fold_left (fun score '(i, q) =>
               (score + (if ans_eqb (answers i) (qz_answer q) then 1 else 0))%Z)
            (enumerate quiz) 0%Z.

Definition quiz_results_csv (quiz : list QuizItem)
    (answers : nat -> option str) : str :=
  lit "Question,Your Answer,Correct Answer,Result" ++ nl
  ++ concat (map (fun '(i, q) => quiz_row q (answers i)) (enumerate quiz)).

End App.
Import App.

(** ** Shapes of replies, used to state the properties of the parsers *)
Module Reply.

(** A line that the parsers read as a question: once stripped it starts
    with [Q:]. *)
Definition is_q_line (raw_line : str) : bool :=
  startswith (lit "Q:") (strip raw_line).

(** A line that the flashcard parser reads as an answer. *)
Definition is_a_line (raw_line : str) : bool :=
  startswith (lit "A:") (strip raw_line).

(** The text of a [Q:] or [A:] line: the prefix removed, whitespace trimmed. *)
Definition field (raw_line : str) : str := strip (skipn 2 (strip raw_line)).

(** The [Q:] and [A:] lines of a reply, in order; other lines are left out. *)
Definition qa_lines (lines : list str) : list str :=
  filter (fun l => is_q_line l || is_a_line l) lines.

(** The cards of a sequence of lines made of [Q:] and [A:] lines in strict
    alternation, starting with a [Q:] line; [None] for any other sequence. *)
Fixpoint blocks (ls : list str) : option (list Flashcard) :=
  match ls with
  | [] => Some []
  | lq :: la :: rest =>
      if is_q_line lq && is_a_line la then
        match blocks rest with
        | Some cards => Some (mkFlashcard (field lq) (field la) :: cards)
        | None => None
        end
      else None
  | [_] => None
  end.

(** No card has a blank question. *)
Definition questions_nonblank (cards : list Flashcard) : bool :=
  forallb (fun c => nonempty (fc_question c)) cards.

(** The number of [Q:] lines. *)
Definition count_q_lines (lines : list str) : nat :=
  length (filter is_q_line lines).

(** The cards read from [lines] with pending question [question] when the
    loop is never left early; the proofs compare the loop with it. *)
Fixpoint cards_of (question : option str) (lines : list str) : list Flashcard :=
  match lines with
  | [] => []
  | l :: rest =>
      if is_q_line l then cards_of (Some (field l)) rest
      else if is_a_line l && truthy question then
        match question with
        | Some q => mkFlashcard q (field l) :: cards_of None rest
        | None => cards_of question rest
        end
      else cards_of question rest
  end.

(** [s] nowhere holds the character [a] directly followed by [b]. *)
Fixpoint nopair (a b : char) (s : str) : bool :=
  match s with
  | c :: s' =>
      match s' with
      | d :: _ => negb ((c =? a)%N && (d =? b)%N) && nopair a b s'
      | [] => true
      end
  | [] => true
  end.

(** A text that holds no [|] and none of the markers [A)], [B)], [C)], [D)]. *)
Definition marker_free (s : str) : bool :=
  forallb (fun c => negb (c =? 124)%N) s
  && nopair 65%N 41%N s && nopair 66%N 41%N s
  && nopair 67%N 41%N s && nopair 68%N 41%N s.

(** A text that is not empty and has no whitespace at either end. *)
Definition trimmed (s : str) : bool := nonempty s && str_eqb (strip s) s.

(** The line [Options: A) x B) y C) z D) w]. *)
Definition options_line (x y z w : str) : str :=
  lit "Options: A) " ++ x ++ lit " B) " ++ y ++ lit " C) " ++ z
  ++ lit " D) " ++ w.

(** A line of a wrapped label fits into [max_len], or is one of the words
    [all_words] of the label. *)
Definition line_ok (max_len : Z) (all_words : list str) (l : str) : Prop :=
  (len l <= max_len)%Z \/ In l all_words.

End Reply.
Import Reply.

(** ** Reference readings of the quiz loop *)
Module QuizReply.

(** The items read from [lines] with pending [question] and [options] when
    the loop is never left early; the proofs compare the loop with it. *)
Fixpoint items_of (question : option str) (options : list str)
    (lines : list str) : list QuizItem :=
  match lines with
  | [] => []
  | raw_line :: rest =>
      let line := strip raw_line in
      if startswith (lit "Q:") line then
        items_of (Some (strip (skipn 2 line))) options rest
      else if startswith (lit "Options:") line then
        items_of question (parse_options line) rest
      else if startswith (lit "Answer:") line && truthy question then
        match question with
        | Some q =>
            mkQuizItem q (firstn 4 options)
              (strip (skipn (length (lit "Answer:")) line))
            :: items_of None [] rest
        | None => items_of question options rest
        end
      else items_of question options rest
  end.

(** An option text as the parser stores it: no whitespace at either end and
    no [|]. *)
Definition option_shape (o : str) : Prop :=
  strip o = o /\ ~ In 124%N o.

End QuizReply.
Import QuizReply.

(** ** [app.py]: the radio of a quiz item and the flip cards *)
Module Form.

(** [l.index(x)]: the first position of [x]; the program calls it only for
    an [x] that occurs in [l]. *)
Fixpoint index (x : str) (l : list str) : nat :=
  match l with
  | [] => 0
  | y :: l' => if str_eqb y x then 0 else S (index x l')
  end.

(** [current in options], for a stored answer that may be [None]. *)
Definition in_options (current : option str) (options : list str) : bool :=
  match current with
  | Some c => existsb (fun o => str_eqb o c) options
  | None => false
  end.

(** [default_idx] of the form (line 498). *)
Definition default_idx (q : QuizItem) (current : option str) : nat :=
  if in_options current (qz_options q) then
    match current with
    | Some c => index c (options_display q)
    | None => 0
    end
  else 0.

(** The entry that the radio shows when the user does not touch it:
    [options_display[default_idx]]. *)
Definition radio_default (q : QuizItem) (current : option str) : str :=
  nth (default_idx q current) (options_display q) placeholder.

(** [esc] of [render_flip_cards]: the three replacements, in this order. *)
Definition esc (s : str) : str :=
  replace (lit ">") (lit "&gt;")
    (replace (lit "<") (lit "&lt;")
       (replace (lit "&") (lit "&amp;") s)).

(** The number in the class name [fc-front-k] of card [i]: [(i % 5) or 5]. *)
Definition palette (i : Z) : Z :=
  if (i mod 5 =? 0)%Z then 5%Z else (i mod 5)%Z.

(** A word as [s.split()] yields it: not empty and without whitespace.
    (Used to state facts about the labels of the diagram.) *)
Definition is_word (w : str) : bool :=
  nonempty w && forallb (fun c => negb (isspace c)) w.

End Form.
Import Form.

(** ** Replies written in the format that the prompts ask for *)
Module Render.

(** The two lines of a card in the format of the flashcard prompts. *)
Definition card_lines (c : Flashcard) : list str :=
  [lit "Q: " ++ fc_question c; lit "A: " ++ fc_answer c].

(** A card that the format can carry: a question that is not empty and has
    no whitespace at either end, an answer without whitespace at either end
    (it may be empty). *)
Definition card_ok (c : Flashcard) : bool :=
  trimmed (fc_question c) && str_eqb (strip (fc_answer c)) (fc_answer c).

(** The three lines of a quiz item with four options in the format of the
    quiz prompts; no line for an item that has not four options. *)
Definition item_lines (it : QuizItem) : list str :=
  match qz_options it with
  | [x; y; z; w] =>
      [lit "Q: " ++ qz_question it; options_line x y z w;
       lit "Answer: " ++ qz_answer it]
  | _ => []
  end.

(** An item that the format can carry: four options, each not empty, without
    whitespace at either end, without [|] and without marker; a question and
    an answer that are not empty and have no whitespace at either end. *)
Definition item_ok (it : QuizItem) : bool :=
  trimmed (qz_question it) && trimmed (qz_answer it)
  && match qz_options it with
     | [x; y; z; w] =>
         trimmed x && trimmed y && trimmed z && trimmed w
         && marker_free x && marker_free y && marker_free z && marker_free w
     | _ => false
     end.

End Render.
Import Render.

(** ** [prompts.py]: the five templates *)
Module Prompts.

(** [str(n)] for an integer. *)
Definition str_of_Z (n : Z) : str :=
  if (n <? 0)%Z then lit "-" ++ str_of_nat (Z.to_nat (- n))
  else str_of_nat (Z.to_nat n).

(** [SUMMARY_PROMPT.format(topic=topic)] *)
Definition SUMMARY_PROMPT (topic : str) : str :=
  nl
  ++ lit "You are an expert explainer. Write a comprehensive, neutral overview of " ++ dq ++ topic ++ dq ++ lit "." ++ nl
  ++ lit "STRICT FORMAT:" ++ nl
  ++ lit "- Output EXACTLY 3 paragraphs, each wrapped in <p> ... </p>. No headings, lists, or extra text." ++ nl
  ++ lit "- Each paragraph must contain 6" ++ [8211%N] ++ lit "8 complete sentences (total 18" ++ [8211%N] ++ lit "24 sentences)." ++ nl
  ++ lit "CONTENT SCOPE:" ++ nl
  ++ lit "1) Para 1 " ++ [8212%N] ++ lit " definition/scope, why it exists, and the core building blocks." ++ nl
  ++ lit "2) Para 2 " ++ [8212%N] ++ lit " architecture/high availability, security/governance, operations/monitoring/backup." ++ nl
  ++ lit "3) Para 3 " ++ [8212%N] ++ lit " common use cases, benefits vs. trade-offs, pricing basics, compliance, and best practices." ++ nl
  ++ lit "STYLE:" ++ nl
  ++ lit "- 9th" ++ [8211%N] ++ lit "12th grade reading level; clear, concise, non-marketing; no code." ++ nl
  ++ lit "- Use concrete examples and avoid repetition." ++ nl
  ++ lit "Only output the three <p> blocks." ++ nl.

(** [FLASHCARDS_PROMPT.format(topic=topic, n=n)] *)
Definition FLASHCARDS_PROMPT (topic : str) (n : Z) : str :=
  nl
  ++ lit "Generate EXACTLY " ++ str_of_Z n ++ lit " concise flashcards about " ++ dq ++ topic ++ dq ++ lit "." ++ nl
  ++ lit "STRICT FORMAT (one pair per block, in this exact order):" ++ nl
  ++ lit "Q: <question>" ++ nl
  ++ lit "A: <answer>" ++ nl
  ++ lit "Rules: No numbering, no bullets, no extra lines between cards, no explanations." ++ nl
  ++ lit "Keep answers 1" ++ [8211%N] ++ lit "2 sentences." ++ nl.

(** [QUIZ_PROMPT.format(topic=topic, n=n)] *)
Definition QUIZ_PROMPT (topic : str) (n : Z) : str :=
  nl
  ++ lit "Create EXACTLY " ++ str_of_Z n ++ lit " multiple-choice questions about " ++ dq ++ topic ++ dq ++ lit "." ++ nl
  ++ lit "STRICT FORMAT for each item:" ++ nl
  ++ lit "Q: <question>" ++ nl
  ++ lit "Options: A) <opt1> B) <opt2> C) <opt3> D) <opt4>" ++ nl
  ++ lit "Answer: <exact correct option text, not the letter>" ++ nl
  ++ lit "Rules: No numbering, no extra text, exactly 4 options per question." ++ nl
  ++ lit "Make options plausible and distinct; keep each question concise." ++ nl.

(** [FLASHCARDS_FROM_SUMMARY_PROMPT.format(summary=summary, n=n)] *)
Definition FLASHCARDS_FROM_SUMMARY_PROMPT (summary : str) (n : Z) : str :=
  nl
  ++ lit "You will receive a study SUMMARY. Create EXACTLY " ++ str_of_Z n ++ lit " flashcards that are 100% supported by the SUMMARY and add no outside facts." ++ nl
  ++ nl
  ++ lit "SUMMARY:" ++ nl
  ++ lit "<<<" ++ nl
  ++ summary ++ nl
  ++ lit ">>>" ++ nl
  ++ nl
  ++ lit "RULES:" ++ nl
  ++ lit "- Use only information present in the SUMMARY. Do not invent new facts." ++ nl
  ++ lit "- Cover different areas of the SUMMARY (definition/building blocks; architecture/HA/security/ops; use cases/costs/best practices)." ++ nl
  ++ lit "- STRICT FORMAT for each card (no numbering, no extra lines):" ++ nl
  ++ lit "Q: <question>" ++ nl
  ++ lit "A: <answer>" ++ nl
  ++ lit "- Keep answers concise (1" ++ [8211%N] ++ lit "2 sentences), precise, and faithful to the SUMMARY wording." ++ nl.

(** [QUIZ_FROM_SUMMARY_PROMPT.format(summary=summary, n=n)] *)
Definition QUIZ_FROM_SUMMARY_PROMPT (summary : str) (n : Z) : str :=
  nl
  ++ lit "You will receive a study SUMMARY. Write EXACTLY " ++ str_of_Z n ++ lit " MCQs that are fully supported by the SUMMARY and add no outside facts." ++ nl
  ++ nl
  ++ lit "SUMMARY:" ++ nl
  ++ lit "<<<" ++ nl
  ++ summary ++ nl
  ++ lit ">>>" ++ nl
  ++ nl
  ++ lit "RULES:" ++ nl
  ++ lit "- Use only information present in the SUMMARY. If unsure, do not ask about it." ++ nl
  ++ lit "- For each question, provide exactly 4 plausible options; 1 correct, 3 distractors that do not contradict the SUMMARY." ++ nl
  ++ lit "- Prefer using the SUMMARY" ++ [8217%N] ++ lit "s wording for the correct option to reduce ambiguity." ++ nl
  ++ lit "- STRICT FORMAT for each item:" ++ nl
  ++ lit "Q: <question>" ++ nl
  ++ lit "Options: A) <opt1> B) <opt2> C) <opt3> D) <opt4>" ++ nl
  ++ lit "Answer: <exact correct option text, not the letter>" ++ nl
  ++ lit "- No explanations, no numbering, no extra text." ++ nl.

End Prompts.
Import Prompts.

(** ** [utils.py] and the generate action of [app.py], with the calls *)
Module Calls.
Section Api.

(** The exceptions of the [openai] package, with [str(e)]. *)
Variable exn : Type.
Variable exn_str : exn -> str.

(** The environment variables [OPENAI_API_KEY] and [OPENAI_MODEL]. *)
Variable OPENAI_API_KEY : option str.
Variable OPENAI_MODEL : option str.

(** Importing the package and building [OpenAI(api_key=key)]: the client,
    or the exception raised. *)
Variable client : Type.
Variable OpenAI : str -> exn + client.

(** One chat completion request: the model, the prompt (the content of the
    single user message) and the temperature (as the decimal fraction
    written in the source). *)
Record request := mkRequest {
  rq_model : str;
  rq_prompt : str;
  rq_temperature : QArith_base.Q
}.

(** [client.chat.completions.create(...)] and the selection
    [.choices[0].message.content]: the content, or the exception raised on
    the way.  The answer may depend on the requests sent before. *)
Variable create : list request -> client -> request -> exn + str.

(** What a call can raise. *)
Inductive error :=
| RuntimeError (msg : str)
| ApiError (e : exn).

Inductive outcome (A : Type) :=
| Ok (a : A)
| Raise (e : error).
Arguments Ok {A} a.
Arguments Raise {A} e.

(** [MODEL_NAME = os.getenv("OPENAI_MODEL", "gpt-4o-mini")] *)
Definition MODEL_NAME : str :=
  match OPENAI_MODEL with
  | Some m => m
  | None => lit "gpt-4o-mini"
  end.

(** [_get_openai_client] *)
Definition _get_openai_client : outcome client :=
  match OPENAI_API_KEY with
  | Some key =>
      if nonempty key then
        match OpenAI key with
        | inr c => Ok c
        | inl e =>
            Raise (RuntimeError (lit "OpenAI client init failed: "
                                 ++ exn_str e))
        end
      else Raise (RuntimeError (lit "OPENAI_API_KEY is missing."))
  | None => Raise (RuntimeError (lit "OPENAI_API_KEY is missing."))
  end.

(** [call_openai]; [log] is the list of the requests sent so far. *)
Definition call_openai (prompt : str) (temperature : QArith_base.Q)
    (log : list request) : list request * outcome str :=
  match _get_openai_client with
  | Raise e => (log, Raise e)
  | Ok c =>
      let rq := mkRequest MODEL_NAME prompt temperature in
      match create log c rq with
      | inl e => (log ++ [rq], Raise (ApiError e))
      | inr content => (log ++ [rq], Ok (strip content))
      end
  end.

(** [generate_summary] *)
Definition generate_summary (topic : str) (log : list request)
    : list request * outcome str :=
  call_openai (SUMMARY_PROMPT topic) (QArith_base.Qmake 4 10) log.

(** [generate_flashcards], whole: the choice of the prompt, the call and the
    parsing of the reply. *)
Definition generate_flashcards (topic : str) (n : Z) (summary : option str)
    (log : list request) : list request * outcome (list Flashcard) :=
  let '(prompt, temperature) :=
    match summary with
    | Some s =>
        if nonempty s
        then (FLASHCARDS_FROM_SUMMARY_PROMPT s n, QArith_base.Qmake 2 10)
        else (FLASHCARDS_PROMPT topic n, QArith_base.Qmake 5 10)
    | None => (FLASHCARDS_PROMPT topic n, QArith_base.Qmake 5 10)
    end in
  match call_openai prompt temperature log with
  | (log', Ok text) => (log', Ok (Utils.generate_flashcards text n))
  | (log', Raise e) => (log', Raise e)
  end.

(** [generate_quiz], whole. *)
Definition generate_quiz (topic : str) (n : Z) (summary : option str)
    (log : list request) : list request * outcome (list QuizItem) :=
  let '(prompt, temperature) :=
    match summary with
    | Some s =>
        if nonempty s
        then (QUIZ_FROM_SUMMARY_PROMPT s n, QArith_base.Qmake 2 10)
        else (QUIZ_PROMPT topic n, QArith_base.Qmake 5 10)
    | None => (QUIZ_PROMPT topic n, QArith_base.Qmake 5 10)
    end in
  match call_openai prompt temperature log with
  | (log', Ok text) => (log', Ok (Utils.generate_quiz text n))
  | (log', Raise e) => (log', Raise e)
  end.

(** The session state [ss] of [app.py].  The dict [ss.answers] has the keys
    [quiz_0], [quiz_1], ...; it is kept as the list of its values. *)
Record Session := mkSession {
  ss_generated_topic : option str;
  ss_summary : str;
  ss_flashcards : list Flashcard;
  ss_quiz : list QuizItem;
  ss_answers : list (option str);
  ss_score : Z;
  ss_flashcard_count : Z;
  ss_quiz_count : Z;
  ss_flashcards_order : list nat;
  ss_quiz_epoch : Z
}.

(** [topic != ss.generated_topic or not ss.summary] *)
Definition summary_needed (topic : str) (ss : Session) : bool :=
  negb (match ss_generated_topic ss with
        | Some t => str_eqb topic t
        | None => false
        end)
  || negb (nonempty (ss_summary ss)).

(** The body of [if generate_button:] (lines 163 to 174): the requests
    sent, the session as it is left, and the exception that ended the run, if
    any.  An assignment to [ss] made before an exception stays. *)
Definition generate (topic : str) (flashcard_count quiz_count : Z)
    (ss : Session) (log : list request)
    : list request * Session * option error :=
  let '(log1, ss1, e1) :=
    if summary_needed topic ss then
      match generate_summary topic log with
      | (log1, Ok s) =>
          (log1,
           mkSession (Some topic) s (ss_flashcards ss) (ss_quiz ss)
             (ss_answers ss) (ss_score ss) (ss_flashcard_count ss)
             (ss_quiz_count ss) (ss_flashcards_order ss) (ss_quiz_epoch ss),
           None)
      | (log1, Raise e) => (log1, ss, Some e)
      end
    else (log, ss, None) in
  match e1 with
  | Some e => (log1, ss1, Some e)
  | None =>
      match generate_flashcards topic flashcard_count
              (Some (ss_summary ss1)) log1 with
      | (log2, Raise e) => (log2, ss1, Some e)
      | (log2, Ok cards) =>
          let ss2 :=
            mkSession (ss_generated_topic ss1) (ss_summary ss1) cards
              (ss_quiz ss1) (ss_answers ss1) (ss_score ss1)
              (ss_flashcard_count ss1) (ss_quiz_count ss1)
              (ss_flashcards_order ss1) (ss_quiz_epoch ss1) in
          match generate_quiz topic quiz_count (Some (ss_summary ss2))
                  log2 with
          | (log3, Raise e) => (log3, ss2, Some e)
          | (log3, Ok quiz) =>
              (log3,
               mkSession (ss_generated_topic ss2) (ss_summary ss2)
                 (ss_flashcards ss2) quiz
                 (repeat None (length quiz)) (ss_score ss2)
                 flashcard_count quiz_count
                 (seq 0 (length (ss_flashcards ss2)))
                 (ss_quiz_epoch ss2 + 1)%Z,
               None)
          end
      end
  end.

End Api.

Arguments Ok {exn A} a.
Arguments Raise {exn A} e.
Arguments RuntimeError {exn} msg.
Arguments ApiError {exn} e.

End Calls.

(** ** Sample clients and a sample session, for the examples *)
Module Samples.

(** A client that answers the first request and raises on the second. *)
Definition once (log : list Calls.request) (c : unit) (rq : Calls.request)
    : str + str :=
  match log with
  | [] => inr (lit " <p>Halve the range.</p> ")
  | _ :: _ => inl (lit "rate limit")
  end.

(** A client that answers every request with two cards and two items. *)
Definition always (log : list Calls.request) (c : unit) (rq : Calls.request)
    : str + str :=
  inr (lit "Q: a" ++ nl ++ lit "A: 1" ++ nl ++ lit "Options: A) 1 B) 2" ++ nl
       ++ lit "Answer: 1" ++ nl ++ lit "Q: b" ++ nl ++ lit "A: 2" ++ nl
       ++ lit "Answer: 2").

Definition old_session : Calls.Session :=
  Calls.mkSession (Some (lit "Sorting")) (lit "<p>Old.</p>")
    [mkFlashcard (lit "q") (lit "a")] [] [] 0 10 10 [0%nat] 4.

End Samples.
Import Samples.

(** ** The options of an [Options:] line, read in one pass *)
Module OptionsReading.

(** What introduces a piece of the text of an [Options:] line: the start of
    the text, a [|], or one of the markers [A)], [B)], [C)], [D)]. *)
Inductive opener :=
| Start
| Bar
| Marker (letter : char).

(** One of the letters [A], [B], [C], [D]. *)
Definition marker_letter (c : char) : bool := ((65 <=? c) && (c <=? 68))%N.

(** The text cut at every marker and at every [|], which are left out: the
    first piece, and the later pieces, each with what introduced it. *)
Fixpoint cut (s : str) : str * list (opener * str) :=
  match s with
  | [] => ([], [])
  | c :: s' =>
      if (c =? 124)%N then
        let '(p, r) := cut s' in ([], (Bar, p) :: r)
      else
        match s' with
        | d :: s'' =>
            if marker_letter c && (d =? 41)%N then
              let '(p, r) := cut s'' in ([], (Marker c, p) :: r)
            else
              let '(p, r) := cut s' in (c :: p, r)
        | [] => ([c], [])
        end
  end.

(** A text whose second character is a closing parenthesis loses its first
    two characters and the whitespace behind them. *)
Definition unlabel (t : str) : str :=
  match t with
  | _ :: d :: r => if (d =? 41)%N then strip r else t
  | _ => t
  end.

(** The option strings that a piece gives: a piece behind a marker gives its
    text with the surrounding whitespace removed, also when nothing is left;
    another piece gives nothing when it is empty, and otherwise its text
    with the surrounding whitespace removed, [unlabel]led. *)
Definition piece_options (p : opener * str) : list str :=
  match p with
  | (Marker _, t) => [strip t]
  | (_, t) => if nonempty t then [unlabel (strip t)] else []
  end.

(** The option strings of a stripped line that starts with [Options:]. *)
Definition line_options (line : str) : list str :=
  let '(p, r) := cut (strip (skipn 8 line)) in
  flat_map piece_options ((Start, p) :: r).

(** A line that the quiz parser passes over: once stripped it starts with
    none of [Q:], [Options:] and [Answer:]. *)
Definition other_line (raw_line : str) : bool :=
  negb (startswith (lit "Q:") (strip raw_line))
  && negb (startswith (lit "Options:") (strip raw_line))
  && negb (startswith (lit "Answer:") (strip raw_line)).

(** *** The steps of the parser, named for the proofs *)

(** The text of an [Options:] line after the four replacements of the
    parser. *)
Definition barred (s : str) : str :=
  replace (lit "D)") (lit "|D)")
    (replace (lit "C)") (lit "|C)")
      (replace (lit "B)") (lit "|B)")
        (replace (lit "A)") (lit "|A)") s))).

(** The token that the parser gets for a piece: behind a marker the piece
    still carries it. *)
Definition piece_token (p : opener * str) : str :=
  match p with
  | (Marker c, t) => c :: 41%N :: t
  | (_, t) => t
  end.

(** What the parser makes of one token (the body of its second loop). *)
Definition clean (t : str) : str :=
  let t := strip t in
  if (2 <=? length t)%nat && (nth 1 t 0 =? 41)%N
  then strip (skipn 2 t)
  else t.

End OptionsReading.
Import OptionsReading.


(** ** Reading a graph text back: the part of the DOT language that the
       diagram builder writes *)
Module Dot.

(** The tokens: an unquoted identifier or number with its text, a quoted
    string, one of the signs [{ } [ ] = , ;], and the arrow [->]. *)
Inductive token :=
| TId (name : str)
| TStr
| TSym (c : char)
| TArrow.

(** Where the scanner is: between tokens, inside an identifier, inside a
    quoted string, behind a backslash inside a quoted string, behind a [-],
    or stopped at a character that fits nowhere. *)
Inductive mode := Out | InId | InStr | InEsc | Dash | Bad.

(** The state of the scanner; the tokens are kept latest first. *)
Record scanner := mkScanner { sc_mode : mode; sc_toks : list token }.

(** Letters, digits, [_] and [.]. *)
Definition id_char (c : char) : bool :=
  (((65 <=? c) && (c <=? 90)) || ((97 <=? c) && (c <=? 122))
   || ((48 <=? c) && (c <=? 57)) || (c =? 95) || (c =? 46))%N.

(** The signs [{ } [ ] = , ;]. *)
Definition sym_char (c : char) : bool :=
  ((c =? 123) || (c =? 125) || (c =? 91) || (c =? 93) || (c =? 61)
   || (c =? 44) || (c =? 59))%N.

(** Space, tab, line feed and carriage return. *)
Definition blank (c : char) : bool :=
  ((c =? 32) || (c =? 9) || (c =? 10) || (c =? 13))%N.

(** A character met outside of a token. *)
Definition outside (ts : list token) (c : char) : scanner :=
  if id_char c then mkScanner InId (TId [c] :: ts)
  else if (c =? 34)%N then mkScanner InStr (TStr :: ts)
  else if sym_char c then mkScanner Out (TSym c :: ts)
  else if (c =? 45)%N then mkScanner Dash ts
  else if blank c then mkScanner Out ts
  else mkScanner Bad ts.

(** One character.  Inside a quoted string a double quote ends the string
    and a backslash takes the next character with it, whatever it is. *)
Definition scan_step (st : scanner) (c : char) : scanner :=
  let ts := sc_toks st in
  match sc_mode st with
  | Bad => st
  | InStr =>
      if (c =? 34)%N then mkScanner Out ts
      else if (c =? 92)%N then mkScanner InEsc ts
      else st
  | InEsc => mkScanner InStr ts
  | Dash => if (c =? 62)%N then mkScanner Out (TArrow :: ts)
            else mkScanner Bad ts
  | InId =>
      if id_char c then
        match ts with
        | TId name :: ts' => mkScanner InId (TId (name ++ [c]) :: ts')
        | _ => mkScanner Bad ts
        end
      else outside ts c
  | Out => outside ts c
  end.

Definition scan (st : scanner) (s : str) : scanner := fold_left scan_step s st.

(** The tokens of a text; none when a string is left open or a character
    fits nowhere. *)
Definition tokens (s : str) : option (list token) :=
  let st := scan (mkScanner Out []) s in
  match sc_mode st with
  | Out | InId => Some (rev (sc_toks st))
  | _ => None
  end.

(** A graph: its node statements and its edge statements, in order. *)
Record graph := mkGraph {
  g_nodes : list str;
  g_edges : list (str * str)
}.

(** Where the reader is in [digraph NAME { statement ... }], a statement
    being [NAME [attributes];], [NAME -> NAME [attributes];] (the attributes
    are optional in both) or [graph [attributes];] (also [node], [edge]),
    and the attributes [KEY=VALUE, ..., KEY=VALUE]. *)
Inductive place :=
| AtStart
| AtName
| AtOpen
| AtStatement
| AfterId (name : str)
| AfterArrow (name : str)
| AfterEdge
| AtFirstKey
| AtKey
| AtEquals
| AtValue
| AfterValue
| AtSemicolon
| AtEnd
| Lost.

(** The words that start a statement of defaults. *)
Definition is_keyword (name : str) : bool :=
  str_eqb name (lit "graph") || str_eqb name (lit "node")
  || str_eqb name (lit "edge").

Definition add_node (name : str) (g : graph) : graph :=
  mkGraph (g_nodes g ++ [name]) (g_edges g).

Definition add_edge (a b : str) (g : graph) : graph :=
  mkGraph (g_nodes g) (g_edges g ++ [(a, b)]).

(** One token.  The signs are matched by their codes: 123 and 125 are the
    braces, 91 and 93 the brackets, 61 is [=], 44 the comma and 59 the
    semicolon. *)
Definition read_step (st : place * graph) (t : token) : place * graph :=
  let '(p, g) := st in
  match p, t with
  | AtStart, TId name =>
      if str_eqb name (lit "digraph") then (AtName, g) else (Lost, g)
  | AtName, TId _ => (AtOpen, g)
  | AtOpen, TSym 123%N => (AtStatement, g)
  | AtStatement, TId name => (AfterId name, g)
  | AtStatement, TSym 125%N => (AtEnd, g)
  | AfterId name, TSym 91%N =>
      (AtFirstKey, if is_keyword name then g else add_node name g)
  | AfterId name, TSym 59%N =>
      if is_keyword name then (Lost, g) else (AtStatement, add_node name g)
  | AfterId name, TArrow =>
      if is_keyword name then (Lost, g) else (AfterArrow name, g)
  | AfterArrow a, TId b =>
      if is_keyword b then (Lost, g) else (AfterEdge, add_edge a b g)
  | AfterEdge, TSym 91%N => (AtFirstKey, g)
  | AfterEdge, TSym 59%N => (AtStatement, g)
  | AtFirstKey, TId _ => (AtEquals, g)
  | AtFirstKey, TSym 93%N => (AtSemicolon, g)
  | AtKey, TId _ => (AtEquals, g)
  | AtEquals, TSym 61%N => (AtValue, g)
  | AtValue, TId _ => (AfterValue, g)
  | AtValue, TStr => (AfterValue, g)
  | AfterValue, TSym 44%N => (AtKey, g)
  | AfterValue, TSym 93%N => (AtSemicolon, g)
  | AtSemicolon, TSym 59%N => (AtStatement, g)
  | _, _ => (Lost, g)
  end.

(** The graph that a text describes; none when the text is not of the form
    above. *)
Definition read_graph (s : str) : option graph :=
  match tokens s with
  | Some ts =>
      match fold_left read_step ts (AtStart, mkGraph [] []) with
      | (AtEnd, g) => Some g
      | _ => None
      end
  | None => None
  end.

(** A text that can stand between double quotes as it is: it holds no double
    quote and no backslash. *)
Definition quotable (s : str) : bool :=
  forallb (fun c => negb (c =? 34)%N && negb (c =? 92)%N) s.

(** [s] between double quotes. *)
Definition quoted (s : str) : str := dq ++ s ++ dq.

End Dot.
Import Dot.


(** ** Texts as trees of concatenations, to scan them piece by piece *)
Module Pieces.

(** A text written as a tree of concatenations; a leaf is marked when it is
    a label of the diagram. *)
Inductive text :=
| Piece (label : bool) (s : str)
| Cat (a b : text).

Fixpoint denote (t : text) : str :=
  match t with
  | Piece _ s => s
  | Cat a b => denote a ++ denote b
  end.

(** The leaves from left to right, in front of [tail]. *)
Fixpoint pieces (t : text) (tail : list (bool * str)) : list (bool * str) :=
  match t with
  | Piece l s => (l, s) :: tail
  | Cat a b => pieces a (pieces b tail)
  end.

(** Neighbours that are no labels are put together. *)
Fixpoint merge (ps : list (bool * str)) : list (bool * str) :=
  match ps with
  | [] => []
  | (true, s) :: rest => (true, s) :: merge rest
  | (false, s) :: rest =>
      match merge rest with
      | (false, s') :: rest' => (false, s ++ s') :: rest'
      | m => (false, s) :: m
      end
  end.

(** Scanning the pieces one after the other. *)
Definition scan_all (st : scanner) (ps : list (bool * str)) : scanner :=
  fold_left (fun st p => scan st (snd p)) ps st.

End Pieces.
Import Pieces.

(** ** Facts about the string primitives *)

#[local] Arguments N.eqb : simpl nomatch.
#[local] Arguments N.leb : simpl nomatch.
#[local] Arguments Z.geb : simpl nomatch.
#[local] Arguments Z.gtb : simpl nomatch.
#[local] Arguments Z.leb : simpl nomatch.
#[local] Arguments Z.add : simpl nomatch.
#[local] Arguments Z.of_nat : simpl nomatch.
#[local] Arguments strip : simpl never.
#[local] Arguments is_q_line : simpl never.
#[local] Arguments is_a_line : simpl never.
#[local] Arguments field : simpl never.

Section StripFacts.

Lemma lstrip_length (s : str) : (length (lstrip s) <= length s)%nat.
Proof.
  induction s as [|c s IH]; simpl; [lia|].
  destruct (isspace c); simpl; lia.
Qed.

Lemma rstrip_length (s : str) : (length (rstrip s) <= length s)%nat.
Proof.
  induction s as [|c s IH]; simpl; [lia|].
  destruct (rstrip s); [destruct (isspace c)|]; simpl in *; lia.
Qed.

Lemma strip_length (s : str) : (length (strip s) <= length s)%nat.
Proof.
  unfold strip. pose proof (rstrip_length (lstrip s)).
  pose proof (lstrip_length s). lia.
Qed.

Lemma lstrip_In (s : str) (c : char) : In c (lstrip s) -> In c s.
Proof.
  induction s as [|d s IH]; simpl; [tauto|].
  destruct (isspace d); simpl; tauto.
Qed.

Lemma rstrip_In (s : str) (c : char) : In c (rstrip s) -> In c s.
Proof.
  induction s as [|d s IH]; simpl; [tauto|].
  destruct (rstrip s) as [|e r].
  - destruct (isspace d); simpl; tauto.
  - intros [H|H]; [now left | right; apply IH, H].
Qed.

Lemma strip_In (s : str) (c : char) : In c (strip s) -> In c s.
Proof. intros H. apply lstrip_In, rstrip_In, H. Qed.

Lemma lstrip_space_cons (c : char) (s : str) :
  isspace c = true -> lstrip (c :: s) = lstrip s.
Proof. intros H. simpl. now rewrite H. Qed.

Lemma lstrip_nonspace_cons (c : char) (s : str) :
  isspace c = false -> lstrip (c :: s) = c :: s.
Proof. intros H. simpl. now rewrite H. Qed.

Lemma lstrip_idem (s : str) : lstrip (lstrip s) = lstrip s.
Proof.
  induction s as [|c s IH]; simpl; [reflexivity|].
  destruct (isspace c) eqn:E; [exact IH|]. simpl. now rewrite E.
Qed.

Lemma rstrip_idem (s : str) : rstrip (rstrip s) = rstrip s.
Proof.
  induction s as [|c s IH]; simpl; [reflexivity|].
  destruct (rstrip s) as [|e r] eqn:E.
  - destruct (isspace c) eqn:Ec; simpl; [reflexivity|]. now rewrite Ec.
  - change (rstrip (c :: e :: r)) with
      (match rstrip (e :: r) with
       | [] => if isspace c then [] else [c]
       | x :: l => c :: x :: l
       end).
    now rewrite IH.
Qed.

Lemma lstrip_rstrip (s : str) : lstrip (rstrip s) = rstrip (lstrip s).
Proof.
  induction s as [|c s IH]; [reflexivity|].
  destruct (isspace c) eqn:Ec.
  - rewrite (lstrip_space_cons _ _ Ec), <- IH. simpl.
    destruct (rstrip s) as [|e r]; [now rewrite Ec|].
    now rewrite (lstrip_space_cons _ _ Ec).
  - rewrite (lstrip_nonspace_cons _ _ Ec). simpl.
    destruct (rstrip s) as [|e r]; [rewrite Ec|];
      now rewrite (lstrip_nonspace_cons _ _ Ec).
Qed.

Lemma strip_idem (s : str) : strip (strip s) = strip s.
Proof.
  unfold strip.
  now rewrite lstrip_rstrip, lstrip_idem, rstrip_idem.
Qed.

Lemma lstrip_all_space (s : str) : forallb isspace s = true -> lstrip s = [].
Proof.
  induction s as [|c s IH]; simpl; [reflexivity|].
  destruct (isspace c); simpl; [exact IH | discriminate].
Qed.

Lemma strip_all_space (s : str) : forallb isspace s = true -> strip s = [].
Proof. intros H. unfold strip. now rewrite lstrip_all_space. Qed.

(** A text that [strip] leaves alone and that is not empty neither starts
    nor ends with whitespace. *)
Lemma strip_fixed_lstrip (s : str) : strip s = s -> lstrip s = s.
Proof.
  intros H. destruct s as [|c s]; [reflexivity|].
  destruct (isspace c) eqn:Ec; [|now apply lstrip_nonspace_cons].
  exfalso. pose proof (strip_length s) as Hl.
  assert (strip (c :: s) = strip s) as E
    by (unfold strip; now rewrite lstrip_space_cons).
  rewrite E in H. rewrite H in Hl. simpl in Hl. lia.
Qed.

Lemma strip_fixed_rstrip (s : str) : strip s = s -> rstrip s = s.
Proof.
  intros H. pose proof (strip_fixed_lstrip _ H) as Hl.
  unfold strip in H. now rewrite Hl in H.
Qed.

Lemma rstrip_app_fixed (a b : str) :
  b <> [] -> rstrip b = b -> rstrip (a ++ b) = a ++ b.
Proof.
  intros Hb Hr. induction a as [|c a IH]; simpl; [exact Hr|].
  rewrite IH. destruct (a ++ b) eqn:E; [|reflexivity].
  apply app_eq_nil in E. tauto.
Qed.

Lemma rstrip_app_space (a b : str) :
  forallb isspace b = true -> rstrip (a ++ b) = rstrip a.
Proof.
  intros Hb.
  assert (rstrip b = []) as Hr.
  { clear a. induction b as [|c b IH]; simpl in *; [reflexivity|].
    apply andb_true_iff in Hb as [Hc Hb]. now rewrite IH, Hc. }
  induction a as [|c a IH]; simpl; [exact Hr|]. now rewrite IH.
Qed.

End StripFacts.

(** ** The flashcard parser *)
Section FlashcardFacts.

Lemma take_all {A} (n : Z) (l : list A) : (len l <= n)%Z -> take n l = l.
Proof.
  intros H. unfold take, len in *.
  destruct (0 <=? n)%Z eqn:E; [|lia].
  apply firstn_all2. lia.
Qed.

Lemma firstn_incl {A} (k : nat) (l : list A) (x : A) :
  In x (firstn k l) -> In x l.
Proof.
  revert l. induction k as [|k IH]; intros [|y l]; simpl; try tauto.
  intros [H|H]; [now left | right; now apply IH].
Qed.

Lemma take_In {A} (n : Z) (l : list A) (x : A) : In x (take n l) -> In x l.
Proof.
  unfold take. destruct (0 <=? n)%Z; apply firstn_incl.
Qed.

Lemma len_app {A} (a b : list A) : len (a ++ b) = (len a + len b)%Z.
Proof. unfold len. rewrite length_app. lia. Qed.

Lemma a_line_not_q (l : str) : is_a_line l = true -> is_q_line l = false.
Proof.
  unfold is_a_line, is_q_line. destruct (strip l) as [|c s]; simpl; [easy|].
  destruct (N.eqb_spec 65 c) as [<-|]; [reflexivity | discriminate].
Qed.

Lemma flashcards_loop_cons (n : Z) (l : str) (lines : list str)
    (cards : list Flashcard) (question : option str) :
  flashcards_loop n (l :: lines) cards question
  = let '(cards', question') :=
      if is_q_line l then (cards, Some (field l))
      else if is_a_line l && truthy question then
        match question with
        | Some q => (cards ++ [mkFlashcard q (field l)], None)
        | None => (cards, question)
        end
      else (cards, question) in
    if (len cards' >=? n)%Z then cards'
    else flashcards_loop n lines cards' question'.
Proof. reflexivity. Qed.

(** As long as the requested count is not exceeded, the loop of
    [generate_flashcards] appends the cards that [cards_of] describes. *)
Lemma flashcards_loop_cards_of (n : Z) (lines : list str) :
  forall cards question,
    (len cards + len (cards_of question lines) <= n)%Z ->
    flashcards_loop n lines cards question
    = cards ++ cards_of question lines.
Proof.
  induction lines as [|l lines IH]; intros cards question Hn.
  - simpl. now rewrite app_nil_r.
  - rewrite flashcards_loop_cons. simpl in Hn |- *.
    destruct (is_q_line l).
    + destruct (len cards >=? n)%Z eqn:E; [|now apply IH].
      assert (cards_of (Some (field l)) lines = []) as ->
        by (apply length_zero_iff_nil; unfold len in *; lia).
      now rewrite app_nil_r.
    + destruct (is_a_line l && truthy question) eqn:Ea.
      * destruct question as [q|]; [|now rewrite andb_false_r in Ea].
        destruct (len (cards ++ [mkFlashcard q (field l)]) >=? n)%Z eqn:E.
        -- assert (cards_of None lines = []) as ->
             by (apply length_zero_iff_nil; rewrite len_app in E;
                 unfold len in *; simpl in *; lia).
           reflexivity.
        -- rewrite IH, <- app_assoc; [reflexivity|].
           rewrite len_app. unfold len in *. simpl in *. lia.
      * destruct (len cards >=? n)%Z eqn:E; [|now apply IH].
        assert (cards_of question lines = []) as ->
          by (apply length_zero_iff_nil; unfold len in *; lia).
        now rewrite app_nil_r.
Qed.

Lemma generate_flashcards_cards_of (text : str) (n : Z) :
  (len (cards_of None (splitlines text)) <= n)%Z ->
  generate_flashcards text n = cards_of None (splitlines text).
Proof.
  intros Hn. unfold generate_flashcards.
  rewrite flashcards_loop_cards_of by (unfold len in *; simpl; lia).
  simpl. now apply take_all.
Qed.

(** Lines that are neither questions nor answers do not matter. *)
Lemma cards_of_qa_lines (lines : list str) :
  forall question, cards_of question (qa_lines lines) = cards_of question lines.
Proof.
  induction lines as [|l lines IH]; intros question; simpl; [reflexivity|].
  destruct (is_q_line l) eqn:Eq; simpl.
  - rewrite Eq. apply IH.
  - destruct (is_a_line l) eqn:Ea; simpl.
    + rewrite Eq, Ea. simpl. destruct question as [q|]; simpl.
      * destruct (nonempty q); [now rewrite IH | apply IH].
      * apply IH.
    + apply IH.
Qed.

Lemma list_pair_ind {A} (P : list A -> Prop) :
  P [] -> (forall x, P [x]) -> (forall x y l, P l -> P (x :: y :: l)) ->
  forall l, P l.
Proof.
  intros H0 H1 H2.
  assert (forall l, P l /\ forall x, P (x :: l)) as H.
  { induction l as [|y l [IHa IHb]]; split; auto. }
  intros l. apply H.
Qed.

(** A run of well-formed blocks in front yields its cards, whatever follows. *)
Lemma cards_of_blocks_app (front rest : list str) :
  forall cards,
    blocks front = Some cards -> questions_nonblank cards = true ->
    cards_of None (front ++ rest) = cards ++ cards_of None rest.
Proof.
  induction front as [|lq|lq la front IH] using list_pair_ind;
    intros cards Hb Hq; simpl in Hb.
  - now injection Hb as <-.
  - discriminate.
  - destruct (is_q_line lq) eqn:Eq; [|discriminate].
    destruct (is_a_line la) eqn:Ea; [|discriminate]. simpl in Hb.
    destruct (blocks front) as [cards'|]; [|discriminate].
    injection Hb as <-. simpl in Hq. apply andb_true_iff in Hq as [Hq1 Hq2].
    simpl. rewrite Eq, (a_line_not_q _ Ea), Ea. simpl. rewrite Hq1.
    f_equal. now apply IH.
Qed.

(** A pending question is forgotten when the next block starts. *)
Lemma cards_of_pending_forgotten (back : list str) (cards : list Flashcard)
    (question : option str) :
  blocks back = Some cards ->
  cards_of question back = cards_of None back.
Proof.
  destruct back as [|lq [|la back]]; simpl; try easy.
  destruct (is_q_line lq); [reflexivity | discriminate].
Qed.

Lemma blocks_count_q (ls : list str) :
  forall cards, blocks ls = Some cards -> count_q_lines ls = length cards.
Proof.
  unfold count_q_lines.
  induction ls as [|lq|lq la ls IH] using list_pair_ind;
    intros cards Hb; simpl in Hb.
  - now injection Hb as <-.
  - discriminate.
  - destruct (is_q_line lq) eqn:Eq; [|discriminate].
    destruct (is_a_line la) eqn:Ea; [|discriminate]. simpl in Hb.
    destruct (blocks ls) as [cards'|]; [|discriminate].
    injection Hb as <-. simpl. rewrite Eq, (a_line_not_q _ Ea). simpl.
    f_equal. now apply IH.
Qed.

Lemma count_q_qa_lines (lines : list str) :
  count_q_lines (qa_lines lines) = count_q_lines lines.
Proof.
  unfold count_q_lines, qa_lines.
  induction lines as [|l lines IH]; simpl; [reflexivity|].
  destruct (is_q_line l) eqn:Eq; simpl; [rewrite Eq; simpl; now f_equal|].
  destruct (is_a_line l); simpl; [now rewrite Eq|exact IH].
Qed.

(** C1, as stated, fails on a reply whose [Q:] line carries no text: the
    reply below is one [Q:] line followed by one [A:] line, yet no card is
    returned, because the guard [and question] of the [A:] branch rejects an
    empty pending question. *)
Lemma flashcards_blank_question_counterexample :
  let text := lit "Q:" ++ nl ++ lit "A: x" in
  let cards := [mkFlashcard [] (lit "x")] in
  blocks (qa_lines (splitlines text)) = Some cards
  /\ length cards = 1%nat
  /\ generate_flashcards text 1 = []
  /\ generate_flashcards text 1 <> cards.
Proof. vm_compute. repeat split; discriminate. Qed.

(** C1 (amended): for every reply whose [Q:] and [A:] lines alternate in
    exactly [n] blocks, each [Q:] line carrying a non-blank question, the
    flashcard parser asked for [n] cards returns exactly the [n] pairs of the
    blocks, in source order, each field with its prefix removed and its
    surrounding whitespace trimmed. *)
Theorem flashcards_of_wellformed_reply (text : str) (n : nat)
    (cards : list Flashcard) :
  blocks (qa_lines (splitlines text)) = Some cards ->
  length cards = n ->
  questions_nonblank cards = true ->
  generate_flashcards text (Z.of_nat n) = cards
  /\ length (generate_flashcards text (Z.of_nat n)) = n.
Proof.
  intros Hb Hn Hq.
  assert (cards_of None (splitlines text) = cards) as Hc.
  { rewrite <- cards_of_qa_lines.
    rewrite <- (app_nil_r (qa_lines (splitlines text))).
    rewrite (cards_of_blocks_app _ [] cards Hb Hq). apply app_nil_r. }
  assert (generate_flashcards text (Z.of_nat n) = cards) as ->.
  { rewrite generate_flashcards_cards_of; rewrite Hc; [reflexivity|].
    unfold len. lia. }
  now split.
Qed.

Lemma flashcards_of_wellformed_reply_witness :
  let text :=
    lit "Q: What is 2+2?" ++ nl ++ lit "A: 4" ++ nl ++ nl
    ++ lit "  Q:  Capital of France? " ++ nl ++ lit "A:Paris" in
  let cards :=
    [ mkFlashcard (lit "What is 2+2?") (lit "4");
      mkFlashcard (lit "Capital of France?") (lit "Paris") ] in
  blocks (qa_lines (splitlines text)) = Some cards
  /\ generate_flashcards text 2 = cards
  /\ length (generate_flashcards text 2) = 2%nat.
Proof.
  intros text cards.
  assert (blocks (qa_lines (splitlines text)) = Some cards) as Hb
    by (vm_compute; reflexivity).
  split; [exact Hb|].
  apply (flashcards_of_wellformed_reply text 2 cards Hb);
    vm_compute; reflexivity.
Defined.

(** C5: in a reply made of well-formed blocks plus one [Q:] line that has no
    [A:] line before the next [Q:] line or the end of the text, that question
    yields no card: the parser returns the cards of the blocks only, one
    fewer than the number of [Q:] lines. *)
Theorem unanswered_question_dropped (text : str) (n : Z)
    (front back : list str) (lq : str) (cards1 cards2 : list Flashcard) :
  qa_lines (splitlines text) = front ++ lq :: back ->
  is_q_line lq = true ->
  blocks front = Some cards1 ->
  blocks back = Some cards2 ->
  questions_nonblank cards1 = true ->
  questions_nonblank cards2 = true ->
  (len (cards1 ++ cards2) <= n)%Z ->
  generate_flashcards text n = cards1 ++ cards2
  /\ S (length (generate_flashcards text n)) = count_q_lines (splitlines text).
Proof.
  intros Hl Hq Hb1 Hb2 Hq1 Hq2 Hn.
  assert (cards_of None (splitlines text) = cards1 ++ cards2) as Hc.
  { rewrite <- cards_of_qa_lines, Hl.
    rewrite (cards_of_blocks_app _ _ cards1 Hb1 Hq1). f_equal.
    simpl. rewrite Hq.
    rewrite (cards_of_pending_forgotten back cards2 _ Hb2).
    rewrite <- (app_nil_r back).
    rewrite (cards_of_blocks_app _ [] cards2 Hb2 Hq2). apply app_nil_r. }
  assert (generate_flashcards text n = cards1 ++ cards2) as ->
    by (rewrite generate_flashcards_cards_of; now rewrite Hc).
  split; [reflexivity|].
  rewrite <- count_q_qa_lines, Hl. unfold count_q_lines.
  rewrite filter_app, !length_app. simpl. rewrite Hq. simpl.
  pose proof (blocks_count_q front cards1 Hb1) as H1.
  pose proof (blocks_count_q back cards2 Hb2) as H2.
  unfold count_q_lines in H1, H2. lia.
Qed.

Lemma unanswered_question_dropped_witness :
  let text :=
    lit "Q: one" ++ nl ++ lit "A: 1" ++ nl ++ lit "Q: lost" ++ nl
    ++ lit "Q: two" ++ nl ++ lit "A: 2" in
  generate_flashcards text 3
  = [mkFlashcard (lit "one") (lit "1")] ++ [mkFlashcard (lit "two") (lit "2")]
  /\ S (length (generate_flashcards text 3)) = count_q_lines (splitlines text).
Proof.
  intros text.
  apply (unanswered_question_dropped text 3
           [lit "Q: one"; lit "A: 1"] [lit "Q: two"; lit "A: 2"]
           (lit "Q: lost"));
    vm_compute; first [reflexivity | discriminate].
Defined.

End FlashcardFacts.

(** ** The quiz parser and the scoring step *)
Section QuizFacts.

Lemma str_eqb_eq (a b : str) : str_eqb a b = true <-> a = b.
Proof.
  unfold str_eqb. destruct (list_eq_dec N.eq_dec a b); split; congruence.
Qed.

Lemma str_eqb_refl (a : str) : str_eqb a a = true.
Proof. now apply str_eqb_eq. Qed.

Lemma quiz_loop_cons (n : Z) (l : str) (lines : list str)
    (quizzes : list QuizItem) (question : option str) (options : list str) :
  quiz_loop n (l :: lines) quizzes question options
  = let line := strip l in
    let '(quizzes', question', options') :=
      if startswith (lit "Q:") line then
        (quizzes, Some (strip (skipn 2 line)), options)
      else if startswith (lit "Options:") line then
        (quizzes, question, parse_options line)
      else if startswith (lit "Answer:") line && truthy question then
        match question with
        | Some q =>
            (quizzes ++ [mkQuizItem q (firstn 4 options)
                           (strip (skipn (length (lit "Answer:")) line))],
             None, [])
        | None => (quizzes, question, options)
        end
      else (quizzes, question, options) in
    if (len quizzes' >=? n)%Z then quizzes'
    else quiz_loop n lines quizzes' question' options'.
Proof. reflexivity. Qed.

Lemma replace_go_through (a b : char) (new x rest : str) :
  nopair a b x = true -> startswith [b] rest = false ->
  replace_go [a; b] new 0 (x ++ rest) = x ++ replace_go [a; b] new 0 rest.
Proof.
  intros Hx Hr. induction x as [|c x IH]; [reflexivity|].
  change (replace_go [a; b] new 0 ((c :: x) ++ rest))
    with (if (a =? c)%N && startswith [b] (x ++ rest)
          then new ++ replace_go [a; b] new 1 (x ++ rest)
          else c :: replace_go [a; b] new 0 (x ++ rest)).
  assert ((a =? c)%N && startswith [b] (x ++ rest) = false) as ->.
  { destruct x as [|d x];
      [change ([] ++ rest) with rest; rewrite Hr; apply andb_false_r|].
    simpl in Hx |- *. apply andb_true_iff in Hx as [Hx _].
    rewrite (N.eqb_sym a c), (N.eqb_sym b d), andb_true_r.
    now apply negb_true_iff in Hx. }
  simpl. f_equal. apply IH.
  destruct x as [|d x]; [reflexivity|]. simpl in Hx.
  now apply andb_true_iff in Hx as [_ Hx].
Qed.

Lemma replace_go_clean (a b : char) (new x : str) :
  nopair a b x = true -> replace_go [a; b] new 0 x = x.
Proof.
  intros Hx. rewrite <- (app_nil_r x) at 1.
  rewrite replace_go_through by easy. simpl. apply app_nil_r.
Qed.

Lemma parse_options_replace (x y z w : str) :
  marker_free x = true -> marker_free y = true ->
  marker_free z = true -> marker_free w = true ->
  replace (lit "D)") (lit "|D)")
    (replace (lit "C)") (lit "|C)")
      (replace (lit "B)") (lit "|B)")
        (replace (lit "A)") (lit "|A)")
           (lit "A) " ++ x ++ lit " B) " ++ y ++ lit " C) " ++ z ++ lit " D) " ++ w))))
  = lit "|A) " ++ x ++ lit " |B) " ++ y ++ lit " |C) " ++ z ++ lit " |D) " ++ w.
Proof.
  unfold marker_free. intros Hx Hy Hz Hw.
  repeat match goal with
         | H : _ && _ = true |- _ => apply andb_true_iff in H as [H ?]
         end.
  unfold replace. change (lit "A)") with [65; 41]%N.
  change (lit "B)") with [66; 41]%N. change (lit "C)") with [67; 41]%N.
  change (lit "D)") with [68; 41]%N. simpl.
  repeat (rewrite replace_go_through by (assumption || reflexivity); simpl).
  rewrite (replace_go_clean 65%N 41%N _ w) by assumption.
  rewrite (replace_go_clean 66%N 41%N _ w) by assumption.
  rewrite (replace_go_clean 67%N 41%N _ w) by assumption.
  rewrite (replace_go_clean 68%N 41%N _ w) by assumption.
  reflexivity.
Qed.

Lemma split_bar_last (seg : str) :
  forallb (fun c => negb (c =? 124)%N) seg = true ->
  split [124%N] seg = [seg].
Proof.
  unfold split. induction seg as [|c seg IH]; intros H; [reflexivity|].
  simpl in H. apply andb_true_iff in H as [Hc Hs].
  apply negb_true_iff in Hc. simpl. rewrite (N.eqb_sym 124 c), Hc. simpl.
  now rewrite IH.
Qed.

Lemma split_bar_segment (seg rest : str) :
  forallb (fun c => negb (c =? 124)%N) seg = true ->
  split [124%N] (seg ++ 124%N :: rest) = seg :: split [124%N] rest.
Proof.
  unfold split. induction seg as [|c seg IH]; intros H.
  - simpl. now destruct rest.
  - simpl in H. apply andb_true_iff in H as [Hc Hs].
    apply negb_true_iff in Hc. simpl. rewrite (N.eqb_sym 124 c), Hc. simpl.
    now rewrite IH.
Qed.

Lemma trimmed_spec (s : str) :
  trimmed s = true -> s <> [] /\ lstrip s = s /\ rstrip s = s.
Proof.
  unfold trimmed. intros H. apply andb_true_iff in H as [Hn He].
  apply str_eqb_eq in He. repeat split.
  - now destruct s.
  - now apply strip_fixed_lstrip.
  - now apply strip_fixed_rstrip.
Qed.

Lemma strip_token (m : char) (x : str) (tail : str) :
  trimmed x = true -> isspace m = false -> forallb isspace tail = true ->
  strip (m :: 41%N :: 32%N :: x ++ tail) = m :: 41%N :: 32%N :: x.
Proof.
  intros Hx Hm Ht. apply trimmed_spec in Hx as (Hne & Hl & Hr).
  unfold strip. rewrite (lstrip_nonspace_cons _ _ Hm).
  change (m :: 41%N :: 32%N :: x ++ tail)
    with (([m; 41%N; 32%N] ++ x) ++ tail).
  rewrite <- app_assoc.
  rewrite (app_assoc [m; 41%N; 32%N] x tail).
  rewrite (rstrip_app_space _ _ Ht).
  now rewrite (rstrip_app_fixed _ _ Hne Hr).
Qed.

Lemma strip_space_trimmed (x : str) :
  trimmed x = true -> strip (32%N :: x) = x.
Proof.
  intros Hx. apply trimmed_spec in Hx as (Hne & Hl & Hr).
  unfold strip. rewrite lstrip_space_cons by reflexivity. now rewrite Hl.
Qed.

Lemma nobar_token (pre x tail : str) :
  forallb (fun c => negb (c =? 124)%N) pre = true ->
  forallb (fun c => negb (c =? 124)%N) x = true ->
  forallb (fun c => negb (c =? 124)%N) tail = true ->
  forallb (fun c => negb (c =? 124)%N) (pre ++ x ++ tail) = true.
Proof. intros H1 H2 H3. now rewrite !forallb_app, H1, H2, H3. Qed.

(** The options read from a line with the four markers. *)
Lemma parse_options_four (x y z w : str) :
  trimmed x = true -> trimmed y = true -> trimmed z = true ->
  trimmed w = true ->
  marker_free x = true -> marker_free y = true ->
  marker_free z = true -> marker_free w = true ->
  parse_options (options_line x y z w) = [x; y; z; w].
Proof.
  intros Tx Ty Tz Tw Mx My Mz Mw. unfold parse_options, options_line.
  assert (strip (skipn (length (lit "Options:"))
                   (lit "Options: A) " ++ x ++ lit " B) " ++ y ++ lit " C) "
                    ++ z ++ lit " D) " ++ w))
          = lit "A) " ++ x ++ lit " B) " ++ y ++ lit " C) " ++ z
            ++ lit " D) " ++ w) as ->.
  { set (r := x ++ lit " B) " ++ y ++ lit " C) " ++ z ++ lit " D) " ++ w).
    change (skipn _ _) with (32%N :: 65%N :: 41%N :: 32%N :: r).
    unfold strip.
    rewrite lstrip_space_cons, lstrip_nonspace_cons by reflexivity.
    change (65%N :: 41%N :: 32%N :: r) with (lit "A) " ++ r). subst r.
    rewrite !app_assoc. apply trimmed_spec in Tw as (Hne & _ & Hr).
    now apply rstrip_app_fixed. }
  rewrite (parse_options_replace x y z w Mx My Mz Mw).
  assert (lit "|A) " ++ x ++ lit " |B) " ++ y ++ lit " |C) " ++ z
          ++ lit " |D) " ++ w
          = [] ++ 124%N
            :: (lit "A) " ++ x ++ [32%N]) ++ 124%N
            :: (lit "B) " ++ y ++ [32%N]) ++ 124%N
            :: (lit "C) " ++ z ++ [32%N]) ++ 124%N
            :: (lit "D) " ++ w ++ [])) as ->.
  { simpl. rewrite <- !app_assoc, app_nil_r. reflexivity. }
  unfold marker_free in Mx, My, Mz, Mw.
  repeat match goal with
         | H : _ && _ = true |- _ => apply andb_true_iff in H as [H _]
         end.
  change (lit "|") with [124%N].
  rewrite !split_bar_segment, split_bar_last
    by (first [ reflexivity
              | apply nobar_token; [reflexivity | assumption | reflexivity] ]).
  simpl.
  rewrite !strip_token by (assumption || reflexivity). simpl.
  now rewrite !strip_space_trimmed by assumption.
Qed.


Lemma strip_prefixed (c : char) (pre x : str) :
  isspace c = false -> trimmed x = true ->
  strip (c :: pre ++ x) = c :: pre ++ x.
Proof.
  intros Hc Hx. apply trimmed_spec in Hx as (Hne & _ & Hr).
  unfold strip. rewrite (lstrip_nonspace_cons _ _ Hc).
  change (c :: pre ++ x) with ((c :: pre) ++ x).
  now apply rstrip_app_fixed.
Qed.

(** C2, as stated, fails for a block of exactly the shape it names when
    an option text itself holds one of the markers: [(DNA)] ends in [A)], so
    the first option is cut there and the item carries other options than
    the four of the line. *)
Lemma quiz_block_marker_in_option_counterexample :
  let q := lit "Which molecule stores the genes?" in
  let x := lit "deoxyribonucleic acid (DNA)" in
  let y := lit "RNA" in
  let z := lit "ATP" in
  let w := lit "NADH" in
  let text :=
    lit "Q: " ++ q ++ nl ++ options_line x y z w ++ nl ++ lit "Answer: " ++ y in
  splitlines text
  = [lit "Q: " ++ q; options_line x y z w; lit "Answer: " ++ y]
  /\ generate_quiz text 1
     = [mkQuizItem q [lit "deoxyribonucleic acid (DN"; []; lit "RNA"; lit "ATP"]
          y]
  /\ generate_quiz text 1 <> [mkQuizItem q [x; y; z; w] y].
Proof.
  repeat split; try (vm_compute; reflexivity).
  vm_compute. discriminate.
Qed.

(** C2 (amended): for a reply made of the three lines [Q: q], [Options: A) x
    B) y C) z D) w] and [Answer: y], where [q], [x], [y], [z], [w] are not
    empty and have no whitespace at either end and the four option texts
    hold no [|] and none of the markers, the quiz parser yields the one item
    with question [q], options [x, y, z, w] and answer [y]; that item is
    scored [Correct] against the choice [y] and [Wrong] against any of its
    options that differs from [y]. *)
Theorem quiz_block_parsed_and_scored (text q x y z w : str) (n : Z) :
  splitlines text
  = [lit "Q: " ++ q; options_line x y z w; lit "Answer: " ++ y] ->
  (1 <= n)%Z ->
  trimmed q = true ->
  trimmed x = true -> trimmed y = true -> trimmed z = true ->
  trimmed w = true ->
  marker_free x = true -> marker_free y = true -> marker_free z = true ->
  marker_free w = true ->
  generate_quiz text n = [mkQuizItem q [x; y; z; w] y]
  /\ result (Some y) (qz_answer (mkQuizItem q [x; y; z; w] y)) = lit "Correct"
  /\ (forall o, In o (qz_options (mkQuizItem q [x; y; z; w] y)) -> o <> y ->
        result (Some o) (qz_answer (mkQuizItem q [x; y; z; w] y))
        = lit "Wrong").
Proof.
  intros Hl Hn Tq Tx Ty Tz Tw Mx My Mz Mw. split; [|split].
  - unfold generate_quiz. rewrite Hl.
    assert (strip (lit "Q: " ++ q) = lit "Q: " ++ q) as E1
      by (apply (strip_prefixed 81%N (lit ": ") q); [reflexivity | exact Tq]).
    assert (strip (options_line x y z w) = options_line x y z w) as E2.
    { apply trimmed_spec in Tw as (Hne & _ & Hr).
      unfold strip.
      assert (lstrip (options_line x y z w) = options_line x y z w) as ->
        by reflexivity.
      unfold options_line. rewrite !app_assoc.
      now apply rstrip_app_fixed. }
    assert (strip (lit "Answer: " ++ y) = lit "Answer: " ++ y) as E3
      by (apply (strip_prefixed 65%N (lit "nswer: ") y);
          [reflexivity | exact Ty]).
    assert ((len (@nil QuizItem) >=? n)%Z = false) as E0
      by (unfold len; simpl; lia).
    rewrite quiz_loop_cons. cbv zeta. rewrite E1.
    change (startswith (lit "Q:") (lit "Q: " ++ q)) with true. cbv iota beta.
    rewrite E0.
    change (skipn 2 (lit "Q: " ++ q)) with (32%N :: q).
    rewrite (strip_space_trimmed q Tq).
    rewrite quiz_loop_cons. cbv zeta. rewrite E2.
    change (startswith (lit "Q:") (options_line x y z w)) with false.
    change (startswith (lit "Options:") (options_line x y z w)) with true.
    cbv iota beta. rewrite E0.
    rewrite (parse_options_four x y z w Tx Ty Tz Tw Mx My Mz Mw).
    rewrite quiz_loop_cons. cbv zeta. rewrite E3.
    change (startswith (lit "Q:") (lit "Answer: " ++ y)) with false.
    change (startswith (lit "Options:") (lit "Answer: " ++ y)) with false.
    change (startswith (lit "Answer:") (lit "Answer: " ++ y)) with true.
    assert (truthy (Some q) = true) as ->
      by (apply andb_true_iff in Tq as [Tq _]; exact Tq).
    cbv iota beta.
    change (skipn (length (lit "Answer:")) (lit "Answer: " ++ y))
      with (32%N :: y).
    rewrite (strip_space_trimmed y Ty).
    change (firstn 4 [x; y; z; w]) with [x; y; z; w].
    change ([] ++ [mkQuizItem q [x; y; z; w] y])
      with [mkQuizItem q [x; y; z; w] y].
    cbn [andb quiz_loop].
    destruct (len [mkQuizItem q [x; y; z; w] y] >=? n)%Z;
      apply take_all; unfold len; simpl; lia.
  - unfold result. simpl. now rewrite str_eqb_refl.
  - intros o _ Hne. unfold result. simpl.
    destruct (str_eqb o y) eqn:E; [|reflexivity].
    apply str_eqb_eq in E. contradiction.
Qed.

Lemma quiz_block_parsed_and_scored_witness :
  let text :=
    lit "Q: Which search halves the range?" ++ nl
    ++ lit "Options: A) linear search B) binary search C) hashing D) sorting"
    ++ nl ++ lit "Answer: binary search" in
  generate_quiz text 1
  = [mkQuizItem (lit "Which search halves the range?")
       [lit "linear search"; lit "binary search"; lit "hashing"; lit "sorting"]
       (lit "binary search")].
Proof.
  intros text.
  apply (quiz_block_parsed_and_scored text
           (lit "Which search halves the range?")
           (lit "linear search") (lit "binary search") (lit "hashing")
           (lit "sorting") 1);
    first [ vm_compute; reflexivity | lia ].
Defined.

(** C3, as stated, fails on an [Options:] line with fewer than four markers:
    the item keeps the two options that were found. *)
Lemma quiz_two_options_counterexample :
  let text :=
    lit "Q: q" ++ nl ++ lit "Options: A) x B) y" ++ nl ++ lit "Answer: x" in
  generate_quiz text 1 = [mkQuizItem (lit "q") [lit "x"; lit "y"] (lit "x")]
  /\ (exists item, In item (generate_quiz text 1)
                   /\ length (qz_options item) <> 4%nat).
Proof.
  split; [vm_compute; reflexivity|].
  exists (mkQuizItem (lit "q") [lit "x"; lit "y"] (lit "x")).
  split; [vm_compute; now left | vm_compute; discriminate].
Qed.

(** One of the four replacements of the [Options:] branch. *)
Lemma insert_bar_marker (m : char) (s : str) :
  replace [m; 41%N] [124%N; m; 41%N] (m :: 41%N :: s)
  = 124%N :: m :: 41%N :: replace [m; 41%N] [124%N; m; 41%N] s.
Proof.
  unfold replace. cbn [replace_go startswith length Nat.sub app].
  now rewrite !N.eqb_refl.
Qed.

Lemma insert_bar_other (m c : char) (s : str) :
  (m =? c)%N && startswith [41%N] s = false ->
  replace [m; 41%N] [124%N; m; 41%N] (c :: s)
  = c :: replace [m; 41%N] [124%N; m; 41%N] s.
Proof.
  intros H. unfold replace. cbn [replace_go].
  change (startswith [m; 41%N] (c :: s))
    with ((m =? c)%N && startswith [41%N] s).
  now rewrite H.
Qed.

Lemma insert_bar_head (m : char) (s : str) :
  (41 =? m)%N = false ->
  startswith [41%N] (replace [m; 41%N] [124%N; m; 41%N] s)
  = startswith [41%N] s.
Proof.
  intros Hm. destruct s as [|c s]; [reflexivity|].
  destruct ((m =? c)%N && startswith [41%N] s) eqn:E.
  - apply andb_true_iff in E as [Ec Es]. apply N.eqb_eq in Ec. subst c.
    destruct s as [|d s]; [discriminate|].
    cbn [startswith] in Es. rewrite andb_true_r in Es.
    apply N.eqb_eq in Es. subst d.
    rewrite insert_bar_marker. cbn [startswith]. now rewrite Hm.
  - now rewrite (insert_bar_other _ _ _ E).
Qed.

Lemma barred_marker (c : char) (s : str) :
  marker_letter c = true ->
  barred (c :: 41%N :: s) = 124%N :: c :: 41%N :: barred s.
Proof.
  unfold marker_letter. intros H.
  assert (c = 65 \/ c = 66 \/ c = 67 \/ c = 68)%N as Hc.
  { apply andb_true_iff in H as [H1 H2].
    apply N.leb_le in H1, H2. lia. }
  unfold barred.
  change (lit "A)") with [65%N; 41%N]. change (lit "|A)") with [124%N; 65%N; 41%N].
  change (lit "B)") with [66%N; 41%N]. change (lit "|B)") with [124%N; 66%N; 41%N].
  change (lit "C)") with [67%N; 41%N]. change (lit "|C)") with [124%N; 67%N; 41%N].
  change (lit "D)") with [68%N; 41%N]. change (lit "|D)") with [124%N; 68%N; 41%N].
  destruct Hc as [-> | [-> | [-> | ->]]];
    repeat first [ rewrite insert_bar_marker
                 | rewrite insert_bar_other by reflexivity ];
    reflexivity.
Qed.

Lemma barred_other (c : char) (s : str) :
  marker_letter c && startswith [41%N] s = false ->
  barred (c :: s) = c :: barred s.
Proof.
  intros H. unfold barred.
  change (lit "A)") with [65%N; 41%N]. change (lit "|A)") with [124%N; 65%N; 41%N].
  change (lit "B)") with [66%N; 41%N]. change (lit "|B)") with [124%N; 66%N; 41%N].
  change (lit "C)") with [67%N; 41%N]. change (lit "|C)") with [124%N; 67%N; 41%N].
  change (lit "D)") with [68%N; 41%N]. change (lit "|D)") with [124%N; 68%N; 41%N].
  assert (forall m : char, marker_letter m = true -> forall t,
             startswith [41%N] t = startswith [41%N] s ->
             (m =? c)%N && startswith [41%N] t = false) as Hk.
  { intros m Hm t Ht. rewrite Ht.
    destruct (N.eqb_spec m c) as [->|]; [|reflexivity].
    rewrite Hm in H. exact H. }
  rewrite (insert_bar_other 65%N c s) by (apply Hk; reflexivity).
  rewrite (insert_bar_other 66%N c) by
    (apply Hk; [reflexivity | now rewrite insert_bar_head]).
  rewrite (insert_bar_other 67%N c) by
    (apply Hk; [reflexivity | now rewrite !insert_bar_head]).
  rewrite (insert_bar_other 68%N c) by
    (apply Hk; [reflexivity | now rewrite !insert_bar_head]).
  reflexivity.
Qed.

Lemma split_bar_cons_bar (s : str) :
  split [124%N] (124%N :: s) = [] :: split [124%N] s.
Proof. reflexivity. Qed.

Lemma split_bar_cons_other (c : char) (s : str) :
  (124 =? c)%N = false ->
  split [124%N] (c :: s)
  = match split [124%N] s with
    | [] => [[c]]
    | p :: ps => (c :: p) :: ps
    end.
Proof.
  intros H. unfold split. cbn [split_go startswith]. now rewrite H.
Qed.

(** Splitting the barred text gives the tokens of the pieces. *)
Lemma split_barred (s : str) :
  split [124%N] (barred s) = fst (cut s) :: map piece_token (snd (cut s)).
Proof.
  assert (forall k s, (length s <= k)%nat ->
            split [124%N] (barred s) = fst (cut s) :: map piece_token (snd (cut s)))
    as H; [|now apply (H (length s))].
  clear s. induction k as [|k IH]; intros s Hk.
  { destruct s; [reflexivity | simpl in Hk; lia]. }
  destruct s as [|c s]; [reflexivity|]. cbn [length] in Hk.
  cbn [cut]. destruct (N.eqb_spec c 124) as [->|Hc].
  - rewrite barred_other by reflexivity. rewrite split_bar_cons_bar.
    rewrite IH by lia. now destruct (cut s).
  - assert ((124 =? c)%N = false) as Hc'
      by (apply N.eqb_neq; congruence).
    destruct s as [|d s].
    + rewrite barred_other by apply andb_false_r.
      now rewrite split_bar_cons_other.
    + destruct (marker_letter c && (d =? 41)%N) eqn:E.
      * apply andb_true_iff in E as [Em Ed]. apply N.eqb_eq in Ed. subst d.
        rewrite (barred_marker c s Em). rewrite split_bar_cons_bar.
        rewrite split_bar_cons_other by exact Hc'.
        rewrite split_bar_cons_other by reflexivity.
        cbn [length] in Hk. rewrite IH by lia.
        now destruct (cut s).
      * rewrite barred_other
          by (cbn [startswith]; rewrite andb_true_r, N.eqb_sym; exact E).
        rewrite split_bar_cons_other by exact Hc'.
        rewrite IH by (cbn [length] in *; lia).
        now destruct (cut (d :: s)).
Qed.

Lemma clean_unlabel (t : str) : clean t = unlabel (strip t).
Proof.
  unfold clean, unlabel. destruct (strip t) as [|a [|d r]]; reflexivity.
Qed.

Lemma rstrip_nonspace_cons (c : char) (s : str) :
  isspace c = false -> rstrip (c :: s) = c :: rstrip s.
Proof. intros H. simpl. rewrite H. now destruct (rstrip s). Qed.

Lemma clean_marked (c : char) (t : str) :
  marker_letter c = true -> clean (c :: 41%N :: t) = strip t.
Proof.
  intros Hm.
  assert (isspace c = false) as Hc.
  { unfold marker_letter in Hm. apply andb_true_iff in Hm as [H1 H2].
    apply N.leb_le in H1, H2.
    assert (c = 65 \/ c = 66 \/ c = 67 \/ c = 68)%N as Hc by lia.
    destruct Hc as [-> | [-> | [-> | ->]]]; reflexivity. }
  unfold clean.
  assert (strip (c :: 41%N :: t) = c :: 41%N :: rstrip t) as ->.
  { unfold strip. rewrite (lstrip_nonspace_cons _ _ Hc).
    rewrite (rstrip_nonspace_cons _ _ Hc).
    now rewrite rstrip_nonspace_cons by reflexivity. }
  cbn [length nth skipn]. rewrite N.eqb_refl. cbn [Nat.leb andb].
  unfold strip. now rewrite lstrip_rstrip, rstrip_idem.
Qed.

Lemma cut_markers (s : str) :
  Forall (fun p => match fst p with
                   | Marker c => marker_letter c = true
                   | _ => True
                   end) (snd (cut s)).
Proof.
  assert (forall k s, (length s <= k)%nat ->
            Forall (fun p => match fst p with
                             | Marker c => marker_letter c = true
                             | _ => True
                             end) (snd (cut s)))
    as H; [|now apply (H (length s))].
  clear s. induction k as [|k IH]; intros s Hk.
  { destruct s; [constructor | simpl in Hk; lia]. }
  destruct s as [|c s]; [constructor|]. cbn [length] in Hk. cbn [cut].
  destruct (c =? 124)%N.
  - pose proof (IH s ltac:(lia)) as HF. destruct (cut s). now constructor.
  - destruct s as [|d s]; [constructor|].
    destruct (marker_letter c && (d =? 41)%N) eqn:E.
    + apply andb_true_iff in E as [Em _]. cbn [length] in Hk.
      pose proof (IH s ltac:(lia)) as HF. destruct (cut s).
      now constructor.
    + pose proof (IH (d :: s) ltac:(cbn [length] in *; lia)) as HF.
      now destruct (cut (d :: s)).
Qed.

(** The [Options:] branch reads the options of the line as [line_options]
    gives them. *)
Lemma parse_options_line_options (line : str) :
  parse_options line = line_options line.
Proof.
  unfold parse_options, line_options.
  change (length (lit "Options:")) with 8%nat.
  set (text := strip (skipn 8 line)).
  fold (barred text). change (lit "|") with [124%N].
  rewrite split_barred.
  pose proof (cut_markers text) as HF.
  destruct (cut text) as [p r]. cbn [fst snd] in *.
  fold clean.
  assert (forall ps : list (opener * str),
             Forall (fun p => match fst p with
                              | Marker c => marker_letter c = true
                              | _ => True
                              end) ps ->
             map clean (filter nonempty (map piece_token ps))
             = flat_map piece_options ps) as Hps.
  { induction 1 as [|[i t] ps Hi HF' IH]; [reflexivity|].
    cbn [map flat_map]. rewrite <- IH. destruct i as [| |c].
    - cbn [piece_token piece_options filter].
      destruct (nonempty t); [|reflexivity].
      cbn [map app]. now rewrite clean_unlabel.
    - cbn [piece_token piece_options filter].
      destruct (nonempty t); [|reflexivity].
      cbn [map app]. now rewrite clean_unlabel.
    - cbn [piece_token piece_options filter nonempty map app fst] in *.
      now rewrite (clean_marked c t Hi). }
  apply (Hps ((Start, p) :: r)). constructor; [exact I | exact HF].
Qed.


Lemma other_line_step (n : Z) (l : str) (lines : list str)
    (quizzes : list QuizItem) (question : option str) (options : list str) :
  other_line l = true -> (len quizzes < n)%Z ->
  quiz_loop n (l :: lines) quizzes question options
  = quiz_loop n lines quizzes question options.
Proof.
  unfold other_line. intros H Hn.
  apply andb_true_iff in H as [H H3]. apply andb_true_iff in H as [H1 H2].
  apply negb_true_iff in H1, H2, H3.
  rewrite quiz_loop_cons. cbv zeta. rewrite H1, H2, H3. cbn [andb].
  assert ((len quizzes >=? n)%Z = false) as -> by lia. reflexivity.
Qed.

(** An [Options:] line, lines that the parser passes over, and then an
    [Answer:] line, with a question pending: the item that is appended
    carries the first four options of the [Options:] line. *)
Lemma options_then_answer (n : Z) (raw_o raw_a : str)
    (between rest : list str) (quizzes : list QuizItem) (q : str)
    (options : list str) :
  startswith (lit "Options:") (strip raw_o) = true ->
  forallb other_line between = true ->
  startswith (lit "Answer:") (strip raw_a) = true ->
  nonempty q = true ->
  (len quizzes < n)%Z ->
  quiz_loop n (raw_o :: between ++ raw_a :: rest) quizzes (Some q) options
  = let item := mkQuizItem q (firstn 4 (line_options (strip raw_o)))
                  (strip (skipn 7 (strip raw_a))) in
    if (len quizzes + 1 >=? n)%Z then quizzes ++ [item]
    else quiz_loop n rest (quizzes ++ [item]) None [].
Proof.
  intros Ho Hb Ha Hq Hn.
  assert ((len quizzes >=? n)%Z = false) as E0 by lia.
  assert (startswith (lit "Q:") (strip raw_o) = false) as Hoq.
  { destruct (strip raw_o) as [|c s]; [discriminate|].
    cbn [startswith lit map list_ascii_of_string] in Ho |- *.
    apply andb_true_iff in Ho as [Hc _]. apply N.eqb_eq in Hc. now rewrite <- Hc. }
  assert (startswith (lit "Q:") (strip raw_a) = false
          /\ startswith (lit "Options:") (strip raw_a) = false) as [Haq Hao].
  { destruct (strip raw_a) as [|c s]; [discriminate|].
    cbn [startswith lit map list_ascii_of_string] in Ha |- *.
    apply andb_true_iff in Ha as [Hc _]. apply N.eqb_eq in Hc.
    now rewrite <- Hc. }
  rewrite quiz_loop_cons. cbv zeta. rewrite Hoq, Ho, E0.
  rewrite parse_options_line_options.
  induction between as [|l between IH].
  - cbn [app]. rewrite quiz_loop_cons. cbv zeta.
    rewrite Haq, Hao, Ha. cbn [truthy]. rewrite Hq. cbn [andb].
    change (length (lit "Answer:")) with 7%nat.
    assert (len (quizzes
                 ++ [mkQuizItem q (firstn 4 (line_options (strip raw_o)))
                       (strip (skipn 7 (strip raw_a)))])
            = (len quizzes + 1)%Z) as ->
      by (unfold len; rewrite length_app; cbn [length]; lia).
    reflexivity.
  - cbn [forallb] in Hb. apply andb_true_iff in Hb as [Hl Hb].
    cbn [app]. rewrite (other_line_step _ _ _ _ _ _ Hl Hn). now apply IH.
Qed.

(** C3 (amended): for every [Options:] line, the text behind [Options:] is
    cut at every marker [A)], [B)], [C)], [D)] (and at every [|]), the
    markers are left out and the pieces stripped; the item made at the
    [Answer:] line that follows carries the first four of the strings so
    obtained, so as many as were found when fewer than four were found.
    This holds wherever the line stands in the reply (first conjunct, on the
    loop in any state that has a question pending), and in particular for a
    reply made of one block (second conjunct). *)
Theorem quiz_options_first_four (n : Z) (raw_o raw_a : str)
    (between : list str) (q : str) :
  startswith (lit "Options:") (strip raw_o) = true ->
  forallb other_line between = true ->
  startswith (lit "Answer:") (strip raw_a) = true ->
  nonempty q = true ->
  let found := line_options (strip raw_o) in
  let item := mkQuizItem q (firstn 4 found) (strip (skipn 7 (strip raw_a))) in
  (forall rest quizzes options,
      (len quizzes < n)%Z ->
      quiz_loop n (raw_o :: between ++ raw_a :: rest) quizzes (Some q) options
      = if (len quizzes + 1 >=? n)%Z then quizzes ++ [item]
        else quiz_loop n rest (quizzes ++ [item]) None [])
  /\ (forall text raw_q,
         splitlines text = raw_q :: raw_o :: between ++ [raw_a] ->
         startswith (lit "Q:") (strip raw_q) = true ->
         strip (skipn 2 (strip raw_q)) = q ->
         (1 <= n)%Z ->
         generate_quiz text n = [item])
  /\ length (qz_options item) = Nat.min 4 (length found).
Proof.
  intros Ho Hb Ha Hq found item. split; [|split].
  - intros rest quizzes options Hn.
    now apply options_then_answer.
  - intros text raw_q Hl Hrq Hqq Hn. unfold generate_quiz. rewrite Hl.
    rewrite quiz_loop_cons. cbv zeta. rewrite Hrq, Hqq.
    assert ((len (@nil QuizItem) >=? n)%Z = false) as ->
      by (unfold len; simpl; lia).
    rewrite options_then_answer
      by (assumption || (unfold len; simpl; lia)).
    cbv zeta. fold found. fold item. cbn [app quiz_loop].
    destruct (len (@nil QuizItem) + 1 >=? n)%Z;
      apply take_all; unfold len; simpl; lia.
  - subst item. cbn [qz_options]. rewrite length_firstn. reflexivity.
Qed.

Lemma quiz_options_first_four_witness :
  let raw_o := lit "  Options: A) deoxyribonucleic acid (DNA) B) RNA C) ATP D) NADH" in
  let raw_a := lit "Answer: RNA" in
  let text := lit "Q: Which molecule stores the genes?" ++ nl ++ raw_o ++ nl
              ++ lit "(pick one)" ++ nl ++ raw_a in
  line_options (strip raw_o)
  = [lit "deoxyribonucleic acid (DN"; []; lit "RNA"; lit "ATP"; lit "NADH"]
  /\ generate_quiz text 3
     = [mkQuizItem (lit "Which molecule stores the genes?")
          [lit "deoxyribonucleic acid (DN"; []; lit "RNA"; lit "ATP"]
          (lit "RNA")].
Proof.
  intros raw_o raw_a text. split; [vm_compute; reflexivity|].
  apply (proj1 (proj2 (quiz_options_first_four 3 raw_o raw_a [lit "(pick one)"]
                         (lit "Which molecule stores the genes?")
                         eq_refl eq_refl eq_refl eq_refl))
           text (lit "Q: Which molecule stores the genes?"));
    first [ vm_compute; reflexivity | lia ].
Defined.

(** C4: an item whose answer text equals none of its options is marked
    [Wrong] for every entry of its radio, the placeholder (answer left unset)
    included, and adds nothing to the score. *)
Theorem mismatched_answer_always_wrong (q : QuizItem) (choice : str) :
  ~ In (qz_answer q) (qz_options q) ->
  In choice (options_display q) ->
  result (store_choice choice) (qz_answer q) = lit "Wrong"
  /\ result None (qz_answer q) = lit "Wrong"
  /\ ans_eqb (store_choice choice) (qz_answer q) = false.
Proof.
  intros Hnot Hin.
  assert (ans_eqb (store_choice choice) (qz_answer q) = false) as E.
  { unfold store_choice. destruct (str_eqb choice placeholder) eqn:Ep;
      [reflexivity|]. simpl.
    destruct (str_eqb choice (qz_answer q)) eqn:Ea; [|reflexivity].
    apply str_eqb_eq in Ea. subst choice.
    destruct Hin as [Hin|Hin]; [|contradiction].
    rewrite <- Hin, str_eqb_refl in Ep. discriminate. }
  unfold result. rewrite E. auto.
Qed.

Lemma mismatched_answer_always_wrong_witness :
  let q := mkQuizItem (lit "q") [lit "x"; lit "y"; lit "z"; lit "w"]
             (lit "B) y") in
  result (store_choice (lit "y")) (qz_answer q) = lit "Wrong"
  /\ result None (qz_answer q) = lit "Wrong"
  /\ ans_eqb (store_choice (lit "y")) (qz_answer q) = false.
Proof.
  intros q. apply (mismatched_answer_always_wrong q (lit "y")).
  - vm_compute. intros H. repeat (destruct H as [H|H]; [discriminate|]). exact H.
  - vm_compute. right. right. now left.
Defined.

End QuizFacts.

(** ** CSV escaping *)
Section CsvFacts.

Lemma replace_char_absent (a : char) (new s : str) :
  ~ In a s -> replace [a] new s = s.
Proof.
  unfold replace. induction s as [|c s IH]; intros Hn; [reflexivity|].
  simpl in *. destruct (N.eqb_spec a c) as [->|Hne]; [tauto|].
  simpl. f_equal. apply IH. tauto.
Qed.

Lemma csv_escape_plain (text : str) :
  ~ In 34%N text -> ~ In 10%N text -> csv_escape text = strip text.
Proof.
  intros Hq Hn. unfold csv_escape, dq, nl.
  now rewrite (replace_char_absent _ _ _ Hq), (replace_char_absent _ _ _ Hn).
Qed.

(** C8: escaping twice a text without quotes and without newlines equals
    escaping it once; and in the field made of [He said], the word [hi] in
    double quotes, a newline and [bye], every quote is doubled and the
    newline becomes one space. *)
Theorem csv_escape_idempotent (text : str) :
  ~ In 34%N text -> ~ In 10%N text ->
  csv_escape (csv_escape text) = csv_escape text
  /\ csv_escape (lit "He said " ++ dq ++ lit "hi" ++ dq ++ nl ++ lit "bye")
     = lit "He said " ++ dq ++ dq ++ lit "hi" ++ dq ++ dq ++ lit " bye".
Proof.
  intros Hq Hn. split; [|vm_compute; reflexivity].
  rewrite (csv_escape_plain text Hq Hn).
  rewrite csv_escape_plain.
  - apply strip_idem.
  - intros H. apply Hq. now apply strip_In.
  - intros H. apply Hn. now apply strip_In.
Qed.

Lemma csv_escape_idempotent_witness :
  let text := lit "  binary search, O(log n)  " in
  csv_escape (csv_escape text) = csv_escape text
  /\ csv_escape (lit "He said " ++ dq ++ lit "hi" ++ dq ++ nl ++ lit "bye")
     = lit "He said " ++ dq ++ dq ++ lit "hi" ++ dq ++ dq ++ lit " bye".
Proof.
  intros text. apply (csv_escape_idempotent text); vm_compute; intros H;
    repeat (destruct H as [H|H]; [discriminate|]); exact H.
Defined.

(** C7 (the code at the failing input): for a question that holds the word
    [hi] in double quotes, the row of the quiz results holds the question
    with its quotes not doubled, whereas the flashcard export writes the same
    text with every quote doubled. *)
Theorem quiz_row_quotes_not_doubled :
  let q := mkQuizItem (lit "He said " ++ dq ++ lit "hi" ++ dq) [] (lit "y") in
  quiz_row q (Some (lit "y"))
  = dq ++ lit "He said " ++ dq ++ lit "hi" ++ dq ++ dq ++ lit ","
    ++ dq ++ lit "y" ++ dq ++ lit "," ++ dq ++ lit "y" ++ dq ++ lit ","
    ++ dq ++ lit "Correct" ++ dq ++ nl
  /\ flashcard_row (mkFlashcard (qz_question q) (lit "y"))
     = dq ++ lit "He said " ++ dq ++ dq ++ lit "hi" ++ dq ++ dq ++ dq
       ++ lit "," ++ dq ++ lit "y" ++ dq ++ nl.
Proof. vm_compute. split; reflexivity. Qed.

End CsvFacts.

(** ** Word wrapping of labels *)
Section WrapFacts.

Variable max_len : Z.
Variable all_words : list str.

Lemma wrap_loop_ok (words : list str) :
  forall lines line,
    incl words all_words ->
    Forall (line_ok max_len all_words) lines ->
    line_ok max_len all_words line ->
    Forall (line_ok max_len all_words)
           (fst (wrap_loop max_len words lines line))
    /\ line_ok max_len all_words (snd (wrap_loop max_len words lines line)).
Proof.
  induction words as [|w words IH]; intros lines line Hi HF Hl; simpl;
    [now split|].
  assert (incl words all_words) as Hi'
    by (intros x Hx; apply Hi; now right).
  destruct (len line + len w + (if nonempty line then 1 else 0) <=? max_len)%Z
    eqn:E.
  - apply IH; [exact Hi' | exact HF |]. left.
    apply Z.leb_le in E. destruct line as [|c line].
    + change ([] ++ 32%N :: w) with (32%N :: w).
      unfold strip. rewrite lstrip_space_cons by reflexivity.
      pose proof (strip_length w) as Hs. unfold strip in Hs.
      unfold len in *. simpl in E. lia.
    + pose proof (strip_length ((c :: line) ++ lit " " ++ w)) as Hs.
      rewrite !length_app in Hs. unfold len in *. simpl in *. lia.
  - apply IH; [exact Hi' | | right; apply Hi; now left].
    apply Forall_app. split; [exact HF | now constructor].
Qed.

End WrapFacts.

Section WrapTheorem.

(** C9: for a non-negative maximum, every line of a wrapped label is at most
    [max_len] long, except a line that is one single word of the label which
    is itself longer than [max_len]. *)
Theorem wrap_label_line_bound (text : str) (max_len : Z) (line : str) :
  (0 <= max_len)%Z ->
  In line (wrap_lines text max_len) ->
  (len line <= max_len)%Z
  \/ (In line (split_ws text) /\ (len line > max_len)%Z).
Proof.
  intros Hmax Hin.
  assert (line_ok max_len (split_ws text) line) as [H|H].
  { unfold wrap_lines in Hin.
    pose proof (wrap_loop_ok max_len (split_ws text) (split_ws text) [] []
                  (incl_refl _) (Forall_nil _)) as Hok.
    destruct (wrap_loop max_len (split_ws text) [] []) as [lines last].
    destruct Hok as [HF Hl]; [left; unfold len; simpl; lia|].
    simpl in HF, Hl. rewrite Forall_forall in HF.
    destruct (nonempty last); [|now apply HF].
    apply in_app_or in Hin as [Hin|[<-|[]]]; [now apply HF | exact Hl]. }
  - now left.
  - destruct (Z_le_gt_dec (len line) max_len); [now left | now right].
Qed.

Lemma wrap_label_line_bound_witness :
  let text := lit "Use Cases and a Supercalifragilistic word" in
  wrap_lines text 10
  = [lit "Use Cases"; lit "and a"; lit "Supercalifragilistic"; lit "word"]
  /\ ((len (lit "Supercalifragilistic") <= 10)%Z
      \/ (In (lit "Supercalifragilistic") (split_ws text)
          /\ (len (lit "Supercalifragilistic") > 10)%Z)).
Proof.
  intros text. split; [vm_compute; reflexivity|].
  apply (wrap_label_line_bound text 10 (lit "Supercalifragilistic")).
  - lia.
  - vm_compute. right. right. now left.
Defined.

End WrapTheorem.

(** ** Scanning the labels of a graph text *)
Section ScanFacts.

Lemma scan_app (st : scanner) (a b : str) :
  scan st (a ++ b) = scan (scan st a) b.
Proof. apply fold_left_app. Qed.

Lemma scan_quotable (ts : list token) (s : str) :
  quotable s = true -> scan (mkScanner InStr ts) s = mkScanner InStr ts.
Proof.
  unfold quotable, scan. induction s as [|c s IH]; intros H; [reflexivity|].
  cbn [forallb] in H. apply andb_true_iff in H as [Hc Hs].
  apply andb_true_iff in Hc as [H1 H2]. apply negb_true_iff in H1, H2.
  cbn [fold_left]. unfold scan_step at 2. cbn [sc_mode sc_toks].
  rewrite H1, H2. now apply IH.
Qed.

Lemma scan_label_lines (ts : list token) (lines : list str) :
  Forall (fun l => quotable l = true) lines ->
  scan (mkScanner InStr ts) (join [92%N; 110%N] lines) = mkScanner InStr ts.
Proof.
  induction 1 as [|l lines Hl HF IH]; [reflexivity|].
  destruct lines as [|l2 lines]; [now apply scan_quotable|].
  change (join [92%N; 110%N] (l :: l2 :: lines))
    with (l ++ [92%N; 110%N] ++ join [92%N; 110%N] (l2 :: lines)).
  rewrite !scan_app, (scan_quotable _ _ Hl). exact IH.
Qed.

Lemma split_ws_forall (P : char -> bool) (s : str) :
  forallb P s = true -> Forall (fun w => forallb P w = true) (split_ws s).
Proof.
  induction s as [|c s IH]; intros H; [constructor|].
  cbn [forallb] in H. apply andb_true_iff in H as [Hc Hs].
  specialize (IH Hs). cbn [split_ws].
  destruct (isspace c); [exact IH|].
  assert (forallb P [c] = true) as H1 by (cbn [forallb]; now rewrite Hc).
  destruct s as [|d s]; [now repeat constructor|].
  destruct (isspace d); [now constructor|].
  destruct (split_ws (d :: s)) as [|w ws]; [now repeat constructor|].
  inversion IH; subst. constructor; [|assumption].
  cbn [forallb]. now rewrite Hc.
Qed.

Lemma strip_forall (P : char -> bool) (s : str) :
  forallb P s = true -> forallb P (strip s) = true.
Proof.
  rewrite !forallb_forall. intros H c Hc. apply H. now apply strip_In.
Qed.

Lemma wrap_loop_forall (P : char -> bool) (max_len : Z) (words : list str) :
  P 32%N = true ->
  Forall (fun w => forallb P w = true) words ->
  forall (lines : list str) (line : str),
    Forall (fun l => forallb P l = true) lines -> forallb P line = true ->
    Forall (fun l => forallb P l = true)
           (fst (wrap_loop max_len words lines line))
    /\ forallb P (snd (wrap_loop max_len words lines line)) = true.
Proof.
  intros Hsp HF. induction HF as [|w words Hw HF IH]; intros lines line Hls Hl.
  - now split.
  - cbn [wrap_loop].
    destruct (len line + len w + (if nonempty line then 1 else 0)
              <=? max_len)%Z.
    + apply IH; [exact Hls|]. apply strip_forall.
      rewrite !forallb_app, Hl, Hw. cbn [lit map list_ascii_of_string forallb].
      change (N_of_ascii " ") with 32%N. now rewrite Hsp.
    + apply IH; [|exact Hw]. apply Forall_app. split; [exact Hls|].
      now constructor.
Qed.

Lemma wrap_lines_forall (P : char -> bool) (text : str) (max_len : Z) :
  P 32%N = true -> forallb P text = true ->
  Forall (fun l => forallb P l = true) (wrap_lines text max_len).
Proof.
  intros Hsp Ht. unfold wrap_lines.
  pose proof (wrap_loop_forall P max_len (split_ws text) Hsp
                (split_ws_forall P text Ht) [] [] (Forall_nil _) eq_refl)
    as H.
  revert H.
  match goal with
  | |- context [wrap_loop ?m ?ws ?ls ?l] =>
      change (wrap_loop max_len (split_ws text) [] [])
        with (wrap_loop m ws ls l);
      destruct (wrap_loop m ws ls l) as [lines line]
  end.
  cbn [fst snd]. intros [H1 H2]. destruct (nonempty line); [|exact H1].
  apply Forall_app. split; [exact H1 | now constructor].
Qed.

(** A label made of a quotable text is passed over as one string. *)
Lemma scan_wrap_label (ts : list token) (text : str) (max_len : Z) :
  quotable text = true ->
  scan (mkScanner InStr ts) (_wrap_label text max_len) = mkScanner InStr ts.
Proof.
  intros H. unfold _wrap_label. apply scan_label_lines.
  now apply (wrap_lines_forall _ text max_len).
Qed.

End ScanFacts.

(** Scans the pieces of a text one after the other: labels are passed over
    as strings, the rest is evaluated. *)
Ltac scan_pieces :=
  repeat match goal with
         | |- context [scan (mkScanner ?m ?ts) (_wrap_label ?t ?w)] =>
             rewrite (scan_wrap_label ts t w) by (assumption || reflexivity)
         | |- context [scan (mkScanner ?m ?ts) ?p] =>
             let v := eval vm_compute in (scan (mkScanner m ts) p) in
             replace (scan (mkScanner m ts) p) with v
               by (vm_compute; reflexivity)
         end.

Section PiecesFacts.

Lemma pieces_denote (t : text) :
  forall tail,
    concat (map snd (pieces t tail)) = denote t ++ concat (map snd tail).
Proof.
  induction t as [l s|a IHa b IHb]; intros tail; [reflexivity|].
  cbn [pieces denote]. now rewrite IHa, IHb, app_assoc.
Qed.

Lemma merge_concat (ps : list (bool * str)) :
  concat (map snd (merge ps)) = concat (map snd ps).
Proof.
  induction ps as [|[[|] s] ps IH]; [reflexivity | |].
  - cbn [merge map concat snd]. now rewrite IH.
  - cbn [merge]. cbn [map concat snd]. rewrite <- IH.
    destruct (merge ps) as [|[[|] s'] rest]; [reflexivity | reflexivity |].
    cbn [map concat snd]. now rewrite app_assoc.
Qed.

Lemma scan_all_concat (ps : list (bool * str)) :
  forall st, scan st (concat (map snd ps)) = scan_all st ps.
Proof.
  induction ps as [|p ps IH]; intros st; [reflexivity|].
  cbn [map concat]. rewrite scan_app, IH. reflexivity.
Qed.

(** A text is scanned piece by piece. *)
Lemma scan_text (st : scanner) (t : text) :
  scan st (denote t) = scan_all st (merge (pieces t [])).
Proof.
  rewrite <- scan_all_concat, merge_concat, pieces_denote.
  cbn [map concat]. now rewrite app_nil_r.
Qed.

End PiecesFacts.

(** Writes a text as a tree; the labels are the calls of [_wrap_label]. *)
Ltac text_of t :=
  lazymatch t with
  | ?a ++ ?b =>
      let ra := text_of a in
      let rb := text_of b in
      constr:(Cat ra rb)
  | _wrap_label _ _ => constr:(Piece true t)
  | _ => constr:(Piece false t)
  end.

(** Scans the text of the goal: the labels are passed over as strings, the
    pieces between them are evaluated. *)
Ltac scan_text_of_goal :=
  match goal with
  | |- context [scan ?st ?t] =>
      let r := text_of t in
      change (scan st t) with (scan st (denote r));
      rewrite (scan_text st r);
      cbv [merge pieces]; cbn [scan_all fold_left snd];
      scan_pieces
  end.

(** ** The diagram builder *)
Section DiagramFacts.

Lemma space_not_lt (c : char) : isspace c = true -> (60 =? c)%N = false.
Proof.
  intros H. destruct (N.eqb_spec 60 c) as [<-|]; [discriminate | reflexivity].
Qed.

Lemma findall_paragraphs_blank (s : str) :
  forallb isspace s = true -> findall_paragraphs s = [].
Proof.
  unfold findall_paragraphs. induction s as [|c s IH]; intros H;
    [reflexivity|].
  simpl in H. apply andb_true_iff in H as [Hc Hs].
  cbn [findall_paragraphs_go].
  assert (match_paragraph (c :: s) = None) as ->; [|now apply IH].
  unfold match_paragraph.
  change (startswith (lit "<p") (c :: s))
    with ((60 =? c)%N && startswith [112%N] s).
  now rewrite (space_not_lt c Hc).
Qed.

Lemma split_go_blank (sep : str) (s : str) :
  forallb isspace s = true ->
  forall skip,
    Forall (fun p => forallb isspace p = true) (split_go sep skip s).
Proof.
  induction s as [|c s IH]; intros H skip; simpl.
  - now repeat constructor.
  - simpl in H. apply andb_true_iff in H as [Hc Hs].
    destruct skip as [|k]; [|now apply IH].
    destruct (startswith sep (c :: s)).
    + constructor; [reflexivity | now apply IH].
    + pose proof (IH Hs 0%nat) as HF.
      destruct (split_go sep 0 s) as [|p ps]; [now repeat constructor; simpl; rewrite Hc|].
      inversion HF; subst. constructor; [|assumption].
      simpl. now rewrite Hc.
Qed.

Lemma split_paragraphs_blank (summary_html : str) :
  forallb isspace summary_html = true -> _split_paragraphs summary_html = [].
Proof.
  intros H. unfold _split_paragraphs.
  rewrite (findall_paragraphs_blank _ H).
  pose proof (split_go_blank (nl ++ nl) summary_html H 0) as HF.
  fold (split (nl ++ nl) summary_html) in HF.
  induction HF as [|p ps Hp HF IH]; [reflexivity|].
  simpl. rewrite (strip_all_space p Hp). simpl. exact IH.
Qed.

(** C10, as stated, fails for a topic that holds a double quote: the label
    of the root ends at that quote, and what follows is no attribute. *)
Lemma diagram_topic_with_quote_counterexample :
  let topic := lit "The " ++ dq ++ lit "best" ++ dq ++ lit " sort" in
  nth 3 (build_summary_lines topic [] 4 24 (lit "TB")) []
  = lit "root [label=" ++ dq ++ lit "The " ++ dq ++ lit "best" ++ dq
    ++ lit " sort" ++ dq ++ lit ", shape=oval, fillcolor=" ++ dq
    ++ lit "#1f2937" ++ dq ++ lit ", fontsize=14, penwidth=2, color=" ++ dq
    ++ lit "#60a5fa" ++ dq ++ lit "];"
  /\ read_graph (build_summary_dot topic [] 4 24 (lit "TB")) = None.
Proof. split; vm_compute; reflexivity. Qed.

(** C10 (amended): for every topic and every summary made of whitespace only
    (the empty summary included), the builder returns the text written out
    below: the header, the root node, the three branch nodes [b0], [b1],
    [b2], each followed by its edge from the root, no leaf, and the closing
    brace.  When the topic holds no double quote and no backslash (and the
    orientation is one of the two that the page passes), that text reads
    back as a graph with exactly the nodes [root], [b0], [b1], [b2] and the
    edges from [root] to each branch. *)
Theorem diagram_of_blank_summary (topic summary_html : str)
    (leaves_per_para wrap_len : Z) (orientation : str) :
  forallb isspace summary_html = true ->
  let dot :=
    build_summary_dot topic summary_html leaves_per_para wrap_len orientation in
  dot
  = join nl
      [ lit "digraph G {";
        lit "graph [rankdir=" ++ orientation
        ++ lit ", splines=true, overlap=false, nodesep=0.4, ranksep=0.7, margin=0.1];";
        lit "node [shape=box, style=filled, fillcolor="
        ++ quoted (lit "#111827") ++ lit ", color=" ++ quoted (lit "#3b82f6")
        ++ lit ", fontname=" ++ quoted (lit "Helvetica")
        ++ lit ", fontsize=11, fontcolor=" ++ quoted (lit "#e5e7eb")
        ++ lit "];";
        lit "root [label=" ++ quoted (_wrap_label topic wrap_len)
        ++ lit ", shape=oval, fillcolor=" ++ quoted (lit "#1f2937")
        ++ lit ", fontsize=14, penwidth=2, color=" ++ quoted (lit "#60a5fa")
        ++ lit "];";
        lit "b0 [label="
        ++ quoted (_wrap_label (lit "Definition & Building Blocks") wrap_len)
        ++ lit ", fillcolor=" ++ quoted (lit "#0b1320")
        ++ lit ", fontsize=12, color=" ++ quoted (lit "#93c5fd") ++ lit "];";
        lit "root -> b0;";
        lit "b1 [label="
        ++ quoted (_wrap_label
                     (lit "Architecture " ++ [8226%N] ++ lit " Security "
                      ++ [8226%N] ++ lit " Ops") wrap_len)
        ++ lit ", fillcolor=" ++ quoted (lit "#0b1320")
        ++ lit ", fontsize=12, color=" ++ quoted (lit "#93c5fd") ++ lit "];";
        lit "root -> b1;";
        lit "b2 [label="
        ++ quoted (_wrap_label
                     (lit "Use Cases " ++ [8226%N] ++ lit " Benefits "
                      ++ [8226%N] ++ lit " Costs") wrap_len)
        ++ lit ", fillcolor=" ++ quoted (lit "#0b1320")
        ++ lit ", fontsize=12, color=" ++ quoted (lit "#93c5fd") ++ lit "];";
        lit "root -> b2;";
        lit "}" ]
  /\ (quotable topic = true ->
      orientation = lit "TB" \/ orientation = lit "LR" ->
      read_graph dot
      = Some (mkGraph [lit "root"; lit "b0"; lit "b1"; lit "b2"]
                [(lit "root", lit "b0"); (lit "root", lit "b1");
                 (lit "root", lit "b2")])).
Proof.
  intros H dot.
  match goal with |- ?l = ?r /\ _ => assert (l = r) as E end.
  { subst dot. unfold build_summary_dot, build_summary_lines.
    rewrite (split_paragraphs_blank _ H). unfold quoted.
    rewrite <- !app_assoc. cbv -[_wrap_label]. reflexivity. }
  split; [exact E|]. intros Hq Ho. rewrite E. clear E dot.
  unfold read_graph, tokens. cbn [join]. unfold quoted.
  destruct Ho; subst orientation; scan_text_of_goal; vm_compute; reflexivity.
Qed.

Lemma diagram_of_blank_summary_witness :
  let summary := nl ++ lit "  " ++ nl ++ nl ++ lit " " in
  read_graph (build_summary_dot (lit "Binary Search") summary 4 24 (lit "TB"))
  = Some (mkGraph [lit "root"; lit "b0"; lit "b1"; lit "b2"]
            [(lit "root", lit "b0"); (lit "root", lit "b1");
             (lit "root", lit "b2")]).
Proof.
  intros summary.
  apply (diagram_of_blank_summary (lit "Binary Search") summary 4 24 (lit "TB")).
  - vm_compute. reflexivity.
  - vm_compute. reflexivity.
  - now left.
Defined.

(** C6 (the code at the failing input): the first paragraph holds three
    sentences, each ended by a full stop and a space, and four leaves are
    allowed; the builder nevertheless gives branch [b0] the single leaf
    [l0_0] that holds the whole paragraph, because [_sentences] only splits
    behind a backslash followed by the letter [s]. *)
Theorem diagram_sentences_not_split :
  let summary :=
    lit "<p>One. Two. Three.</p><p>B.</p><p>C.</p>" in
  _split_paragraphs summary = [lit "One. Two. Three."; lit "B."; lit "C."]
  /\ _sentences (lit "One. Two. Three.") = [lit "One. Two. Three."]
  /\ build_summary_lines (lit "T") summary 4 24 (lit "TB")
     = graph_header (lit "T") 24 (lit "TB")
       ++ [ branch_node 24 (lit "b0") (nth 0 heads []); lit "root -> b0;";
            leaf_node 24 (lit "l0_0") (lit "One. Two. Three.");
            lit "b0 -> l0_0;";
            branch_node 24 (lit "b1") (nth 1 heads []); lit "root -> b1;";
            leaf_node 24 (lit "l1_0") (lit "B."); lit "b1 -> l1_0;";
            branch_node 24 (lit "b2") (nth 2 heads []); lit "root -> b2;";
            leaf_node 24 (lit "l2_0") (lit "C."); lit "b2 -> l2_0;";
            lit "}" ].
Proof. vm_compute. repeat split; reflexivity. Qed.

End DiagramFacts.

(** ** More on the flashcard parser: truncation, ignored lines, card shape *)
Section FlashcardMore.

Lemma firstn_exact_app {A} (k : nat) (l1 l2 : list A) :
  length l1 = k -> firstn k (l1 ++ l2) = l1.
Proof.
  intros <-. rewrite firstn_app, Nat.sub_diag, firstn_all. simpl.
  apply app_nil_r.
Qed.

(** Leaving the loop at [len(cards) >= n] only cuts the list of cards. *)
Lemma flashcards_loop_firstn (n : Z) (lines : list str) :
  forall cards question,
    (len cards < n)%Z ->
    firstn (Z.to_nat n) (flashcards_loop n lines cards question)
    = firstn (Z.to_nat n) (cards ++ cards_of question lines).
Proof.
  induction lines as [|l lines IH]; intros cards question Hn.
  - simpl. now rewrite app_nil_r.
  - rewrite flashcards_loop_cons. simpl.
    destruct (is_q_line l).
    + destruct (len cards >=? n)%Z eqn:E; [lia | now apply IH].
    + destruct (is_a_line l && truthy question) eqn:Ea.
      * destruct question as [q|]; [|now rewrite andb_false_r in Ea].
        destruct (len (cards ++ [mkFlashcard q (field l)]) >=? n)%Z eqn:E.
        -- rewrite len_app in E.
           assert (length (cards ++ [mkFlashcard q (field l)]) = Z.to_nat n)
             as Hlen by (rewrite length_app; unfold len in *; simpl in *; lia).
           change (cards ++ mkFlashcard q (field l) :: cards_of None lines)
             with (cards ++ [mkFlashcard q (field l)] ++ cards_of None lines).
           rewrite app_assoc, (firstn_exact_app _ _ _ Hlen).
           apply firstn_all2. lia.
        -- rewrite IH.
           ++ now rewrite <- app_assoc.
           ++ rewrite len_app in *. unfold len in *. simpl in *. lia.
      * destruct (len cards >=? n)%Z eqn:E; [lia | now apply IH].
Qed.

Lemma generate_flashcards_firstn (text : str) (n : Z) :
  (0 <= n)%Z ->
  generate_flashcards text n
  = firstn (Z.to_nat n) (cards_of None (splitlines text)).
Proof.
  intros Hn. unfold generate_flashcards, take.
  destruct (0 <=? n)%Z eqn:E; [|lia].
  destruct (Z.eq_dec n 0) as [->|Hne]; [reflexivity|].
  rewrite flashcards_loop_firstn; [reflexivity | unfold len; simpl; lia].
Qed.

Lemma generate_flashcards_nonpositive (text : str) (n : Z) :
  (n <= 0)%Z -> generate_flashcards text n = [].
Proof.
  intros Hn. unfold generate_flashcards.
  assert (flashcards_loop n (splitlines text) [] None = []) as ->.
  { destruct (splitlines text) as [|l lines]; [reflexivity|].
    rewrite flashcards_loop_cons. simpl. rewrite andb_false_r.
    assert ((len (@nil Flashcard) >=? n)%Z = true) as E
      by (unfold len; simpl; lia).
    destruct (is_q_line l); now rewrite E. }
  unfold take. destruct (0 <=? n)%Z; apply firstn_nil.
Qed.

Lemma generate_flashcards_len_le (text : str) (n : Z) :
  (len (generate_flashcards text n) <= Z.max 0 n)%Z.
Proof.
  destruct (Z_le_gt_dec n 0) as [Hn|Hn].
  - rewrite generate_flashcards_nonpositive by exact Hn. unfold len. simpl. lia.
  - rewrite generate_flashcards_firstn by lia. unfold len.
    pose proof (firstn_le_length (Z.to_nat n) (cards_of None (splitlines text))).
    lia.
Qed.

(** X1: the flashcard parser never returns more cards than requested, and
    so returns none for a requested count of zero or less. *)
Theorem generate_flashcards_at_most_n (text : str) (n : Z) :
  (len (generate_flashcards text n) <= Z.max 0 n)%Z.
Proof. apply generate_flashcards_len_le. Qed.

(** X2: asking for fewer cards gives a prefix of what a larger request
    gives: for [0 <= n <= m] the answer for [n] is the first [n] cards of the
    answer for [m]. *)
Theorem generate_flashcards_prefix (text : str) (n m : Z) :
  (0 <= n <= m)%Z ->
  generate_flashcards text n
  = firstn (Z.to_nat n) (generate_flashcards text m).
Proof.
  intros Hnm. rewrite !generate_flashcards_firstn by lia.
  rewrite firstn_firstn. f_equal. lia.
Qed.

Lemma generate_flashcards_prefix_witness :
  let text :=
    lit "Q: a" ++ nl ++ lit "A: 1" ++ nl ++ lit "Q: b" ++ nl ++ lit "A: 2"
    ++ nl ++ lit "Q: c" ++ nl ++ lit "A: 3" in
  generate_flashcards text 2 = firstn 2 (generate_flashcards text 3)
  /\ generate_flashcards text 2
     = [mkFlashcard (lit "a") (lit "1"); mkFlashcard (lit "b") (lit "2")].
Proof.
  intros text. split; [|vm_compute; reflexivity].
  apply (generate_flashcards_prefix text 2 3). lia.
Defined.

(** X3: lines that start neither with [Q:] nor with [A:] have no effect:
    two replies with the same [Q:] and [A:] lines give the same cards, for
    every requested count. *)
Theorem generate_flashcards_ignores_other_lines (text1 text2 : str) (n : Z) :
  qa_lines (splitlines text1) = qa_lines (splitlines text2) ->
  generate_flashcards text1 n = generate_flashcards text2 n.
Proof.
  intros H. destruct (Z_le_gt_dec n 0) as [Hn|Hn].
  - now rewrite !generate_flashcards_nonpositive.
  - rewrite !generate_flashcards_firstn by lia.
    rewrite <- (cards_of_qa_lines (splitlines text1)).
    rewrite <- (cards_of_qa_lines (splitlines text2)). now rewrite H.
Qed.

Lemma generate_flashcards_ignores_other_lines_witness :
  let text1 := lit "Q: a" ++ nl ++ lit "A: 1" in
  let text2 :=
    lit "Here are your cards:" ++ nl ++ nl ++ lit "Q: a" ++ nl
    ++ lit "(easy one)" ++ nl ++ lit "A: 1" ++ nl ++ lit "Done." in
  generate_flashcards text1 5 = generate_flashcards text2 5.
Proof.
  intros text1 text2.
  apply (generate_flashcards_ignores_other_lines text1 text2 5).
  vm_compute. reflexivity.
Defined.

Lemma cards_of_shape (lines : list str) :
  forall question,
    (forall q, question = Some q -> strip q = q) ->
    Forall (fun c => fc_question c <> []
                     /\ strip (fc_question c) = fc_question c
                     /\ strip (fc_answer c) = fc_answer c)
           (cards_of question lines).
Proof.
  induction lines as [|l lines IH]; intros question Hq; simpl; [constructor|].
  destruct (is_q_line l).
  - apply IH. intros q [= <-]. apply strip_idem.
  - destruct (is_a_line l && truthy question) eqn:Ea; [|now apply IH].
    destruct question as [q|]; [|now apply IH].
    constructor; [|apply IH; discriminate].
    apply andb_true_iff in Ea as [_ Hne]. simpl in *. repeat split.
    + now destruct q.
    + now apply Hq.
    + apply strip_idem.
Qed.

(** X4: every card that the parser returns has a non-empty question, and
    neither its question nor its answer starts or ends with whitespace. *)
Theorem generate_flashcards_card_shape (text : str) (n : Z) (c : Flashcard) :
  In c (generate_flashcards text n) ->
  fc_question c <> []
  /\ strip (fc_question c) = fc_question c
  /\ strip (fc_answer c) = fc_answer c.
Proof.
  intros Hin. destruct (Z_le_gt_dec n 0) as [Hn|Hn].
  - rewrite generate_flashcards_nonpositive in Hin by exact Hn. destruct Hin.
  - rewrite generate_flashcards_firstn in Hin by lia.
    apply firstn_incl in Hin.
    pose proof (cards_of_shape (splitlines text) None) as HF.
    rewrite Forall_forall in HF. apply HF; [discriminate | exact Hin].
Qed.

Lemma generate_flashcards_card_shape_witness :
  let text := lit "  Q:   padded question  " ++ nl ++ lit "A:" in
  let c := mkFlashcard (lit "padded question") [] in
  In c (generate_flashcards text 1)
  /\ fc_question c <> []
  /\ strip (fc_question c) = fc_question c
  /\ strip (fc_answer c) = fc_answer c.
Proof.
  intros text c.
  assert (In c (generate_flashcards text 1)) as Hin by (vm_compute; now left).
  split; [exact Hin|].
  exact (generate_flashcards_card_shape text 1 c Hin).
Defined.

End FlashcardMore.

(** ** More on the quiz parser: truncation and item shape *)
Section QuizMore.

Lemma items_of_cons (question : option str) (options : list str)
    (l : str) (lines : list str) :
  items_of question options (l :: lines)
  = if startswith (lit "Q:") (strip l) then
      items_of (Some (strip (skipn 2 (strip l)))) options lines
    else if startswith (lit "Options:") (strip l) then
      items_of question (parse_options (strip l)) lines
    else if startswith (lit "Answer:") (strip l) && truthy question then
      match question with
      | Some q =>
          mkQuizItem q (firstn 4 options)
            (strip (skipn (length (lit "Answer:")) (strip l)))
          :: items_of None [] lines
      | None => items_of question options lines
      end
    else items_of question options lines.
Proof. reflexivity. Qed.

(** Leaving the loop at [len(quizzes) >= n] only cuts the list of items. *)
Lemma quiz_loop_firstn (n : Z) (lines : list str) :
  forall quizzes question options,
    (len quizzes < n)%Z ->
    firstn (Z.to_nat n) (quiz_loop n lines quizzes question options)
    = firstn (Z.to_nat n) (quizzes ++ items_of question options lines).
Proof.
  induction lines as [|l lines IH]; intros quizzes question options Hn.
  - simpl. now rewrite app_nil_r.
  - rewrite quiz_loop_cons, items_of_cons. cbv zeta.
    destruct (startswith (lit "Q:") (strip l)).
    { destruct (len quizzes >=? n)%Z eqn:E; [lia | now apply IH]. }
    destruct (startswith (lit "Options:") (strip l)).
    { destruct (len quizzes >=? n)%Z eqn:E; [lia | now apply IH]. }
    destruct (startswith (lit "Answer:") (strip l) && truthy question).
    + destruct question as [q|].
      * set (item := mkQuizItem q (firstn 4 options)
                       (strip (skipn (length (lit "Answer:")) (strip l)))).
        destruct (len (quizzes ++ [item]) >=? n)%Z eqn:E.
        -- rewrite len_app in E.
           assert (length (quizzes ++ [item]) = Z.to_nat n) as Hlen
             by (rewrite length_app; unfold len in *; simpl in *; lia).
           change (quizzes ++ item :: items_of None [] lines)
             with (quizzes ++ [item] ++ items_of None [] lines).
           rewrite app_assoc, (firstn_exact_app _ _ _ Hlen).
           apply firstn_all2. lia.
        -- rewrite IH.
           ++ now rewrite <- app_assoc.
           ++ rewrite len_app in *. unfold len in *. simpl in *. lia.
      * destruct (len quizzes >=? n)%Z eqn:E; [lia | now apply IH].
    + destruct (len quizzes >=? n)%Z eqn:E; [lia | now apply IH].
Qed.

Lemma generate_quiz_firstn (text : str) (n : Z) :
  (0 <= n)%Z ->
  generate_quiz text n
  = firstn (Z.to_nat n) (items_of None [] (splitlines text)).
Proof.
  intros Hn. unfold generate_quiz, take.
  destruct (0 <=? n)%Z eqn:E; [|lia].
  destruct (Z.eq_dec n 0) as [->|Hne]; [reflexivity|].
  rewrite quiz_loop_firstn; [reflexivity | unfold len; simpl; lia].
Qed.

Lemma generate_quiz_nonpositive (text : str) (n : Z) :
  (n <= 0)%Z -> generate_quiz text n = [].
Proof.
  intros Hn. unfold generate_quiz.
  assert (quiz_loop n (splitlines text) [] None [] = []) as ->.
  { destruct (splitlines text) as [|l lines]; [reflexivity|].
    rewrite quiz_loop_cons. cbv zeta.
    assert ((len (@nil QuizItem) >=? n)%Z = true) as E
      by (unfold len; simpl; lia).
    destruct (startswith (lit "Q:") (strip l)); [now rewrite E|].
    destruct (startswith (lit "Options:") (strip l)); [now rewrite E|].
    rewrite andb_false_r. now rewrite E. }
  unfold take. destruct (0 <=? n)%Z; apply firstn_nil.
Qed.

(** X5: the quiz parser never returns more items than requested (none for a
    requested count of zero or less), and asking for fewer items gives a
    prefix of what a larger request gives. *)
Theorem generate_quiz_truncates (text : str) (n m : Z) :
  (0 <= n <= m)%Z ->
  (len (generate_quiz text n) <= n)%Z
  /\ generate_quiz text n = firstn (Z.to_nat n) (generate_quiz text m)
  /\ generate_quiz text (- n) = [].
Proof.
  intros Hnm. repeat split.
  - rewrite generate_quiz_firstn by lia. unfold len.
    pose proof (firstn_le_length (Z.to_nat n)
                  (items_of None [] (splitlines text))). lia.
  - rewrite !generate_quiz_firstn by lia. rewrite firstn_firstn. f_equal. lia.
  - apply generate_quiz_nonpositive. lia.
Qed.

Lemma generate_quiz_truncates_witness :
  let text :=
    lit "Q: q1" ++ nl ++ lit "Options: A) a B) b C) c D) d" ++ nl
    ++ lit "Answer: a" ++ nl ++ lit "Q: q2" ++ nl
    ++ lit "Options: A) e B) f C) g D) h" ++ nl ++ lit "Answer: f" in
  (len (generate_quiz text 1) <= 1)%Z
  /\ generate_quiz text 1 = firstn 1 (generate_quiz text 2)
  /\ generate_quiz text (- 1) = [].
Proof.
  intros text. apply (generate_quiz_truncates text 1 2). lia.
Defined.

Lemma skipn_incl {A} (k : nat) (l : list A) (x : A) :
  In x (skipn k l) -> In x l.
Proof.
  revert l. induction k as [|k IH]; intros [|y l]; simpl; try tauto.
  intros H. right. now apply IH.
Qed.

Lemma split_char_pieces (c : char) (s : str) :
  Forall (fun p => ~ In c p) (split [c] s).
Proof.
  unfold split. induction s as [|d s IH]; [repeat constructor; easy|].
  change (split_go [c] 0 (d :: s))
    with (if (c =? d)%N && true then [] :: split_go [c] 0 s
          else match split_go [c] 0 s with
               | [] => [[d]]
               | p :: ps => (d :: p) :: ps
               end).
  destruct (N.eqb_spec c d) as [->|Hne]; simpl.
  - constructor; [easy | exact IH].
  - destruct (split_go [c] 0 s) as [|p ps].
    + repeat constructor. intros [H|[]]. congruence.
    + inversion IH; subst. constructor; [|assumption].
      intros [H|H]; [congruence | contradiction].
Qed.

Lemma parse_options_shape (line : str) :
  Forall option_shape (parse_options line).
Proof.
  unfold parse_options.
  set (tokens := split (lit "|") _).
  assert (Forall (fun p => ~ In 124%N p) tokens) as HF
    by apply (split_char_pieces 124%N).
  clearbody tokens. induction HF as [|t tokens Ht HF IH]; [constructor|].
  cbn [filter]. destruct (nonempty t); [|exact IH].
  cbn [map]. constructor; [|exact IH].
  destruct ((2 <=? length (strip t))%nat && (nth 1 (strip t) 0 =? 41)%N);
    (split; [apply strip_idem | intros H; apply Ht]).
  - apply strip_In. apply (skipn_incl 2). now apply strip_In.
  - now apply strip_In.
Qed.

Lemma items_of_shape (lines : list str) :
  forall question options,
    (forall q, question = Some q -> strip q = q) ->
    Forall option_shape options ->
    Forall (fun item =>
              qz_question item <> []
              /\ strip (qz_question item) = qz_question item
              /\ strip (qz_answer item) = qz_answer item
              /\ Forall option_shape (qz_options item))
           (items_of question options lines).
Proof.
  induction lines as [|l lines IH]; intros question options Hq Ho;
    [constructor|].
  rewrite items_of_cons.
  destruct (startswith (lit "Q:") (strip l)).
  { apply IH; [|exact Ho]. intros q [= <-]. apply strip_idem. }
  destruct (startswith (lit "Options:") (strip l)).
  { apply IH; [exact Hq | apply parse_options_shape]. }
  destruct (startswith (lit "Answer:") (strip l) && truthy question) eqn:Ea;
    [|now apply IH].
  destruct question as [q|]; [|now apply IH].
  constructor; [|apply IH; [discriminate | constructor]].
  apply andb_true_iff in Ea as [_ Hne]. cbn [qz_question qz_answer qz_options].
  repeat split.
  - simpl in Hne. now destruct q.
  - now apply Hq.
  - apply strip_idem.
  - apply Forall_forall. intros o Hin. apply firstn_incl in Hin.
    rewrite Forall_forall in Ho. now apply Ho.
Qed.

(** X6: every item that the quiz parser returns has a non-empty question;
    its question, its answer and each of its options neither start nor end
    with whitespace, and no option holds the character [|]. *)
Theorem generate_quiz_item_shape (text : str) (n : Z) (item : QuizItem) :
  In item (generate_quiz text n) ->
  qz_question item <> []
  /\ strip (qz_question item) = qz_question item
  /\ strip (qz_answer item) = qz_answer item
  /\ Forall option_shape (qz_options item).
Proof.
  intros Hin. destruct (Z_le_gt_dec n 0) as [Hn|Hn].
  - rewrite generate_quiz_nonpositive in Hin by exact Hn. destruct Hin.
  - rewrite generate_quiz_firstn in Hin by lia. apply firstn_incl in Hin.
    assert (Forall (fun item =>
                      qz_question item <> []
                      /\ strip (qz_question item) = qz_question item
                      /\ strip (qz_answer item) = qz_answer item
                      /\ Forall option_shape (qz_options item))
              (items_of None [] (splitlines text))) as HF
      by (apply items_of_shape; [discriminate | constructor]).
    rewrite Forall_forall in HF. now apply HF.
Qed.

Lemma generate_quiz_item_shape_witness :
  let text :=
    lit "Q:  spaced  " ++ nl ++ lit "Options:  A)  one|two  B)   three "
    ++ nl ++ lit "Answer:   three  " in
  let item := mkQuizItem (lit "spaced") [lit "one"; lit "two"; lit "three"]
                (lit "three") in
  In item (generate_quiz text 1)
  /\ qz_question item <> []
  /\ strip (qz_question item) = qz_question item
  /\ strip (qz_answer item) = qz_answer item
  /\ Forall option_shape (qz_options item).
Proof.
  intros text item.
  assert (In item (generate_quiz text 1)) as Hin by (vm_compute; now left).
  split; [exact Hin|].
  exact (generate_quiz_item_shape text 1 item Hin).
Defined.

End QuizMore.

(** ** More on the CSV export *)
Section CsvMore.

#[local] Abbreviation count c s := (count_occ N.eq_dec s c).

Lemma startswith_app (p s : str) :
  startswith p s = true -> s = p ++ skipn (length p) s.
Proof.
  revert s. induction p as [|a p IH]; intros s H; [reflexivity|].
  destruct s as [|b s]; [discriminate|].
  simpl in H. apply andb_true_iff in H as [Hab Hp].
  apply N.eqb_eq in Hab. subst b. simpl. f_equal. now apply IH.
Qed.

(** A character that occurs neither in [old] nor in [new] is counted the
    same before and after [replace]. *)
Lemma count_replace_go (c : char) (old new : str) :
  old <> [] -> ~ In c old -> ~ In c new ->
  forall s skip,
    count c (replace_go old new skip s) = count c (skipn skip s).
Proof.
  intros Hne Hold Hnew. induction s as [|d s IH]; intros skip.
  - now destruct skip.
  - destruct skip as [|k]; [|apply IH].
    cbn [replace_go skipn].
    destruct (startswith old (d :: s)) eqn:E.
    + rewrite count_occ_app, IH.
      rewrite (proj1 (count_occ_not_In N.eq_dec new c) Hnew).
      apply startswith_app in E.
      destruct old as [|a old]; [contradiction|].
      injection E as Ed E. subst d. cbn [length Nat.sub skipn] in *.
      rewrite Nat.sub_0_r. rewrite E at 2.
      change (count c (a :: old ++ skipn (length old) s))
        with (if N.eq_dec a c then S (count c (old ++ skipn (length old) s))
              else count c (old ++ skipn (length old) s)).
      destruct (N.eq_dec a c) as [->|_]; [exfalso; apply Hold; now left|].
      rewrite count_occ_app.
      assert (count c old = 0%nat) as ->; [|reflexivity].
      apply count_occ_not_In. intros H. apply Hold. now right.
    + simpl. destruct (N.eq_dec d c); now rewrite IH.
Qed.

Lemma count_replace (c : char) (old new s : str) :
  old <> [] -> ~ In c old -> ~ In c new ->
  count c (replace old new s) = count c s.
Proof.
  intros. unfold replace. now rewrite count_replace_go.
Qed.

Lemma replace_char_gone (a : char) (new s : str) :
  ~ In a new -> ~ In a (replace [a] new s).
Proof.
  intros Hnew. unfold replace. induction s as [|c s IH]; [easy|].
  simpl. destruct (N.eqb_spec a c) as [->|Hne]; simpl.
  - intros H. apply in_app_or in H as [H|H]; [now apply Hnew | now apply IH].
  - intros [H|H]; [congruence | now apply IH].
Qed.

Lemma count_lstrip (c : char) (s : str) :
  isspace c = false -> count c (lstrip s) = count c s.
Proof.
  intros Hc. induction s as [|d s IH]; [reflexivity|].
  simpl. destruct (isspace d) eqn:Ed; [|reflexivity].
  rewrite IH. destruct (N.eq_dec d c) as [->|_]; [congruence | reflexivity].
Qed.

Lemma count_rstrip (c : char) (s : str) :
  isspace c = false -> count c (rstrip s) = count c s.
Proof.
  intros Hc. induction s as [|d s IH]; [reflexivity|].
  simpl rstrip. destruct (rstrip s) as [|e r].
  - simpl in IH. simpl. rewrite <- IH.
    destruct (isspace d) eqn:Ed; simpl;
      destruct (N.eq_dec d c) as [->|_]; congruence.
  - change (count c (d :: e :: r))
      with (if N.eq_dec d c then S (count c (e :: r)) else count c (e :: r)).
    rewrite IH. reflexivity.
Qed.

Lemma count_strip (c : char) (s : str) :
  isspace c = false -> count c (strip s) = count c s.
Proof.
  intros Hc. unfold strip. now rewrite count_rstrip, count_lstrip.
Qed.

Lemma csv_escape_no_newline (text : str) : ~ In 10%N (csv_escape text).
Proof.
  unfold csv_escape. intros H. apply strip_In in H.
  revert H. apply replace_char_gone. intros [H|[]]. discriminate.
Qed.

(** X7: an escaped field holds no line feed and has no whitespace at either
    end, whatever the text. *)
Theorem csv_escape_flat_trimmed (text : str) :
  ~ In 10%N (csv_escape text)
  /\ strip (csv_escape text) = csv_escape text.
Proof.
  split; [apply csv_escape_no_newline | apply strip_idem].
Qed.

(** X8: escaping doubles the double quotes: the escaped field holds exactly
    twice as many as the text. *)
Theorem csv_escape_doubles_quotes (text : str) :
  count 34%N (csv_escape text) = (2 * count 34%N text)%nat.
Proof.
  unfold csv_escape. rewrite count_strip by reflexivity.
  rewrite count_replace;
    [| discriminate | intros [H|[]]; discriminate
     | intros [H|[]]; discriminate ].
  unfold replace, dq. induction text as [|c text IH]; [reflexivity|].
  change (replace_go [34%N] ([34%N] ++ [34%N]) 0 (c :: text))
    with (if (34 =? c)%N && true
          then 34%N :: 34%N :: replace_go [34%N] ([34%N] ++ [34%N]) 0 text
          else c :: replace_go [34%N] ([34%N] ++ [34%N]) 0 text).
  destruct (N.eqb_spec 34 c) as [<-|Hne]; cbn [andb count_occ].
  - destruct (N.eq_dec 34 34) as [_|Hf]; [|congruence]. rewrite IH. lia.
  - destruct (N.eq_dec c 34) as [->|_]; [congruence|]. exact IH.
Qed.

Lemma count_concat_rows {A} (row : A -> str) (l : list A) (c : char) :
  (forall x, count c (row x) = 1%nat) ->
  count c (concat (map row l)) = length l.
Proof.
  intros H. induction l as [|x l IH]; [reflexivity|].
  simpl. now rewrite count_occ_app, H, IH.
Qed.

Lemma count_csv_escape_newline (text : str) :
  count 10%N (csv_escape text) = 0%nat.
Proof. apply count_occ_not_In, csv_escape_no_newline. Qed.

(** X9: the flashcard export holds exactly one line for the header and one
    for each card, whatever the texts of the cards (line feeds inside them
    are flattened). *)
Theorem flashcards_csv_line_count (cards : list Flashcard) :
  count 10%N (flashcards_csv cards) = S (length cards).
Proof.
  unfold flashcards_csv. rewrite !count_occ_app.
  rewrite (count_concat_rows flashcard_row).
  - reflexivity.
  - intros c. unfold flashcard_row. rewrite !count_occ_app.
    now rewrite !count_csv_escape_newline.
Qed.

Lemma count_result_newline (user_ans : option str) (correct : str) :
  count 10%N (result user_ans correct) = 0%nat.
Proof. unfold result. now destruct (ans_eqb user_ans correct). Qed.

(** X10: the quiz results export holds exactly one line for the header and
    one for each quiz item, whatever the questions and answers. *)
Theorem quiz_results_csv_line_count (quiz : list QuizItem)
    (answers : nat -> option str) :
  count 10%N (quiz_results_csv quiz answers) = S (length quiz).
Proof.
  unfold quiz_results_csv. rewrite !count_occ_app.
  rewrite (count_concat_rows (fun '(i, q) => quiz_row q (answers i))).
  - unfold enumerate. rewrite length_combine, length_seq, Nat.min_id.
    reflexivity.
  - intros [i q]. unfold quiz_row.
    rewrite count_replace;
      [| discriminate | intros [H|[H|[]]]; discriminate
       | intros [H|[]]; discriminate ].
    rewrite !count_occ_app.
    now rewrite !count_csv_escape_newline, count_result_newline.
Qed.

Lemma replace_go_char_free (a b : char) (new x rest : str) :
  ~ In a x ->
  replace_go [a; b] new 0 (x ++ rest) = x ++ replace_go [a; b] new 0 rest.
Proof.
  intros Hx. induction x as [|c x IH]; [reflexivity|].
  change (replace_go [a; b] new 0 ((c :: x) ++ rest))
    with (if (a =? c)%N && startswith [b] (x ++ rest)
          then new ++ replace_go [a; b] new 1 (x ++ rest)
          else c :: replace_go [a; b] new 0 (x ++ rest)).
  destruct (N.eqb_spec a c) as [->|Hne]; [exfalso; apply Hx; now left|].
  simpl. f_equal. apply IH. intros H. apply Hx. now right.
Qed.

Lemma replace_char_In (c a : char) (new s : str) :
  In c (replace [a] new s) -> In c s \/ In c new.
Proof.
  unfold replace. induction s as [|d s IH]; [now left|].
  simpl. destruct (N.eqb_spec a d) as [->|Hne]; simpl.
  - intros H. apply in_app_or in H as [H|H]; [now right|].
    destruct (IH H); [left; now right | now right].
  - intros [H|H]; [left; now left|].
    destruct (IH H); [left; now right | now right].
Qed.

Lemma csv_escape_quote_free (text : str) :
  ~ In 34%N text -> ~ In 34%N (csv_escape text).
Proof.
  intros Hq H. unfold csv_escape, dq, nl in H.
  rewrite (replace_char_absent _ _ _ Hq) in H. apply strip_In in H.
  apply replace_char_In in H as [H|[H|[]]]; [now apply Hq | discriminate].
Qed.

(** X11: when the question, the chosen answer and the correct answer hold no
    double quote and the escaped question is not empty, the row written to
    the quiz results is the four fields, each in double quotes, separated by
    commas and ended by a line feed. *)
Theorem quiz_row_without_quotes (q : QuizItem) (user_ans : option str) :
  ~ In 34%N (qz_question q) ->
  ~ In 34%N (or_empty user_ans) ->
  ~ In 34%N (qz_answer q) ->
  csv_escape (qz_question q) <> [] ->
  quiz_row q user_ans
  = dq ++ csv_escape (qz_question q) ++ dq ++ lit ","
    ++ dq ++ csv_escape (or_empty user_ans) ++ dq ++ lit ","
    ++ dq ++ csv_escape (qz_answer q) ++ dq ++ lit ","
    ++ dq ++ result user_ans (qz_answer q) ++ dq ++ nl.
Proof.
  intros HQ HU HC Hne. unfold quiz_row.
  apply csv_escape_quote_free in HQ, HU, HC.
  destruct (csv_escape (qz_question q)) as [|c Q]; [contradiction|].
  set (U := csv_escape (or_empty user_ans)) in *.
  set (C := csv_escape (qz_answer q)) in *.
  assert ((34 =? c)%N = false) as Hc
    by (apply N.eqb_neq; intros <-; apply HQ; now left).
  assert (~ In 34%N Q) as HQ' by (intros H; apply HQ; now right).
  unfold replace, dq, nl, result. change (lit ",") with [44%N].
  destruct (ans_eqb user_ans (qz_answer q)); simpl; rewrite Hc; simpl;
    rewrite (replace_go_char_free _ _ _ Q) by exact HQ'; simpl;
    rewrite (replace_go_char_free _ _ _ U) by exact HU; simpl;
    rewrite (replace_go_char_free _ _ _ C) by exact HC; reflexivity.
Qed.

Lemma quiz_row_without_quotes_witness :
  let q := mkQuizItem (lit "Which one, a or b?") [lit "a"; lit "b"] (lit "a") in
  quiz_row q None
  = dq ++ csv_escape (qz_question q) ++ dq ++ lit ","
    ++ dq ++ csv_escape (or_empty None) ++ dq ++ lit ","
    ++ dq ++ csv_escape (qz_answer q) ++ dq ++ lit ","
    ++ dq ++ result None (qz_answer q) ++ dq ++ nl.
Proof.
  intros q. apply (quiz_row_without_quotes q None);
    vm_compute; try discriminate; intros H;
    repeat (destruct H as [H|H]; [discriminate|]); exact H.
Defined.

Lemma replace_char_cons (a c : char) (new s : str) :
  replace [a] new (c :: s)
  = (if (a =? c)%N then new else [c]) ++ replace [a] new s.
Proof.
  unfold replace. simpl. now destruct (a =? c)%N.
Qed.

Lemma replace_char_app (a : char) (new x y : str) :
  replace [a] new (x ++ y) = replace [a] new x ++ replace [a] new y.
Proof.
  induction x as [|c x IH]; [reflexivity|].
  cbn [app]. rewrite !replace_char_cons, IH. apply app_assoc.
Qed.

Lemma replace_char_single (a c : char) (new : str) :
  replace [a] new [c] = if (a =? c)%N then new else [c].
Proof.
  rewrite replace_char_cons. apply app_nil_r.
Qed.

Lemma replace_newline_quotes (s : str) :
  replace nl (lit " ") (replace dq (dq ++ dq) s)
  = replace dq (dq ++ dq) (replace nl (lit " ") s).
Proof.
  unfold dq, nl. change (lit " ") with [32%N].
  induction s as [|c s IH]; [reflexivity|].
  rewrite (replace_char_cons 34 c), (replace_char_cons 10 c).
  rewrite !replace_char_app, IH. f_equal.
  destruct (N.eqb_spec 34 c) as [<-|Hq]; [reflexivity|].
  destruct (N.eqb_spec 10 c) as [<-|Hn]; [reflexivity|].
  rewrite !replace_char_single. apply N.eqb_neq in Hq, Hn.
  now rewrite Hq, Hn.
Qed.

Lemma lstrip_double_quotes (s : str) :
  lstrip (replace dq (dq ++ dq) s) = replace dq (dq ++ dq) (lstrip s).
Proof.
  change (dq ++ dq) with [34%N; 34%N]. unfold dq.
  induction s as [|c s IH]; [reflexivity|].
  rewrite replace_char_cons.
  destruct (N.eqb_spec 34 c) as [<-|Hq]; [reflexivity|].
  cbn [app]. destruct (isspace c) eqn:Ec.
  - now rewrite !(lstrip_space_cons _ _ Ec).
  - rewrite !(lstrip_nonspace_cons _ _ Ec), replace_char_cons.
    apply N.eqb_neq in Hq. now rewrite Hq.
Qed.

Lemma rstrip_cons (c : char) (s r : str) :
  rstrip s = r ->
  rstrip (c :: s)
  = match r with
    | [] => if isspace c then [] else [c]
    | _ :: _ => c :: r
    end.
Proof. intros <-. simpl. now destruct (rstrip s). Qed.

Lemma rstrip_double_quotes (s : str) :
  rstrip (replace dq (dq ++ dq) s) = replace dq (dq ++ dq) (rstrip s).
Proof.
  change (dq ++ dq) with [34%N; 34%N]. unfold dq.
  induction s as [|c s IH]; [reflexivity|].
  rewrite replace_char_cons, (rstrip_cons c s (rstrip s) eq_refl).
  destruct (N.eqb_spec 34 c) as [<-|Hq].
  - cbn [app].
    rewrite (rstrip_cons 34 _ _ (rstrip_cons 34 _ _ IH)).
    destruct (rstrip s) as [|e r]; [reflexivity|].
    rewrite (replace_char_cons 34 34). rewrite (replace_char_cons 34 e).
    now destruct (34 =? e)%N.
  - cbn [app]. rewrite (rstrip_cons c _ _ IH). apply N.eqb_neq in Hq.
    destruct (rstrip s) as [|e r].
    + change (replace [34%N] [34%N; 34%N] []) with (@nil N).
      destruct (isspace c); [reflexivity|].
      rewrite replace_char_cons. now rewrite Hq.
    + rewrite (replace_char_cons 34 c), Hq.
      rewrite (replace_char_cons 34 e). now destruct (34 =? e)%N.
Qed.

Lemma undouble_doubled (s : str) :
  replace (dq ++ dq) dq (replace dq (dq ++ dq) s) = s.
Proof.
  change (dq ++ dq) with [34%N; 34%N]. unfold dq.
  induction s as [|c s IH]; [reflexivity|].
  rewrite replace_char_cons.
  destruct (N.eqb_spec 34 c) as [<-|Hq].
  - unfold replace in *. simpl. now rewrite IH.
  - unfold replace in *. cbn [app].
    change (replace_go [34%N; 34%N] [34%N] 0
              (c :: replace_go [34%N] [34%N; 34%N] 0 s))
      with (if (34 =? c)%N
               && startswith [34%N] (replace_go [34%N] [34%N; 34%N] 0 s)
            then [34%N]
                 ++ replace_go [34%N; 34%N] [34%N] 1
                      (replace_go [34%N] [34%N; 34%N] 0 s)
            else c :: replace_go [34%N; 34%N] [34%N] 0
                        (replace_go [34%N] [34%N; 34%N] 0 s)).
    apply N.eqb_neq in Hq. rewrite Hq. simpl. now rewrite IH.
Qed.

(** X12: replacing every doubled quote of an escaped field by a single one
    gives back the text with its line feeds turned into spaces and its outer
    whitespace removed: escaping loses nothing else. *)
Theorem csv_escape_undoubled (text : str) :
  replace (dq ++ dq) dq (csv_escape text)
  = strip (replace nl (lit " ") text).
Proof.
  unfold csv_escape. rewrite replace_newline_quotes. unfold strip.
  rewrite lstrip_double_quotes, rstrip_double_quotes.
  apply undouble_doubled.
Qed.

End CsvMore.

(** ** Scoring and the radio of the quiz form *)
Section ScoreFacts.

Variable answers : nat -> option str.

Lemma score_fold (l : list QuizItem) :
  forall (k : nat) (acc : Z),
    let score :=
      fold_left
        (fun score '(i, q) =>
           (score + (if ans_eqb (answers i) (qz_answer q) then 1 else 0))%Z)
        (combine (seq k (length l)) l) acc in
    (acc <= score <= acc + len l)%Z
    /\ (score = (acc + len l)%Z
        <-> forall j q, nth_error l j = Some q ->
                        ans_eqb (answers (k + j)) (qz_answer q) = true).
Proof.
  induction l as [|q0 l IH]; intros k acc; cbn zeta.
  - unfold len. simpl. split; [lia|]. split; [|lia].
    intros _ [|j] q H; discriminate.
  - cbn [length seq combine fold_left].
    specialize (IH (S k)
      (acc + (if ans_eqb (answers k) (qz_answer q0) then 1 else 0))%Z).
    cbn zeta in IH. destruct IH as [Hb Hiff].
    assert (len (q0 :: l) = (1 + len l)%Z) as ->
      by (unfold len; simpl length; lia).
    destruct (ans_eqb (answers k) (qz_answer q0)) eqn:E.
    + split; [lia|]. rewrite Z.add_assoc. rewrite Hiff. split.
      * intros H [|j] q Hj.
        -- injection Hj as <-. now rewrite Nat.add_0_r.
        -- rewrite Nat.add_succ_r. now apply (H j q).
      * intros H j q Hj. specialize (H (S j) q Hj).
        now rewrite Nat.add_succ_r in H.
    + split; [lia|]. split; [lia|].
      intros H. specialize (H 0%nat q0 eq_refl).
      rewrite Nat.add_0_r, E in H. discriminate.
Qed.

(** X13: the score of a submitted quiz lies between 0 and the number of
    items, and it equals the number of items exactly when the stored answer
    of every item equals its correct answer. *)
Theorem quiz_score_bounds (quiz : list QuizItem) :
  (0 <= quiz_score quiz answers <= len quiz)%Z
  /\ (quiz_score quiz answers = len quiz
      <-> forall i q, nth_error quiz i = Some q ->
                      ans_eqb (answers i) (qz_answer q) = true).
Proof.
  unfold quiz_score, enumerate.
  pose proof (score_fold quiz 0 0%Z) as H. cbn zeta in H.
  rewrite Z.add_0_l in H. exact H.
Qed.

End ScoreFacts.

Section RadioFacts.

Lemma index_nth (c : str) (l : list str) (d : str) :
  In c l -> nth (index c l) l d = c.
Proof.
  induction l as [|y l IH]; [easy|]. intros Hin. simpl.
  destruct (str_eqb y c) eqn:E; [now apply str_eqb_eq in E|].
  destruct Hin as [->|Hin]; [now rewrite str_eqb_refl in E | now apply IH].
Qed.

(** X14: showing the form again without touching a radio keeps the stored
    answer: whatever entry of the radio was chosen before, the entry shown by
    default is stored as the same answer. *)
Theorem radio_keeps_stored_answer (q : QuizItem) (choice : str) :
  In choice (options_display q) ->
  store_choice (radio_default q (store_choice choice)) = store_choice choice.
Proof.
  intros Hin. unfold radio_default, default_idx, store_choice at 2 3 4.
  destruct (str_eqb choice placeholder) eqn:Ep.
  - simpl. unfold store_choice. now rewrite str_eqb_refl.
  - assert (In choice (qz_options q)) as Ho.
    { destruct Hin as [<-|Hin]; [now rewrite str_eqb_refl in Ep | exact Hin]. }
    assert (in_options (Some choice) (qz_options q) = true) as ->.
    { simpl. apply existsb_exists. exists choice. split; [exact Ho|].
      apply str_eqb_refl. }
    rewrite index_nth by exact Hin. unfold store_choice. now rewrite Ep.
Qed.

Lemma radio_keeps_stored_answer_witness :
  let q := mkQuizItem (lit "q") [lit "x"; lit "y"; lit "z"; lit "w"] (lit "y") in
  store_choice (radio_default q (store_choice (lit "z")))
  = store_choice (lit "z")
  /\ radio_default q (store_choice (lit "z")) = lit "z".
Proof.
  intros q. split; [|vm_compute; reflexivity].
  apply (radio_keeps_stored_answer q (lit "z")).
  vm_compute. right. right. right. now left.
Defined.

End RadioFacts.

(** ** More on labels: words are kept, long first words, shortening *)
Section LabelFacts.

Lemma split_ws_cons_space (c : char) (s : str) :
  isspace c = true -> split_ws (c :: s) = split_ws s.
Proof. intros H. simpl. now rewrite H. Qed.

Lemma split_ws_cons_nonspace (c : char) (s : str) :
  isspace c = false ->
  split_ws (c :: s)
  = match s with
    | [] => [[c]]
    | d :: _ =>
        if isspace d then [c] :: split_ws s
        else match split_ws s with
             | [] => [[c]]
             | w :: ws => (c :: w) :: ws
             end
    end.
Proof. intros H. cbn [split_ws]. now rewrite H. Qed.

Lemma split_ws_nonempty (d : char) (s : str) :
  isspace d = false -> split_ws (d :: s) <> [].
Proof.
  intros H. rewrite (split_ws_cons_nonspace _ _ H).
  destruct s as [|e s]; [discriminate|].
  destruct (isspace e); [discriminate|].
  destruct (split_ws (e :: s)); discriminate.
Qed.

Lemma split_ws_all_space (s : str) :
  forallb isspace s = true -> split_ws s = [].
Proof.
  induction s as [|c s IH]; [reflexivity|]. intros H.
  cbn [forallb] in H. apply andb_true_iff in H as [Hc Hs].
  rewrite (split_ws_cons_space _ _ Hc). now apply IH.
Qed.

Lemma split_ws_words (s : str) :
  Forall (fun w => is_word w = true) (split_ws s).
Proof.
  induction s as [|c s IH]; [constructor|].
  destruct (isspace c) eqn:Ec; [now rewrite (split_ws_cons_space _ _ Ec)|].
  rewrite (split_ws_cons_nonspace _ _ Ec).
  assert (is_word [c] = true) as Hc by (unfold is_word; simpl; now rewrite Ec).
  destruct s as [|d s]; [now repeat constructor|].
  destruct (isspace d); [now constructor|].
  destruct (split_ws (d :: s)) as [|w ws]; [now repeat constructor|].
  inversion IH; subst. constructor; [|assumption].
  unfold is_word in *. simpl. rewrite Ec. simpl.
  now apply andb_true_iff in H1 as [_ H1].
Qed.

Lemma split_ws_word (w : str) : is_word w = true -> split_ws w = [w].
Proof.
  unfold is_word. induction w as [|c w IH]; [discriminate|].
  intros H. cbn [nonempty forallb andb] in H.
  apply andb_true_iff in H as [Hc Hw]. apply negb_true_iff in Hc.
  rewrite (split_ws_cons_nonspace _ _ Hc).
  destruct w as [|d w]; [reflexivity|].
  assert (isspace d = false) as Hd
    by (cbn [forallb] in Hw; apply andb_true_iff in Hw as [Hd _];
        now apply negb_true_iff in Hd).
  rewrite Hd, IH; [reflexivity|]. exact Hw.
Qed.

Lemma split_ws_app_space (s t : str) (sp : char) :
  isspace sp = true ->
  split_ws (s ++ sp :: t) = split_ws s ++ split_ws t.
Proof.
  intros Hsp. induction s as [|c s IH].
  - cbn [app]. now rewrite (split_ws_cons_space _ _ Hsp).
  - cbn [app]. destruct (isspace c) eqn:Ec.
    + now rewrite !(split_ws_cons_space _ _ Ec).
    + rewrite !(split_ws_cons_nonspace _ _ Ec).
      destruct s as [|d s].
      * cbn [app]. rewrite Hsp. cbn [app] in IH. now rewrite IH.
      * cbn [app] in *. destruct (isspace d) eqn:Ed.
        -- now rewrite IH.
        -- rewrite IH. pose proof (split_ws_nonempty d s Ed) as Hne.
           now destruct (split_ws (d :: s)).
Qed.

Lemma split_ws_app_spaces (s t : str) :
  forallb isspace t = true -> split_ws (s ++ t) = split_ws s.
Proof.
  intros Ht. destruct t as [|sp t]; [now rewrite app_nil_r|].
  cbn [forallb] in Ht. apply andb_true_iff in Ht as [Hsp Ht].
  rewrite (split_ws_app_space _ _ _ Hsp), (split_ws_all_space _ Ht).
  apply app_nil_r.
Qed.

Lemma split_ws_lstrip (s : str) : split_ws (lstrip s) = split_ws s.
Proof.
  induction s as [|c s IH]; [reflexivity|].
  destruct (isspace c) eqn:Ec.
  - now rewrite (lstrip_space_cons _ _ Ec), (split_ws_cons_space _ _ Ec).
  - now rewrite (lstrip_nonspace_cons _ _ Ec).
Qed.

Lemma rstrip_decomp (s : str) :
  exists t, s = rstrip s ++ t /\ forallb isspace t = true.
Proof.
  induction s as [|c s (t & Hs & Ht)]; [now exists []|].
  simpl rstrip. destruct (rstrip s) as [|e r] eqn:E.
  - simpl in Hs. subst t. destruct (isspace c) eqn:Ec.
    + exists (c :: s). split; [reflexivity|]. simpl. now rewrite Ec.
    + now exists s.
  - exists t. split; [|exact Ht]. simpl. now rewrite Hs at 1.
Qed.

Lemma split_ws_rstrip (s : str) : split_ws (rstrip s) = split_ws s.
Proof.
  destruct (rstrip_decomp s) as (t & Hs & Ht).
  rewrite Hs at 2. now rewrite split_ws_app_spaces.
Qed.

Lemma split_ws_strip (s : str) : split_ws (strip s) = split_ws s.
Proof. unfold strip. now rewrite split_ws_rstrip, split_ws_lstrip. Qed.

Lemma wrap_loop_words (max_len : Z) (words : list str) :
  forall lines line,
    Forall (fun w => is_word w = true) words ->
    flat_map split_ws (fst (wrap_loop max_len words lines line))
    ++ split_ws (snd (wrap_loop max_len words lines line))
    = flat_map split_ws lines ++ split_ws line ++ words.
Proof.
  induction words as [|w words IH]; intros lines line HF.
  - simpl. now rewrite app_nil_r.
  - inversion HF as [|? ? Hw HF']; subst. cbn [wrap_loop].
    destruct (len line + len w + (if nonempty line then 1 else 0)
              <=? max_len)%Z.
    + rewrite IH by exact HF'. f_equal.
      change (line ++ lit " " ++ w) with (line ++ 32%N :: w).
      rewrite split_ws_strip, split_ws_app_space by reflexivity.
      rewrite (split_ws_word w Hw), <- app_assoc. reflexivity.
    + rewrite IH by exact HF'.
      rewrite flat_map_app. cbn [flat_map]. rewrite app_nil_r.
      rewrite (split_ws_word w Hw), <- !app_assoc. reflexivity.
Qed.

(** X15: wrapping a label keeps its words: read line by line, the wrapped
    label holds exactly the words of the text, in the same order, for every
    maximum line length. *)
Theorem wrap_lines_keep_words (text : str) (max_len : Z) :
  flat_map split_ws (wrap_lines text max_len) = split_ws text.
Proof.
  unfold wrap_lines.
  pose proof (wrap_loop_words max_len (split_ws text) [] []
                (split_ws_words text)) as H.
  destruct (wrap_loop max_len (split_ws text) [] []) as [lines line].
  cbn [fst snd flat_map app] in H. change (split_ws []) with (@nil str) in H.
  cbn [app] in H. rewrite <- H.
  destruct line as [|c line]; cbn [nonempty].
  - now rewrite app_nil_r.
  - rewrite flat_map_app. cbn [flat_map]. now rewrite app_nil_r.
Qed.

Lemma wrap_loop_prefix (max_len : Z) (words : list str) :
  forall lines line,
    exists more, fst (wrap_loop max_len words lines line) = lines ++ more.
Proof.
  induction words as [|w words IH]; intros lines line.
  - exists []. simpl. now rewrite app_nil_r.
  - cbn [wrap_loop].
    destruct (len line + len w + (if nonempty line then 1 else 0)
              <=? max_len)%Z.
    + apply IH.
    + destruct (IH (lines ++ [line]) w) as [more Hm].
      exists (line :: more). rewrite Hm, <- app_assoc. reflexivity.
Qed.

(** X16: when the first word of a label is longer than the maximum, the
    wrapped label starts with an empty line: the loop closes the still empty
    current line before it places the word. *)
Theorem wrap_lines_long_first_word (text : str) (max_len : Z) (w : str)
    (rest : list str) :
  split_ws text = w :: rest ->
  (max_len < len w)%Z ->
  exists more, wrap_lines text max_len = [] :: more.
Proof.
  intros Hw Hlen. unfold wrap_lines. rewrite Hw. cbn [wrap_loop].
  assert ((len (@nil N) + len w + (if nonempty [] then 1 else 0)
           <=? max_len)%Z = false) as ->
    by (unfold len in *; simpl; lia).
  match goal with
  | |- context [wrap_loop ?m ?ws ?ls ?l] =>
      destruct (wrap_loop_prefix m ws ls l) as [more Hm];
      destruct (wrap_loop m ws ls l) as [lines line]
  end.
  cbn [fst] in Hm. subst lines.
  destruct (nonempty line); eexists; reflexivity.
Qed.

Lemma wrap_lines_long_first_word_witness :
  let text := lit "Supercalifragilistic search" in
  (exists more, wrap_lines text 10 = [] :: more)
  /\ _wrap_label text 10
     = [92%N; 110%N] ++ lit "Supercalifragilistic" ++ [92%N; 110%N]
       ++ lit "search".
Proof.
  intros text. split; [|vm_compute; reflexivity].
  apply (wrap_lines_long_first_word text 10 (lit "Supercalifragilistic")
           [lit "search"]).
  - vm_compute. reflexivity.
  - vm_compute. reflexivity.
Defined.

Lemma split_ws_join (ws : list str) :
  Forall (fun w => is_word w = true) ws ->
  split_ws (join (lit " ") ws) = ws.
Proof.
  change (lit " ") with [32%N].
  induction ws as [|w ws IH]; intros HF; [reflexivity|].
  inversion HF as [|? ? Hw HF']; subst.
  destruct ws as [|w2 ws]; [now apply split_ws_word|].
  change (join [32%N] (w :: w2 :: ws))
    with (w ++ 32%N :: join [32%N] (w2 :: ws)).
  rewrite split_ws_app_space by reflexivity.
  now rewrite (split_ws_word w Hw), IH.
Qed.

Lemma join_snoc (sep : str) (ws : list str) (w e : str) :
  join sep (ws ++ [w]) ++ e = join sep (ws ++ [w ++ e]).
Proof.
  induction ws as [|a ws IH]; [reflexivity|].
  cbn [app]. destruct ws as [|b ws].
  - cbn [app join]. now rewrite <- !app_assoc.
  - cbn [app join] in *. rewrite <- !app_assoc. now rewrite IH.
Qed.

Lemma firstn_snoc {A} (n : nat) (l : list A) (d : A) :
  (n < length l)%nat -> firstn (S n) l = firstn n l ++ [nth n l d].
Proof.
  revert l. induction n as [|n IH]; intros [|x l] H; simpl in H; try lia.
  - reflexivity.
  - rewrite firstn_cons. cbn [firstn nth app]. f_equal. apply IH. lia.
Qed.

Lemma is_word_ellipsis (w : str) :
  is_word w = true -> is_word (w ++ ellipsis) = true.
Proof.
  unfold is_word. intros H. apply andb_true_iff in H as [Hn Hw].
  rewrite forallb_app, Hw. destruct w; [discriminate | reflexivity].
Qed.

(** X17: for a limit of at least one word, the shortened sentence is its
    own words separated by single spaces, with no whitespace before the
    first or behind the last; these words are the first [max_words] words of
    the sentence, and when words were dropped the ellipsis is attached to the
    last word kept.  So it never has more than [max_words] words. *)
Theorem shorten_words (sentence : str) (max_words : Z) :
  (1 <= max_words)%Z ->
  _shorten sentence max_words
  = join (lit " ") (split_ws (_shorten sentence max_words))
  /\ split_ws (_shorten sentence max_words)
     = (if (len (split_ws sentence) <=? max_words)%Z then split_ws sentence
        else firstn (Z.to_nat max_words - 1) (split_ws sentence)
             ++ [nth (Z.to_nat max_words - 1) (split_ws sentence) []
                 ++ ellipsis])
  /\ (len (split_ws (_shorten sentence max_words)) <= max_words)%Z.
Proof.
  intros Hk. unfold _shorten, take.
  pose proof (split_ws_words sentence) as HF.
  set (words := split_ws sentence) in *.
  assert ((0 <=? max_words)%Z = true) as -> by lia.
  destruct (len words <=? max_words)%Z eqn:E.
  - assert ((len words >? max_words)%Z = false) as -> by lia.
    rewrite app_nil_r, firstn_all2 by (unfold len in *; lia).
    rewrite split_ws_join by exact HF.
    split; [reflexivity | split; [reflexivity | lia]].
  - assert ((len words >? max_words)%Z = true) as -> by lia.
    assert (Z.to_nat max_words - 1 < length words)%nat as Hlt
      by (unfold len in *; lia).
    assert (firstn (Z.to_nat max_words) words
            = firstn (Z.to_nat max_words - 1) words
              ++ [nth (Z.to_nat max_words - 1) words []]) as ->
      by (rewrite <- (@firstn_snoc str _ _ [] Hlt); f_equal; lia).
    rewrite join_snoc.
    rewrite split_ws_join.
    + split; [reflexivity | split; [reflexivity|]].
      unfold len. rewrite length_app.
      pose proof (firstn_le_length (Z.to_nat max_words - 1) words).
      simpl. lia.
    + rewrite Forall_forall in HF. apply Forall_app. split.
      * apply Forall_forall. intros w Hw. apply HF. now apply firstn_incl in Hw.
      * constructor; [|constructor]. apply is_word_ellipsis, HF.
        now apply nth_In.
Qed.

Lemma shorten_words_witness :
  let sentence := lit "  Binary   search halves the range each step " in
  _shorten sentence 3 = lit "Binary search halves" ++ ellipsis
  /\ split_ws (_shorten sentence 3)
     = [lit "Binary"; lit "search"; lit "halves" ++ ellipsis]
  /\ (len (split_ws (_shorten sentence 3)) <= 3)%Z.
Proof.
  intros sentence.
  destruct (shorten_words sentence 3 ltac:(lia)) as (H1 & H2 & H3).
  split; [|split; [exact H2 | exact H3]].
  rewrite H1. vm_compute. reflexivity.
Defined.

End LabelFacts.

(** ** More on the diagram: sentences, paragraphs, the shape of the graph *)
Section DiagramMore.

Lemma split_sentences_no_backslash (s : str) :
  ~ In 92%N s ->
  forall prev, split_sentences_go prev 0 s = [s].
Proof.
  induction s as [|c s IH]; intros Hs prev; [reflexivity|].
  cbn [split_sentences_go].
  assert ((c =? 92)%N = false) as ->
    by (apply N.eqb_neq; intros ->; apply Hs; now left).
  rewrite andb_false_r. cbn [andb].
  rewrite IH; [reflexivity|]. intros H. apply Hs. now right.
Qed.

(** X18: a text without backslash is never split into sentences, however
    many full stops, question or exclamation marks followed by spaces it
    holds: [_sentences] returns the trimmed text as its only sentence (and
    nothing for a blank text). *)
Theorem sentences_without_backslash (s : str) :
  ~ In 92%N s ->
  _sentences s = if nonempty (strip s) then [strip s] else [].
Proof.
  intros Hs. unfold _sentences.
  rewrite split_sentences_no_backslash
    by (intros H; apply Hs; now apply strip_In).
  cbn [filter map]. rewrite strip_idem.
  destruct (nonempty (strip s)); [|reflexivity].
  cbn [map]. now rewrite strip_idem.
Qed.

Lemma sentences_without_backslash_witness :
  let s := lit " Is it sorted? Yes! Then halve the range. Repeat. " in
  _sentences s = [lit "Is it sorted? Yes! Then halve the range. Repeat."].
Proof.
  intros s. rewrite (sentences_without_backslash s).
  - vm_compute. reflexivity.
  - vm_compute. intros H.
    repeat (destruct H as [H|H]; [discriminate|]). exact H.
Defined.

Lemma match_paragraph_no_lt (c : char) (s : str) :
  c <> 60%N -> match_paragraph (c :: s) = None.
Proof.
  intros Hc. unfold match_paragraph.
  change (startswith (lit "<p") (c :: s))
    with ((60 =? c)%N && startswith [112%N] s).
  assert ((60 =? c)%N = false) as -> by (apply N.eqb_neq; congruence).
  reflexivity.
Qed.

Lemma findall_skip_free (pre rest : str) :
  ~ In 60%N pre ->
  findall_paragraphs_go 0 (pre ++ rest) = findall_paragraphs_go 0 rest.
Proof.
  intros Hp. induction pre as [|c pre IH]; [reflexivity|].
  cbn [app findall_paragraphs_go].
  rewrite match_paragraph_no_lt by (intros ->; apply Hp; now left).
  apply IH. intros H. apply Hp. now right.
Qed.

Lemma findall_skip (x rest : str) :
  findall_paragraphs_go (length x) (x ++ rest)
  = findall_paragraphs_go 0 rest.
Proof.
  induction x as [|c x IH]; [reflexivity|].
  cbn [length app findall_paragraphs_go]. exact IH.
Qed.

Lemma find_sub_eq (pat s : str) :
  find_sub pat s
  = if startswith pat s then Some ([], skipn (length pat) s)
    else match s with
         | [] => None
         | c :: s' =>
             match find_sub pat s' with
             | Some (before, after) => Some (c :: before, after)
             | None => None
             end
         end.
Proof. now destruct s. Qed.

Lemma startswith_prefix (p rest : str) : startswith p (p ++ rest) = true.
Proof.
  induction p as [|x p IH]; [reflexivity|].
  cbn [app startswith]. now rewrite N.eqb_refl, IH.
Qed.

Lemma skipn_prefix (p rest : str) : skipn (length p) (p ++ rest) = rest.
Proof. induction p as [|x p IH]; [reflexivity | exact IH]. Qed.

Lemma find_sub_first (p0 : char) (pat a rest : str) :
  ~ In p0 a ->
  find_sub (p0 :: pat) (a ++ (p0 :: pat) ++ rest) = Some (a, rest).
Proof.
  intros Ha. induction a as [|c a IH]; rewrite find_sub_eq.
  - cbn [app]. change (p0 :: pat ++ rest) with ((p0 :: pat) ++ rest).
    now rewrite startswith_prefix, skipn_prefix.
  - cbn [app].
    assert (startswith (p0 :: pat) (c :: a ++ p0 :: pat ++ rest) = false)
      as ->.
    { cbn [startswith].
      assert ((p0 =? c)%N = false) as ->; [|reflexivity].
      apply N.eqb_neq. intros ->. apply Ha. now left. }
    change (a ++ p0 :: pat ++ rest) with (a ++ (p0 :: pat) ++ rest).
    rewrite IH; [reflexivity|]. intros H. apply Ha. now right.
Qed.

Lemma findall_one_paragraph (a rest : str) :
  ~ In 60%N a ->
  findall_paragraphs_go 0 (lit "<p>" ++ a ++ lit "</p>" ++ rest)
  = a :: findall_paragraphs_go 0 rest.
Proof.
  intros Ha.
  assert (match_paragraph (lit "<p>" ++ a ++ lit "</p>" ++ rest)
          = Some (a, rest)) as Hm.
  { unfold match_paragraph.
    change (startswith (lit "<p") (lit "<p>" ++ a ++ lit "</p>" ++ rest))
      with true.
    change (drop_until_gt (skipn 2 (lit "<p>" ++ a ++ lit "</p>" ++ rest)))
      with (62%N :: a ++ lit "</p>" ++ rest).
    cbv iota. apply (find_sub_first 60%N (lit "/p>")). exact Ha. }
  change (lit "<p>" ++ a ++ lit "</p>" ++ rest)
    with (60%N :: lit "p>" ++ a ++ lit "</p>" ++ rest) in *.
  cbn [findall_paragraphs_go]. rewrite Hm. f_equal.
  assert (lit "p>" ++ a ++ lit "</p>" ++ rest
          = (lit "p>" ++ a ++ lit "</p>") ++ rest) as ->
    by now rewrite <- !app_assoc.
  replace (length ((lit "p>" ++ a ++ lit "</p>") ++ rest) - length rest)%nat
    with (length (lit "p>" ++ a ++ lit "</p>"))
    by (rewrite !length_app; lia).
  apply findall_skip.
Qed.

Lemma strip_html_no_lt (s : str) : ~ In 60%N s -> _strip_html s = s.
Proof.
  unfold _strip_html. induction s as [|c s IH]; intros Hs; [reflexivity|].
  cbn [sub_tags_go].
  assert (match_tag (c :: s) = None) as ->.
  { unfold match_tag. destruct s as [|d s]; [reflexivity|].
    assert ((c =? 60)%N = false) as ->; [|reflexivity].
    apply N.eqb_neq. intros ->. apply Hs. now left. }
  f_equal. apply IH. intros H. apply Hs. now right.
Qed.

(** X19: for a summary that holds three blocks [<p>a</p>], [<p>b</p>],
    [<p>c</p>] whose texts [a], [b], [c] hold no [<], with any text without
    [<] before and between the blocks and any text at all after them, the
    paragraphs are [a], [b] and [c], each trimmed. *)
Theorem split_paragraphs_three_blocks (pre a s1 b s2 c post : str) :
  ~ In 60%N pre -> ~ In 60%N a -> ~ In 60%N s1 -> ~ In 60%N b ->
  ~ In 60%N s2 -> ~ In 60%N c ->
  _split_paragraphs
    (pre ++ lit "<p>" ++ a ++ lit "</p>" ++ s1
     ++ lit "<p>" ++ b ++ lit "</p>" ++ s2
     ++ lit "<p>" ++ c ++ lit "</p>" ++ post)
  = [strip a; strip b; strip c].
Proof.
  intros Hpre Ha Hs1 Hb Hs2 Hc. unfold _split_paragraphs, findall_paragraphs.
  rewrite (findall_skip_free pre) by exact Hpre.
  rewrite (findall_one_paragraph a) by exact Ha.
  rewrite (findall_skip_free s1) by exact Hs1.
  rewrite (findall_one_paragraph b) by exact Hb.
  rewrite (findall_skip_free s2) by exact Hs2.
  rewrite (findall_one_paragraph c) by exact Hc.
  cbn [firstn map].
  now rewrite !strip_html_no_lt by assumption.
Qed.

Lemma split_paragraphs_three_blocks_witness :
  _split_paragraphs
    ([] ++ lit "<p>" ++ lit " A sorted list. " ++ lit "</p>" ++ nl
     ++ lit "<p>" ++ lit "Halve it." ++ lit "</p>" ++ nl
     ++ lit "<p>" ++ lit "Log time." ++ lit "</p>"
     ++ lit "<p>extra</p>")
  = [strip (lit " A sorted list. "); strip (lit "Halve it.");
     strip (lit "Log time.")].
Proof.
  apply (split_paragraphs_three_blocks [] (lit " A sorted list. ") nl
           (lit "Halve it.") nl (lit "Log time.") (lit "<p>extra</p>"));
    vm_compute; intros H;
    repeat (destruct H as [H|H]; [discriminate|]); exact H.
Defined.

Lemma split_go_incl (sep : str) (s : str) :
  forall skip, Forall (fun p => incl p s) (split_go sep skip s).
Proof.
  induction s as [|c s IH]; intros skip.
  - constructor; [apply incl_refl | constructor].
  - assert (forall k, Forall (fun p => incl p (c :: s)) (split_go sep k s))
      as IH'.
    { intros k. eapply Forall_impl; [|apply IH].
      intros p Hp. now apply incl_tl. }
    cbn [split_go]. destruct skip as [|k]; [|apply IH'].
    destruct (startswith sep (c :: s)).
    + constructor; [apply incl_nil_l | apply IH'].
    + specialize (IH 0%nat). destruct (split_go sep 0 s) as [|p ps].
      * constructor; [|constructor]. intros x [<-|[]]. now left.
      * inversion IH; subst. constructor.
        -- intros x [<-|Hx]; [now left | right; auto].
        -- eapply Forall_impl; [|eassumption].
           intros q Hq. now apply incl_tl.
Qed.

(** X20: for a summary without any [<], the paragraphs are the first three
    non-blank blocks of the text separated by an empty line, each trimmed. *)
Theorem split_paragraphs_plain_text (summary_html : str) :
  ~ In 60%N summary_html ->
  _split_paragraphs summary_html
  = firstn 3 (map strip
                (filter (fun p => nonempty (strip p))
                   (split (nl ++ nl) summary_html))).
Proof.
  intros Hs. unfold _split_paragraphs, findall_paragraphs.
  rewrite <- (app_nil_r summary_html) at 1.
  rewrite findall_skip_free by exact Hs. cbn [findall_paragraphs_go].
  set (blocks := filter _ _).
  assert (Forall (fun p => ~ In 60%N p) blocks) as HF.
  { apply Forall_forall. intros p Hp. apply filter_In in Hp as [Hp _].
    pose proof (split_go_incl (nl ++ nl) summary_html 0) as Hi.
    rewrite Forall_forall in Hi. intros H. apply Hs. now apply (Hi p Hp). }
  clearbody blocks. rewrite <- (map_id (firstn 3 (map strip blocks))) at 2.
  apply map_ext_in. intros p Hp. apply firstn_incl in Hp.
  apply in_map_iff in Hp as (x & <- & Hx).
  rewrite Forall_forall in HF.
  rewrite strip_html_no_lt.
  - apply strip_idem.
  - intros H. apply (HF x Hx). now apply strip_In.
Qed.

Lemma split_paragraphs_plain_text_witness :
  let summary :=
    lit "First block." ++ nl ++ nl ++ lit "  " ++ nl ++ nl
    ++ lit " Second, on" ++ nl ++ lit "two lines. " ++ nl ++ nl ++ lit "Third."
    ++ nl ++ nl ++ lit "Fourth." in
  _split_paragraphs summary
  = [lit "First block."; lit "Second, on" ++ nl ++ lit "two lines.";
     lit "Third."].
Proof.
  intros summary. rewrite (split_paragraphs_plain_text summary).
  - vm_compute. reflexivity.
  - vm_compute. intros H.
    repeat (destruct H as [H|H]; [discriminate|]). exact H.
Defined.

Lemma find_sub_incl (pat s before after : str) :
  find_sub pat s = Some (before, after) -> incl before s /\ incl after s.
Proof.
  revert before after. induction s as [|c s IH]; intros before after.
  - rewrite find_sub_eq. destruct (startswith pat []); [|discriminate].
    intros E. injection E as <- <-. split; [apply incl_nil_l|].
    intros x Hx. now apply skipn_incl in Hx.
  - rewrite find_sub_eq. destruct (startswith pat (c :: s)).
    + intros E. injection E as <- <-. split; [apply incl_nil_l|].
      intros x Hx. now apply skipn_incl in Hx.
    + destruct (find_sub pat s) as [[b a]|]; [|discriminate].
      intros E. injection E as <- <-.
      destruct (IH b a eq_refl) as [Hb Ha]. split.
      * intros x [<-|Hx]; [now left | right; auto].
      * now apply incl_tl.
Qed.

Lemma drop_until_gt_incl (s : str) : incl (drop_until_gt s) s.
Proof.
  induction s as [|c s IH]; [apply incl_refl|]. cbn [drop_until_gt].
  destruct (c =? 62)%N; [apply incl_refl | now apply incl_tl].
Qed.

Lemma match_paragraph_incl (s group after : str) :
  match_paragraph s = Some (group, after) -> incl group s.
Proof.
  unfold match_paragraph. destruct (startswith (lit "<p") s); [|discriminate].
  pose proof (drop_until_gt_incl (skipn 2 s)) as Hd.
  destruct (drop_until_gt (skipn 2 s)) as [|g body]; [discriminate|].
  intros E. apply find_sub_incl in E as [Hg _].
  intros x Hx. apply (skipn_incl 2). apply Hd. right. now apply Hg.
Qed.

Lemma findall_paragraphs_incl (s : str) :
  forall skip, Forall (fun g => incl g s) (findall_paragraphs_go skip s).
Proof.
  induction s as [|c s IH]; intros skip; [constructor|].
  assert (forall k, Forall (fun g => incl g (c :: s))
                      (findall_paragraphs_go k s)) as IH'.
  { intros k. eapply Forall_impl; [|apply IH].
    intros g Hg. now apply incl_tl. }
  cbn [findall_paragraphs_go]. destruct skip as [|k]; [|apply IH'].
  destruct (match_paragraph (c :: s)) as [[group after]|] eqn:E; [|apply IH'].
  constructor; [|apply IH']. now apply match_paragraph_incl in E.
Qed.

Lemma strip_html_incl (s : str) :
  forall skip, incl (sub_tags_go skip s) s.
Proof.
  induction s as [|c s IH]; intros skip; [apply incl_refl|].
  cbn [sub_tags_go]. destruct skip as [|k]; [|now apply incl_tl].
  destruct (match_tag (c :: s)); [now apply incl_tl|].
  intros x [<-|Hx]; [now left | right; now apply (IH 0%nat)].
Qed.

Lemma incl_quotable (p s : str) :
  incl p s -> quotable s = true -> quotable p = true.
Proof.
  unfold quotable. rewrite !forallb_forall. intros Hi Hs x Hx. auto.
Qed.

(** The paragraphs of a quotable summary are quotable, and [strip] leaves
    them alone. *)
Lemma split_paragraphs_quotable (summary_html : str) :
  quotable summary_html = true ->
  Forall (fun p => quotable p = true /\ strip p = p)
         (_split_paragraphs summary_html).
Proof.
  intros Hq. unfold _split_paragraphs.
  assert (Forall (fun p => incl p summary_html)
            match findall_paragraphs summary_html with
            | [] => map strip (filter (fun p => nonempty (strip p))
                                 (split (nl ++ nl) summary_html))
            | _ :: _ => findall_paragraphs summary_html
            end) as HF.
  { destruct (findall_paragraphs summary_html) as [|g gs] eqn:E.
    - apply Forall_forall. intros p Hp. apply in_map_iff in Hp as (r & <- & Hr).
      apply filter_In in Hr as [Hr _].
      pose proof (split_go_incl (nl ++ nl) summary_html 0) as Hs.
      rewrite Forall_forall in Hs. intros x Hx. apply (Hs r Hr).
      now apply strip_In.
    - rewrite <- E. apply findall_paragraphs_incl. }
  match goal with
  | H : Forall _ ?l |- Forall _ (map _ (firstn 3 ?l')) =>
      change l' with l; generalize dependent l
  end.
  intros paras HF. apply Forall_forall. intros p Hp.
  apply in_map_iff in Hp as (r & <- & Hr). apply firstn_incl in Hr.
  rewrite Forall_forall in HF. split; [|apply strip_idem].
  apply (incl_quotable _ summary_html); [|exact Hq].
  intros x Hx. apply (HF r Hr). apply (strip_html_incl r 0%nat).
  now apply strip_In.
Qed.

Lemma join_forall (P : char -> bool) (sep : str) (parts : list str) :
  forallb P sep = true -> Forall (fun w => forallb P w = true) parts ->
  forallb P (join sep parts) = true.
Proof.
  intros Hs. induction 1 as [|w ws Hw HF IH]; [reflexivity|].
  destruct ws as [|w2 ws]; [exact Hw|].
  change (join sep (w :: w2 :: ws)) with (w ++ sep ++ join sep (w2 :: ws)).
  now rewrite !forallb_app, Hw, Hs, IH.
Qed.

Lemma shorten_quotable (sentence : str) (max_words : Z) :
  quotable sentence = true -> quotable (_shorten sentence max_words) = true.
Proof.
  unfold quotable, _shorten. intros H. rewrite forallb_app.
  apply andb_true_iff. split.
  - apply join_forall; [reflexivity|].
    pose proof (split_ws_forall _ sentence H) as HF.
    rewrite Forall_forall in HF |- *. intros w Hw. apply HF.
    now apply take_In in Hw.
  - now destruct (len (split_ws sentence) >? max_words)%Z.
Qed.

(** The lines of a branch when no paragraph holds a backslash: at most one
    leaf, whatever the number of leaves asked for. *)
Lemma branch_lines_one_leaf (paras : list str)
    (leaves_per_para wrap_len : Z) (i : nat) (head : str) :
  Forall (fun p => quotable p = true /\ strip p = p) paras ->
  branch_lines paras leaves_per_para wrap_len i head
  = [ branch_node wrap_len (lit "b" ++ str_of_nat i) head;
      lit "root -> " ++ (lit "b" ++ str_of_nat i) ++ lit ";" ]
    ++ (if (1 <=? leaves_per_para)%Z && nonempty (nth i paras [])
        then leaf_lines wrap_len i (lit "b" ++ str_of_nat i) 0 (nth i paras [])
        else []).
Proof.
  intros HF. unfold branch_lines. f_equal.
  destruct (i <? length paras)%nat eqn:E.
  - apply Nat.ltb_lt in E.
    rewrite Forall_forall in HF.
    destruct (HF (nth i paras []) (nth_In _ _ E)) as [Hq Hs].
    rewrite sentences_without_backslash.
    + rewrite Hs. destruct (nonempty (nth i paras [])).
      * unfold take. destruct (0 <=? leaves_per_para)%Z eqn:E0.
        -- destruct (1 <=? leaves_per_para)%Z eqn:E1.
           ++ assert (Z.to_nat leaves_per_para = S (Z.to_nat leaves_per_para - 1))
                as -> by lia.
              cbn [firstn]. rewrite firstn_nil. cbn [andb].
              unfold enumerate. cbn [length seq combine flat_map].
              now rewrite app_nil_r.
           ++ assert (Z.to_nat leaves_per_para = 0%nat) as -> by lia.
              reflexivity.
        -- assert ((1 <=? leaves_per_para)%Z = false) as -> by lia.
           cbn [length]. assert (1 - Z.to_nat (- leaves_per_para) = 0)%nat
             as -> by lia. reflexivity.
      * rewrite andb_false_r. unfold take.
        destruct (0 <=? leaves_per_para)%Z; now rewrite firstn_nil.
    + unfold quotable in Hq. rewrite forallb_forall in Hq.
      intros H92. specialize (Hq _ H92). discriminate.
  - apply Nat.ltb_ge in E. rewrite (nth_overflow _ _ E). cbn [nonempty].
    now rewrite andb_false_r.
Qed.

(** X21: for a topic and a summary that hold no double quote and no
    backslash, the text of the diagram reads back as a graph: the node
    [root], the three branches [b0], [b1], [b2] with their edges from the
    root, and under branch [i] the single leaf [li_0] when paragraph [i] of
    the summary is not empty and at least one leaf is asked for; a branch
    never gets a second leaf, however many are asked for. *)
Theorem diagram_reads_back (topic summary_html : str)
    (leaves_per_para wrap_len : Z) (orientation : str) :
  quotable topic = true -> quotable summary_html = true ->
  orientation = lit "TB" \/ orientation = lit "LR" ->
  let leaf := fun i : nat =>
    (1 <=? leaves_per_para)%Z
    && nonempty (nth i (_split_paragraphs summary_html) []) in
  read_graph
    (build_summary_dot topic summary_html leaves_per_para wrap_len orientation)
  = Some (mkGraph
            ([lit "root"; lit "b0"] ++ (if leaf 0%nat then [lit "l0_0"] else [])
             ++ [lit "b1"] ++ (if leaf 1%nat then [lit "l1_0"] else [])
             ++ [lit "b2"] ++ (if leaf 2%nat then [lit "l2_0"] else []))
            ([(lit "root", lit "b0")]
             ++ (if leaf 0%nat then [(lit "b0", lit "l0_0")] else [])
             ++ [(lit "root", lit "b1")]
             ++ (if leaf 1%nat then [(lit "b1", lit "l1_0")] else [])
             ++ [(lit "root", lit "b2")]
             ++ (if leaf 2%nat then [(lit "b2", lit "l2_0")] else []))).
Proof.
  intros Hq Hs Ho leaf. subst leaf. cbv beta.
  pose proof (split_paragraphs_quotable summary_html Hs) as HF.
  unfold build_summary_dot, build_summary_lines.
  set (paras := _split_paragraphs summary_html) in *.
  assert (forall i, quotable (_shorten (nth i paras []) 12) = true) as Hl.
  { intros i. apply shorten_quotable.
    destruct (Nat.lt_ge_cases i (length paras)) as [Hi|Hi].
    - rewrite Forall_forall in HF. now apply (HF _ (nth_In _ _ Hi)).
    - now rewrite (nth_overflow _ _ Hi). }
  pose proof (Hl 0%nat) as Hl0. pose proof (Hl 1%nat) as Hl1.
  pose proof (Hl 2%nat) as Hl2. clear Hl.
  unfold heads, enumerate. cbn [length seq combine flat_map].
  rewrite !(branch_lines_one_leaf paras) by exact HF.
  clear HF Hs.
  generalize dependent (nth 0 paras []). intros p0 Hl0.
  generalize dependent (nth 1 paras []). intros p1 Hl1.
  generalize dependent (nth 2 paras []). intros p2 Hl2.
  clear paras summary_html.
  unfold read_graph, tokens.
  destruct Ho; subst orientation;
    destruct ((1 <=? leaves_per_para)%Z && nonempty p0);
    destruct ((1 <=? leaves_per_para)%Z && nonempty p1);
    destruct ((1 <=? leaves_per_para)%Z && nonempty p2);
    unfold graph_header, root_node, branch_node, leaf_lines, leaf_node;
    cbn [app join]; scan_text_of_goal; vm_compute; reflexivity.
Qed.

Lemma diagram_reads_back_witness :
  let summary :=
    lit "<p>Sorted input. Halve the range.</p><p></p><p>Fast.</p>" in
  _split_paragraphs summary
  = [lit "Sorted input. Halve the range."; []; lit "Fast."]
  /\ read_graph (build_summary_dot (lit "Binary Search") summary 4 24 (lit "LR"))
     = Some (mkGraph
               [lit "root"; lit "b0"; lit "l0_0"; lit "b1"; lit "b2";
                lit "l2_0"]
               [(lit "root", lit "b0"); (lit "b0", lit "l0_0");
                (lit "root", lit "b1"); (lit "root", lit "b2");
                (lit "b2", lit "l2_0")]).
Proof.
  intros summary. split; [vm_compute; reflexivity|].
  apply (diagram_reads_back (lit "Binary Search") summary 4 24 (lit "LR"));
    first [ vm_compute; reflexivity | now right ].
Defined.

End DiagramMore.

(** ** The flip cards *)
Section FlipCardFacts.

(** X22: an escaped card text holds neither [<] nor [>], so it cannot open
    or close a tag in the page of the flip cards. *)
Theorem esc_no_angle_brackets (s : str) :
  ~ In 60%N (esc s) /\ ~ In 62%N (esc s).
Proof.
  unfold esc. split.
  - intros H. apply replace_char_In in H as [H|H].
    + revert H. apply replace_char_gone.
      vm_compute. intros H. repeat (destruct H as [H|H]; [discriminate|]).
      exact H.
    + vm_compute in H. repeat (destruct H as [H|H]; [discriminate|]). exact H.
  - apply replace_char_gone.
    vm_compute. intros H. repeat (destruct H as [H|H]; [discriminate|]).
    exact H.
Qed.

(** X23: the palette number of a card is always one of 1 to 5 (never 0, for
    which the page has no colour) and repeats every five cards. *)
Theorem palette_range (i : Z) :
  (1 <= palette i <= 5)%Z /\ palette (i + 5) = palette i.
Proof.
  unfold palette.
  assert ((i + 5) mod 5 = i mod 5)%Z as ->
    by (rewrite <- (Z.mul_1_l 5) at 1; apply Z.mod_add; lia).
  pose proof (Z.mod_pos_bound i 5 ltac:(lia)).
  split; [|reflexivity].
  destruct (i mod 5 =? 0)%Z eqn:E; lia.
Qed.

End FlipCardFacts.

(** ** Round trips: a reply written in the prompt's format is read back *)
Section RoundTrips.

Lemma strip_answer_line (pre : str) (c : char) (a : str) :
  isspace c = false -> strip a = a ->
  strip (c :: pre ++ 32%N :: a) = if nonempty a then c :: pre ++ 32%N :: a
                                  else strip (c :: pre ++ [32%N]).
Proof.
  intros Hc Ha. destruct a as [|d a]; [reflexivity|]. cbn [nonempty].
  replace (pre ++ 32%N :: d :: a) with ((pre ++ [32%N]) ++ d :: a)
    by now rewrite <- app_assoc.
  apply strip_prefixed; [exact Hc|].
  unfold trimmed. cbn [nonempty andb]. now apply str_eqb_eq.
Qed.

Lemma card_lines_read (c : Flashcard) (rest : list str) :
  card_ok c = true ->
  cards_of None (card_lines c ++ rest) = c :: cards_of None rest.
Proof.
  destruct c as [q a]. unfold card_ok, card_lines. cbn [fc_question fc_answer].
  intros H. apply andb_true_iff in H as [Tq Ta]. apply str_eqb_eq in Ta.
  assert (strip (lit "Q: " ++ q) = lit "Q: " ++ q) as Eq
    by (apply (strip_prefixed 81%N (lit ": ") q); [reflexivity | exact Tq]).
  assert (is_q_line (lit "Q: " ++ q) = true) as Hq
    by (unfold is_q_line; now rewrite Eq).
  assert (field (lit "Q: " ++ q) = q) as Fq.
  { unfold field. rewrite Eq. change (skipn 2 (lit "Q: " ++ q)) with (32%N :: q).
    now apply strip_space_trimmed. }
  assert (is_a_line (lit "A: " ++ a) = true /\ field (lit "A: " ++ a) = a)
    as [Ha Fa].
  { unfold is_a_line, field.
    change (lit "A: " ++ a) with (65%N :: [58%N] ++ 32%N :: a).
    rewrite (strip_answer_line [58%N] 65%N a eq_refl Ta).
    destruct a as [|d a]; [now split|]. cbn [nonempty]. split; [reflexivity|].
    change (skipn 2 (65%N :: [58%N] ++ 32%N :: d :: a)) with (32%N :: d :: a).
    apply strip_space_trimmed. unfold trimmed. cbn [nonempty andb].
    now apply str_eqb_eq. }
  cbn [app cards_of]. rewrite Hq, (a_line_not_q _ Ha), Ha, Fq, Fa.
  apply andb_true_iff in Tq as [Tq _]. cbn [truthy]. now rewrite Tq.
Qed.

Lemma cards_of_rendered (cards : list Flashcard) :
  forallb card_ok cards = true ->
  cards_of None (flat_map card_lines cards) = cards.
Proof.
  induction cards as [|c cards IH]; [reflexivity|]. intros H.
  cbn [forallb] in H. apply andb_true_iff in H as [Hc H].
  cbn [flat_map]. rewrite (card_lines_read c _ Hc). now rewrite IH.
Qed.

(** X24: a reply that holds, line by line, a list of cards written as
    [Q: question] and [A: answer] is read back as exactly these cards, when
    every question is non-empty, no field starts or ends with whitespace and
    at least as many cards were requested. *)
Theorem flashcards_round_trip (text : str) (n : Z) (cards : list Flashcard) :
  forallb card_ok cards = true ->
  splitlines text = flat_map card_lines cards ->
  (len cards <= n)%Z ->
  generate_flashcards text n = cards.
Proof.
  intros Hok Hl Hn.
  rewrite generate_flashcards_cards_of; rewrite Hl, cards_of_rendered;
    auto.
Qed.

Lemma flashcards_round_trip_witness :
  let cards :=
    [ mkFlashcard (lit "What is a pivot?") (lit "The element to compare with.");
      mkFlashcard (lit "Cost?") [] ] in
  generate_flashcards (join nl (flat_map card_lines cards)) 2 = cards.
Proof.
  intros cards.
  apply (flashcards_round_trip (join nl (flat_map card_lines cards)) 2 cards);
    vm_compute; first [reflexivity | discriminate].
Defined.

Lemma strip_options_line (x y z w : str) :
  trimmed w = true -> strip (options_line x y z w) = options_line x y z w.
Proof.
  intros Tw. apply trimmed_spec in Tw as (Hne & _ & Hr).
  unfold strip.
  assert (lstrip (options_line x y z w) = options_line x y z w) as ->
    by reflexivity.
  unfold options_line. rewrite !app_assoc. now apply rstrip_app_fixed.
Qed.

Lemma item_lines_read (it : QuizItem) (rest : list str) :
  item_ok it = true ->
  items_of None [] (item_lines it ++ rest) = it :: items_of None [] rest.
Proof.
  destruct it as [q opts a]. unfold item_ok, item_lines.
  cbn [qz_question qz_options qz_answer]. intros H.
  destruct opts as [|x [|y [|z [|w [|? ?]]]]];
    try (now rewrite andb_false_r in H).
  repeat match goal with
         | H' : _ && _ = true |- _ => apply andb_true_iff in H' as [? ?]
         end.
  assert (strip (lit "Q: " ++ q) = lit "Q: " ++ q) as E1
    by (apply (strip_prefixed 81%N (lit ": ") q); [reflexivity | assumption]).
  assert (strip (lit "Answer: " ++ a) = lit "Answer: " ++ a) as E3
    by (apply (strip_prefixed 65%N (lit "nswer: ") a);
        [reflexivity | assumption]).
  cbn [app]. rewrite items_of_cons, E1.
  change (startswith (lit "Q:") (lit "Q: " ++ q)) with true. cbv iota.
  change (skipn 2 (lit "Q: " ++ q)) with (32%N :: q).
  rewrite (strip_space_trimmed q) by assumption.
  rewrite items_of_cons, strip_options_line by assumption.
  change (startswith (lit "Q:") (options_line x y z w)) with false.
  change (startswith (lit "Options:") (options_line x y z w)) with true.
  cbv iota. rewrite parse_options_four by assumption.
  rewrite items_of_cons, E3.
  change (startswith (lit "Q:") (lit "Answer: " ++ a)) with false.
  change (startswith (lit "Options:") (lit "Answer: " ++ a)) with false.
  change (startswith (lit "Answer:") (lit "Answer: " ++ a)) with true.
  assert (truthy (Some q) = true) as ->.
  { match goal with
    | Hq : trimmed q = true |- _ =>
        apply andb_true_iff in Hq as [Hq _]; exact Hq
    end. }
  cbv iota. cbn [andb].
  change (skipn (length (lit "Answer:")) (lit "Answer: " ++ a))
    with (32%N :: a).
  now rewrite (strip_space_trimmed a) by assumption.
Qed.

Lemma items_of_rendered (items : list QuizItem) :
  forallb item_ok items = true ->
  items_of None [] (flat_map item_lines items) = items.
Proof.
  induction items as [|it items IH]; [reflexivity|]. intros H.
  cbn [forallb] in H. apply andb_true_iff in H as [Hi H].
  cbn [flat_map]. rewrite (item_lines_read it _ Hi). now rewrite IH.
Qed.

(** X25: a reply that holds, line by line, a list of quiz items written as
    [Q: question], [Options: A) x B) y C) z D) w] and [Answer: answer] is
    read back as exactly these items, when no text is empty or starts or
    ends with whitespace, no option holds [|] or one of the four markers,
    and at least as many items were requested. *)
Theorem quiz_round_trip (text : str) (n : Z) (items : list QuizItem) :
  forallb item_ok items = true ->
  splitlines text = flat_map item_lines items ->
  (len items <= n)%Z ->
  generate_quiz text n = items.
Proof.
  intros Hok Hl Hn.
  assert (0 <= n)%Z as H0 by (unfold len in Hn; lia).
  rewrite generate_quiz_firstn by exact H0.
  rewrite Hl, items_of_rendered by exact Hok.
  apply firstn_all2. unfold len in Hn. lia.
Qed.

Lemma quiz_round_trip_witness :
  let items :=
    [ mkQuizItem (lit "Best case?")
        [lit "O(1)"; lit "O(n)"; lit "O(log n)"; lit "O(n^2)"] (lit "O(1)");
      mkQuizItem (lit "Needs sorted input?")
        [lit "yes"; lit "no"; lit "sometimes"; lit "never"] (lit "yes") ] in
  generate_quiz (join nl (flat_map item_lines items)) 2 = items.
Proof.
  intros items.
  apply (quiz_round_trip (join nl (flat_map item_lines items)) 2 items);
    vm_compute; first [reflexivity | discriminate].
Defined.

End RoundTrips.

(** ** The calls of the model and the generate action *)
Section CallFacts.

Variable exn : Type.
Variable exn_str : exn -> str.
Variable OPENAI_API_KEY : option str.
Variable OPENAI_MODEL : option str.
Variable client : Type.
Variable OpenAI : str -> exn + client.
Variable create :
  list Calls.request -> client -> Calls.request -> exn + str.

#[local] Abbreviation generate :=
  (Calls.generate exn exn_str OPENAI_API_KEY OPENAI_MODEL client OpenAI
     create).
#[local] Abbreviation generate_summary :=
  (Calls.generate_summary exn exn_str OPENAI_API_KEY OPENAI_MODEL client
     OpenAI create).
#[local] Abbreviation generate_flashcards :=
  (Calls.generate_flashcards exn exn_str OPENAI_API_KEY OPENAI_MODEL client
     OpenAI create).
#[local] Abbreviation generate_quiz :=
  (Calls.generate_quiz exn exn_str OPENAI_API_KEY OPENAI_MODEL client OpenAI
     create).
#[local] Abbreviation MODEL_NAME := (Calls.MODEL_NAME OPENAI_MODEL).

Lemma call_missing_key (prompt : str) (t : QArith_base.Q)
    (log : list Calls.request) :
  Py.truthy OPENAI_API_KEY = false ->
  Calls.call_openai exn exn_str OPENAI_API_KEY OPENAI_MODEL client OpenAI
    create prompt t log
  = (log, Calls.Raise (Calls.RuntimeError (lit "OPENAI_API_KEY is missing."))).
Proof.
  intros H. unfold Calls.call_openai, Calls._get_openai_client.
  destruct OPENAI_API_KEY as [key|]; [|reflexivity].
  simpl in H. now rewrite H.
Qed.

(** X26: without an API key (the variable is unset or empty) every
    generation fails with the error [OPENAI_API_KEY is missing.], no request
    is sent, and the generate action leaves the session as it was. *)
Theorem generate_without_key (topic : str) (flashcard_count quiz_count : Z)
    (summary : option str) (ss : Calls.Session) (log : list Calls.request) :
  Py.truthy OPENAI_API_KEY = false ->
  let missing := Calls.RuntimeError (lit "OPENAI_API_KEY is missing.") in
  generate_summary topic log = (log, Calls.Raise missing)
  /\ generate_flashcards topic flashcard_count summary log
     = (log, Calls.Raise missing)
  /\ generate_quiz topic quiz_count summary log = (log, Calls.Raise missing)
  /\ generate topic flashcard_count quiz_count ss log
     = (log, ss, Some missing).
Proof.
  intros H missing.
  assert (generate_summary topic log = (log, Calls.Raise missing)) as Hs
    by (unfold Calls.generate_summary; now rewrite call_missing_key).
  assert (forall s, generate_flashcards topic flashcard_count s log
                    = (log, Calls.Raise missing)) as Hf.
  { intros s. unfold Calls.generate_flashcards.
    destruct s as [s|]; [destruct (nonempty s)|];
      now rewrite call_missing_key. }
  assert (forall s, generate_quiz topic quiz_count s log
                    = (log, Calls.Raise missing)) as Hq.
  { intros s. unfold Calls.generate_quiz.
    destruct s as [s|]; [destruct (nonempty s)|];
      now rewrite call_missing_key. }
  repeat split; auto.
  unfold Calls.generate.
  destruct (Calls.summary_needed topic ss); [now rewrite Hs|].
  now rewrite Hf.
Qed.

Lemma summary_not_needed (topic : str) (ss : Calls.Session) :
  Calls.summary_needed topic ss = false ->
  Calls.ss_generated_topic ss = Some topic
  /\ nonempty (Calls.ss_summary ss) = true.
Proof.
  unfold Calls.summary_needed. intros H.
  apply orb_false_iff in H as [Ht Hs].
  apply negb_false_iff in Ht, Hs. split; [|exact Hs].
  destruct (Calls.ss_generated_topic ss) as [t|]; [|discriminate].
  apply str_eqb_eq in Ht. now subst.
Qed.

(** X27: when the topic is the one of the stored summary and that summary
    is not empty, the generate action sends no summary request: it keeps
    the summary and sends at most two requests, the summary-anchored
    flashcard request and then the summary-anchored quiz request, both at
    temperature 0.2. *)
Theorem generate_reuses_summary (topic : str) (flashcard_count quiz_count : Z)
    (ss : Calls.Session) (log : list Calls.request) :
  Calls.summary_needed topic ss = false ->
  let cards_request :=
    Calls.mkRequest MODEL_NAME
      (FLASHCARDS_FROM_SUMMARY_PROMPT (Calls.ss_summary ss) flashcard_count)
      (QArith_base.Qmake 2 10) in
  let quiz_request :=
    Calls.mkRequest MODEL_NAME
      (QUIZ_FROM_SUMMARY_PROMPT (Calls.ss_summary ss) quiz_count)
      (QArith_base.Qmake 2 10) in
  let r := generate topic flashcard_count quiz_count ss log in
  Calls.ss_summary (snd (fst r)) = Calls.ss_summary ss
  /\ Calls.ss_generated_topic (snd (fst r)) = Some topic
  /\ (fst (fst r) = log
      \/ fst (fst r) = log ++ [cards_request]
      \/ fst (fst r) = log ++ [cards_request; quiz_request]).
Proof.
  intros H. pose proof (summary_not_needed topic ss H) as [Ht Hs].
  cbv zeta. unfold Calls.generate. rewrite H.
  unfold Calls.generate_flashcards, Calls.generate_quiz, Calls.call_openai.
  cbv beta iota. rewrite Hs.
  destruct (Calls._get_openai_client exn exn_str OPENAI_API_KEY client OpenAI)
    as [c|e]; [|cbn; auto].
  destruct (create log c _) as [e|content]; [cbn; auto|].
  cbn [Calls.ss_summary]. rewrite Hs.
  destruct (create (log ++ _) c _) as [e|content2]; cbn;
    rewrite <- ?app_assoc; auto.
Qed.

Lemma generate_quiz_at_most_n (text : str) (n : Z) :
  (len (Utils.generate_quiz text n) <= Z.max 0 n)%Z.
Proof.
  destruct (Z_le_gt_dec n 0) as [Hn|Hn].
  - rewrite generate_quiz_nonpositive by exact Hn. unfold len. simpl. lia.
  - rewrite generate_quiz_firstn by lia. unfold len.
    pose proof (firstn_le_length (Z.to_nat n)
                  (items_of None [] (splitlines text))). lia.
Qed.

Lemma generate_flashcards_ok (topic : str) (n : Z) (summary : option str)
    (log log' : list Calls.request) (cards : list Flashcard) :
  generate_flashcards topic n summary log = (log', Calls.Ok cards) ->
  exists text, cards = Utils.generate_flashcards text n.
Proof.
  unfold Calls.generate_flashcards.
  destruct (match summary with Some _ => _ | None => _ end) as [p t].
  destruct (Calls.call_openai _ _ _ _ _ _ _ _ _ _) as [l [text|e]];
    [|discriminate].
  intros [= _ <-]. now exists text.
Qed.

Lemma generate_quiz_ok (topic : str) (n : Z) (summary : option str)
    (log log' : list Calls.request) (quiz : list QuizItem) :
  generate_quiz topic n summary log = (log', Calls.Ok quiz) ->
  exists text, quiz = Utils.generate_quiz text n.
Proof.
  unfold Calls.generate_quiz.
  destruct (match summary with Some _ => _ | None => _ end) as [p t].
  destruct (Calls.call_openai _ _ _ _ _ _ _ _ _ _) as [l [text|e]];
    [|discriminate].
  intros [= _ <-]. now exists text.
Qed.

(** X28: when the generate action ends without exception, the session
    holds the topic, at most as many cards and quiz items as requested, the
    requested counts, one unset answer for each quiz item, the cards in
    their original order, and a radio epoch increased by one; the score is
    left as it was. *)
Theorem generate_success_state (topic : str) (flashcard_count quiz_count : Z)
    (ss ss' : Calls.Session) (log log' : list Calls.request) :
  generate topic flashcard_count quiz_count ss log = (log', ss', None) ->
  Calls.ss_generated_topic ss' = Some topic
  /\ (len (Calls.ss_flashcards ss') <= Z.max 0 flashcard_count)%Z
  /\ (len (Calls.ss_quiz ss') <= Z.max 0 quiz_count)%Z
  /\ Calls.ss_answers ss' = repeat None (length (Calls.ss_quiz ss'))
  /\ Calls.ss_flashcards_order ss'
     = seq 0 (length (Calls.ss_flashcards ss'))
  /\ Calls.ss_flashcard_count ss' = flashcard_count
  /\ Calls.ss_quiz_count ss' = quiz_count
  /\ Calls.ss_quiz_epoch ss' = (Calls.ss_quiz_epoch ss + 1)%Z
  /\ Calls.ss_score ss' = Calls.ss_score ss.
Proof.
  unfold Calls.generate.
  assert (forall ss1 log1,
            Calls.ss_generated_topic ss1 = Some topic ->
            Calls.ss_quiz_epoch ss1 = Calls.ss_quiz_epoch ss ->
            Calls.ss_score ss1 = Calls.ss_score ss ->
            match generate_flashcards topic flashcard_count
                    (Some (Calls.ss_summary ss1)) log1 with
            | (log2, Calls.Raise e) => (log2, ss1, Some e)
            | (log2, Calls.Ok cards) =>
                let ss2 :=
                  Calls.mkSession (Calls.ss_generated_topic ss1)
                    (Calls.ss_summary ss1) cards (Calls.ss_quiz ss1)
                    (Calls.ss_answers ss1) (Calls.ss_score ss1)
                    (Calls.ss_flashcard_count ss1) (Calls.ss_quiz_count ss1)
                    (Calls.ss_flashcards_order ss1) (Calls.ss_quiz_epoch ss1)
                in
                match generate_quiz topic quiz_count
                        (Some (Calls.ss_summary ss2)) log2 with
                | (log3, Calls.Raise e) => (log3, ss2, Some e)
                | (log3, Calls.Ok quiz) =>
                    (log3,
                     Calls.mkSession (Calls.ss_generated_topic ss2)
                       (Calls.ss_summary ss2) (Calls.ss_flashcards ss2) quiz
                       (repeat None (length quiz)) (Calls.ss_score ss2)
                       flashcard_count quiz_count
                       (seq 0 (length (Calls.ss_flashcards ss2)))
                       (Calls.ss_quiz_epoch ss2 + 1)%Z,
                     None)
                end
            end = (log', ss', None) ->
            Calls.ss_generated_topic ss' = Some topic
            /\ (len (Calls.ss_flashcards ss') <= Z.max 0 flashcard_count)%Z
            /\ (len (Calls.ss_quiz ss') <= Z.max 0 quiz_count)%Z
            /\ Calls.ss_answers ss'
               = repeat None (length (Calls.ss_quiz ss'))
            /\ Calls.ss_flashcards_order ss'
               = seq 0 (length (Calls.ss_flashcards ss'))
            /\ Calls.ss_flashcard_count ss' = flashcard_count
            /\ Calls.ss_quiz_count ss' = quiz_count
            /\ Calls.ss_quiz_epoch ss' = (Calls.ss_quiz_epoch ss + 1)%Z
            /\ Calls.ss_score ss' = Calls.ss_score ss) as Hrest.
  { intros ss1 log1 Ht He Hsc.
    destruct (generate_flashcards topic flashcard_count
                (Some (Calls.ss_summary ss1)) log1) as [log2 [cards|e]] eqn:Ef;
      [|discriminate].
    apply generate_flashcards_ok in Ef as [text1 ->].
    cbv zeta. cbn [Calls.ss_summary].
    destruct (generate_quiz topic quiz_count
                (Some (Calls.ss_summary ss1)) log2) as [log3 [quiz|e]] eqn:Eq;
      [|discriminate].
    apply generate_quiz_ok in Eq as [text2 ->].
    intros [= <- <-]. cbn.
    repeat split; auto.
    - apply generate_flashcards_len_le.
    - apply generate_quiz_at_most_n.
    - now rewrite He. }
  destruct (Calls.summary_needed topic ss) eqn:Hneed.
  - destruct (generate_summary topic log) as [log1 [s|e]]; [|discriminate].
    apply Hrest; reflexivity.
  - apply Hrest; [|reflexivity|reflexivity].
    now apply summary_not_needed.
Qed.

(** X29: when the summary request succeeds and the flashcard request
    that follows raises, the generate action ends with that exception and
    the session already holds the new topic and the new summary, next to the
    cards, the quiz and the answers of before. *)
Theorem generate_fails_after_summary (topic : str)
    (flashcard_count quiz_count : Z) (ss : Calls.Session)
    (log : list Calls.request) (key : str) (c : client) (content : str)
    (e : exn) :
  OPENAI_API_KEY = Some key -> nonempty key = true -> OpenAI key = inr c ->
  Calls.summary_needed topic ss = true ->
  let summary_request :=
    Calls.mkRequest MODEL_NAME (SUMMARY_PROMPT topic)
      (QArith_base.Qmake 4 10) in
  let cards_request :=
    Calls.mkRequest MODEL_NAME
      (FLASHCARDS_FROM_SUMMARY_PROMPT (strip content) flashcard_count)
      (QArith_base.Qmake 2 10) in
  create log c summary_request = inr content ->
  nonempty (strip content) = true ->
  create (log ++ [summary_request]) c cards_request = inl e ->
  generate topic flashcard_count quiz_count ss log
  = (log ++ [summary_request; cards_request],
     Calls.mkSession (Some topic) (strip content) (Calls.ss_flashcards ss)
       (Calls.ss_quiz ss) (Calls.ss_answers ss) (Calls.ss_score ss)
       (Calls.ss_flashcard_count ss) (Calls.ss_quiz_count ss)
       (Calls.ss_flashcards_order ss) (Calls.ss_quiz_epoch ss),
     Some (Calls.ApiError e)).
Proof.
  intros Hkey Hne Hc Hneed rqs rqc Hs Hcontent Hf.
  unfold Calls.generate. rewrite Hneed.
  unfold Calls.generate_summary, Calls.generate_flashcards, Calls.call_openai,
    Calls._get_openai_client.
  rewrite Hkey, Hne, Hc. fold rqs. rewrite Hs.
  cbn [Calls.ss_summary]. rewrite Hcontent. cbv beta iota.
  fold rqc. rewrite Hf. rewrite <- app_assoc. reflexivity.
Qed.

(** X30: with a non-empty summary the topic plays no part in the flashcard
    and quiz generation: the same request is sent and the reply is read the
    same way, whatever the topic. *)
Theorem generation_ignores_topic (topic1 topic2 summary : str) (n : Z)
    (log : list Calls.request) :
  nonempty summary = true ->
  generate_flashcards topic1 n (Some summary) log
  = generate_flashcards topic2 n (Some summary) log
  /\ generate_quiz topic1 n (Some summary) log
     = generate_quiz topic2 n (Some summary) log.
Proof.
  intros H. unfold Calls.generate_flashcards, Calls.generate_quiz.
  now rewrite H.
Qed.

End CallFacts.

Section CallWitnesses.

Lemma generate_without_key_witness :
  Calls.generate str (fun e => e) (Some []) None unit (fun _ => inr tt) once
    (lit "Binary Search") 3 3 old_session []
  = ([], old_session,
     Some (Calls.RuntimeError (lit "OPENAI_API_KEY is missing."))).
Proof.
  apply (generate_without_key str (fun e => e) (Some []) None unit
           (fun _ => inr tt) once (lit "Binary Search") 3 3 None old_session
           []).
  reflexivity.
Defined.

Lemma generate_reuses_summary_witness :
  let r :=
    Calls.generate str (fun e => e) (Some (lit "sk-1")) None unit
      (fun _ => inr tt) once (lit "Sorting") 3 3 old_session [] in
  Calls.ss_summary (snd (fst r)) = lit "<p>Old.</p>".
Proof.
  apply (generate_reuses_summary str (fun e => e) (Some (lit "sk-1")) None
           unit (fun _ => inr tt) once (lit "Sorting") 3 3 old_session []).
  vm_compute. reflexivity.
Defined.

Lemma generate_fails_after_summary_witness :
  Calls.generate str (fun e => e) (Some (lit "sk-1")) None unit
    (fun _ => inr tt) once (lit "Binary Search") 3 3 old_session []
  = ([ Calls.mkRequest (lit "gpt-4o-mini")
         (SUMMARY_PROMPT (lit "Binary Search")) (QArith_base.Qmake 4 10);
       Calls.mkRequest (lit "gpt-4o-mini")
         (FLASHCARDS_FROM_SUMMARY_PROMPT (lit "<p>Halve the range.</p>") 3)
         (QArith_base.Qmake 2 10) ],
     Calls.mkSession (Some (lit "Binary Search"))
       (lit "<p>Halve the range.</p>") [mkFlashcard (lit "q") (lit "a")] []
       [] 0 10 10 [0%nat] 4,
     Some (Calls.ApiError (lit "rate limit"))).
Proof.
  apply (generate_fails_after_summary str (fun e => e) (Some (lit "sk-1"))
           None unit (fun _ => inr tt) once (lit "Binary Search") 3 3
           old_session [] (lit "sk-1") tt (lit " <p>Halve the range.</p> ")
           (lit "rate limit"));
    vm_compute; reflexivity.
Defined.

Lemma generation_ignores_topic_witness :
  Calls.generate_flashcards str (fun e => e) (Some (lit "sk-1")) None unit
    (fun _ => inr tt) once (lit "Sorting") 3 (Some (lit "<p>Old.</p>")) []
  = Calls.generate_flashcards str (fun e => e) (Some (lit "sk-1")) None unit
      (fun _ => inr tt) once (lit "Searching") 3 (Some (lit "<p>Old.</p>")) [].
Proof.
  apply (generation_ignores_topic str (fun e => e) (Some (lit "sk-1")) None
           unit (fun _ => inr tt) once (lit "Sorting") (lit "Searching")
           (lit "<p>Old.</p>") 3 []).
  reflexivity.
Defined.

Lemma generate_success_state_witness :
  let r :=
    Calls.generate str (fun e => e) (Some (lit "sk-1")) None unit
      (fun _ => inr tt) always (lit "Sorting") 2 2 old_session [] in
  snd r = None
  /\ Calls.ss_answers (snd (fst r)) = [None; None]
  /\ Calls.ss_flashcards_order (snd (fst r)) = [0%nat; 1%nat]
  /\ Calls.ss_quiz_epoch (snd (fst r)) = 5%Z.
Proof.
  intros r.
  assert (snd r = None) as Hr by (vm_compute; reflexivity).
  split; [exact Hr|].
  assert (r = (fst (fst r), snd (fst r), None)) as E
    by (rewrite <- Hr; now destruct r as [[? ?] ?]).
  pose proof (generate_success_state str (fun e => e)
                (Some (lit "sk-1")) None unit (fun _ => inr tt) always
                (lit "Sorting") 2 2 old_session (snd (fst r)) []
                (fst (fst r)) E) as (_ & _ & _ & Ha & Ho & _ & _ & He & _).
  rewrite Ha, Ho, He. vm_compute. auto.
Defined.

End CallWitnesses.
